(** * par_streamlines.h : triangulation of wide lines

    A shallow embedding of [par_streamlines_draw_lines] and of the data it
    works on.

    - Fixed-width integers are [Z], with the wrap-around of [uint16_t] and
      [uint32_t] written out where the code computes in those types.
    - C [float] and [double] values are IEEE binary32 and binary64 numbers
      ([spec_float], round to nearest even); every [float] operation
      rounds to [float] (FLT_EVAL_METHOD 0), and the expressions that the
      code evaluates in [double] round to [double] before the assignment
      to a [float] variable.  [acos] and [sin] come from <math.h> and are
      an interface of the model.
    - The output buffers are the lists of the values written through the
      moving pointers [dst_lengths], [dst_annotations], [dst_positions]
      and [dst_indices].
    - Assertions are enabled: the function returns a mesh or stops at the
      first assertion that fails.  Pointer differences are 64 bits wide,
      so they are compared with the 32-bit counters as integers.
    - [par_streamlines_draw_lines] is the function on arrays that are
      large enough.  [par_streamlines_draw_lines_call] is a whole call:
      it sizes the growable arrays of the context first, which can
      overflow an [int] or fail to allocate, and its loop over the spines
      must stay inside the arrays and inside [spines.vertices]. *)

From Stdlib Require Import ZArith List Bool Lia.
From Stdlib Require Import Floats.SpecFloat.
Import ListNotations.
Local Open Scope Z_scope.

(* ================================================================== *)
(** ** Machine integers *)

Definition UINT16_MOD : Z := 65536.
Definition UINT32_MOD : Z := 4294967296.

Definition to_uint16 (z : Z) : Z := z mod UINT16_MOD.
Definition to_uint32 (z : Z) : Z := z mod UINT32_MOD.

(* ================================================================== *)
(** ** Floating point: C [float] is binary32, C [double] is binary64 *)

Module F32.
Definition prec : Z := 24.
Definition emax : Z := 128.
Definition add := SFadd prec emax.
Definition sub := SFsub prec emax.
Definition mul := SFmul prec emax.
Definition div := SFdiv prec emax.
Definition sqrt := SFsqrt prec emax.
Definition neg := SFopp.
Definition zero : spec_float := S754_zero false.
(** Conversion of a C integer to [float]. *)
Definition of_Z (z : Z) : spec_float := binary_normalize prec emax z 0 false.
(** Conversion of a [double] to [float] (rounds). *)
Definition of_double (x : spec_float) : spec_float :=
  match x with
  | S754_finite s m e => binary_round prec emax s m e
  | _ => x
  end.
Definition eqb := SFeqb.
Definition ltb := SFltb.
End F32.

Module F64.
Definition prec : Z := 53.
Definition emax : Z := 1024.
Definition add := SFadd prec emax.
Definition sub := SFsub prec emax.
Definition mul := SFmul prec emax.
Definition div := SFdiv prec emax.
Definition sqrt := SFsqrt prec emax.
Definition neg := SFopp.
Definition of_Z (z : Z) : spec_float := binary_normalize prec emax z 0 false.
(** Conversion of a [float] to [double] (exact). *)
Definition of_float (x : spec_float) : spec_float :=
  match x with
  | S754_finite s m e => binary_round prec emax s m e
  | _ => x
  end.
(** The literal [0.5]. *)
Definition half : spec_float := binary_round prec emax false 1 (-1).
(** [M_PI] of <math.h>: the double nearest to pi, 0x1.921FB54442D18p+1. *)
Definition M_PI : spec_float := S754_finite false 7074237752028440 (-51).
End F64.

Definition float : Set := spec_float.
Definition double : Set := spec_float.

(** The two functions of <math.h> that the code calls in double precision.
    They are not part of the repository: the model takes them as an
    interface. *)
Class Libm := {
  acos : double -> double;
  sin : double -> double
}.

(* ================================================================== *)
(** ** A small libm, to run the model on concrete inputs *)

Module RefLibm.
Import F64.

Definition two := of_Z 2.
Definition one := of_Z 1.

(** Sum of [x - x^3/3! + x^5/5! - ...], [n] terms after the first. *)
Fixpoint sin_series (n : nat) (k : Z) (term x2 acc : double) : double :=
  match n with
  | O => acc
  | S n' =>
      let term' := neg (div (mul term x2) (of_Z ((k + 1) * (k + 2)))) in
      sin_series n' (k + 2) term' x2 (add acc term')
  end.

Definition sin_ref (x : double) : double :=
  match x with
  | S754_finite _ _ _ => sin_series 16 1 x (mul x x) x
  | S754_zero _ => x
  | _ => S754_nan
  end.

(** Sum of [t - t^3/3 + t^5/5 - ...]. *)
Fixpoint atan_series (n : nat) (k : Z) (pow t2 acc : double) : double :=
  match n with
  | O => acc
  | S n' =>
      let pow' := neg (mul pow t2) in
      atan_series n' (k + 2) pow' t2 (add acc (div pow' (of_Z (k + 2))))
  end.

(** [atan t = 2 * atan (t / (1 + sqrt (1 + t^2)))]. *)
Definition atan_halve (t : double) : double :=
  div t (add one (sqrt (add one (mul t t)))).

(** Arc tangent of a number between 0 and 1. *)
Definition atan_unit (t : double) : double :=
  let t' := atan_halve (atan_halve t) in
  mul (of_Z 4) (atan_series 14 1 t' (mul t' t') t').

Definition atan_pos (t : double) : double :=
  if SFleb t one then atan_unit t
  else sub (div M_PI two) (atan_unit (div one t)).

(** [acos x = 2 * atan (sqrt ((1 - x) / (1 + x)))] on (-1, 1]. *)
Definition acos_ref (x : double) : double :=
  if SFltb one x || SFltb x (neg one) then S754_nan
  else if SFeqb x (neg one) then M_PI
  else match x with
       | S754_nan | S754_infinity _ => S754_nan
       | _ => mul two (atan_pos (sqrt (div (sub one x) (add one x))))
       end.
End RefLibm.

Definition ref_libm : Libm :=
  {| acos := RefLibm.acos_ref; sin := RefLibm.sin_ref |}.

(* ================================================================== *)
(** ** The public data types *)

Record par_streamlines_position := {
  x : float;
  y : float
}.

Inductive par_streamlines_u_mode :=
| PAR_U_MODE_NORMALIZED_DISTANCE
| PAR_U_MODE_DISTANCE
| PAR_U_MODE_SEGMENT_INDEX
| PAR_U_MODE_SEGMENT_FRACTION.

Record par_streamlines_annotation := {
  u_along_curve : float;
  v_across_curve : float;
  spine_to_edge_x : float;
  spine_to_edge_y : float
}.

(** The four buffers hold what was written through [dst_lengths],
    [dst_annotations], [dst_positions] and [dst_indices], in order. *)
Record par_streamlines_mesh := {
  num_vertices : Z;
  num_triangles : Z;
  vertex_positions : list par_streamlines_position;
  vertex_annotations : list par_streamlines_annotation;
  vertex_lengths : list float;
  triangle_indices : list Z
}.

Record par_streamlines_config := {
  thickness : float;
  curves_level_of_detail : Z;
  streamlines_seed_spacing : float;
  streamlines_seed_viewport : list float;
  streamlines_num_frames : Z;
  wireframe : bool;
  u_mode : par_streamlines_u_mode
}.

(** [spines_num_vertices] is the field [num_vertices] of the C struct. *)
Record par_streamlines_spine_list := {
  spines_num_vertices : Z;
  num_spines : Z;
  vertices : list par_streamlines_position;
  spine_lengths : list Z;
  closed : bool
}.

(** The assertions of [par_streamlines_draw_lines], in program order. *)
Inductive assertion :=
| assert_spine_length
| assert_src_position
| assert_dst_annotations
| assert_dst_positions
| assert_dst_indices.

Inductive outcome :=
| Returned (mesh : par_streamlines_mesh)
| Aborted (a : assertion).

(** The local typedefs of [par_streamlines_draw_lines]. *)
Abbreviation Position := par_streamlines_position.
Abbreviation Annotation := par_streamlines_annotation.

Definition origin : Position := {| x := F32.zero; y := F32.zero |}.

(* ================================================================== *)
(** ** par_streamlines_draw_lines *)

Section Spine.
Context {libm : Libm}.
Variable thickness : float.
Variable closed : bool.
Variable wireframe : bool.
Variable u_mode : par_streamlines_u_mode.
Variable vertices : list Position.

(** [spines.vertices[i]]; the model reads [origin] past the end of the
    array, where the program's read is undefined:
    [par_streamlines_draw_lines_call] ends with [out_of_bounds] there. *)
Definition src (i : Z) : Position := nth (Z.to_nat i) vertices origin.

(** [sqrtf(dx * dx + dy * dy)] for the segment from [a] to [b]. *)
Definition seg_length (a b : Position) : float :=
  let dx := F32.sub (x b) (x a) in
  let dy := F32.sub (y b) (y a) in
  F32.sqrt (F32.add (F32.mul dx dx) (F32.mul dy dy)).

(** [nx = -dy / segment_length] and [ny = dx / segment_length]. *)
Definition seg_nx (a b : Position) : float :=
  F32.div (F32.neg (F32.sub (y b) (y a))) (seg_length a b).

Definition seg_ny (a b : Position) : float :=
  F32.div (F32.sub (x b) (x a)) (seg_length a b).

(** [n * thickness / 2]. *)
Definition butt (n : float) : float :=
  F32.div (F32.mul n thickness) (F32.of_Z 2).

(** The joint between the segments of normals [(pnx, pny)] and
    [(nx, ny)]; [phi], [theta] and [extent] are [float] variables
    assigned from expressions of type [double]. *)
Definition miter (pnx pny nx ny : float) : float * float :=
  let dot := F32.add (F32.mul pnx nx) (F32.mul pny ny) in
  let phi := F32.of_double (F64.div (acos (F64.of_float dot)) (F64.of_Z 2)) in
  let theta :=
    F32.of_double (F64.sub (F64.div F64.M_PI (F64.of_Z 2)) (F64.of_float phi)) in
  let extent :=
    F32.of_double (F64.div (F64.mul F64.half (F64.of_float thickness))
                           (sin (F64.of_float theta))) in
  let ex := F32.add pnx nx in
  let ey := F32.add pny ny in
  let invlen :=
    F32.div (F32.of_Z 1) (F32.sqrt (F32.add (F32.mul ex ex) (F32.mul ey ey))) in
  (F32.mul ex (F32.mul invlen extent), F32.mul ey (F32.mul invlen extent)).

(** [dst_positions[0]] and [dst_positions[1]]. *)
Definition edge_pair (p : Position) (e : float * float) : list Position :=
  [ {| x := F32.add (x p) (fst e); y := F32.add (y p) (snd e) |};
    {| x := F32.sub (x p) (fst e); y := F32.sub (y p) (snd e) |} ].

(** [dst_annotations[0]] and [dst_annotations[1]]. *)
Definition pair_annotations (u : float) (e : float * float) : list Annotation :=
  [ {| u_along_curve := u; v_across_curve := F32.of_Z 1;
       spine_to_edge_x := fst e; spine_to_edge_y := snd e |};
    {| u_along_curve := u; v_across_curve := F32.of_Z (-1);
       spine_to_edge_x := F32.neg (fst e); spine_to_edge_y := F32.neg (snd e) |} ].

(** The two triangles between the pairs [segment_index - 1] and
    [segment_index]; the sums are [uint32_t]. *)
Definition quad_indices (base_index segment_index : Z) : list Z :=
  let a0 := to_uint32 (base_index + (segment_index - 1) * 2) in
  let a1 := to_uint32 (base_index + (segment_index - 1) * 2 + 1) in
  let b0 := to_uint32 (base_index + (segment_index - 0) * 2) in
  let b1 := to_uint32 (base_index + (segment_index - 0) * 2 + 1) in
  if wireframe then [a0; a1; b0; a0; b0; a1; b1; b0]
  else [a0; a1; b0; b0; a1; b1].

(** The variables that the body of the loop over spines updates. *)
Record cursor := {
  src_position : Z;
  pnx : float;
  pny : float;
  distance_along_spine : float;
  segment_index : Z;
  dst_positions : list Position;
  dst_annotations : list Annotation;
  dst_indices : list Z
}.

(** One turn of [for (; segment_index < spine_length - 1; segment_index++)]. *)
Definition interior_step (base_index : Z) (c : cursor) : cursor :=
  let p0 := src (src_position c) in
  let p1 := src (src_position c + 1) in
  let segment_length := seg_length p0 p1 in
  let nx := seg_nx p0 p1 in
  let ny := seg_ny p0 p1 in
  let e := miter (pnx c) (pny c) nx ny in
  {| src_position := src_position c + 1;
     pnx := nx;
     pny := ny;
     distance_along_spine := F32.add (distance_along_spine c) segment_length;
     segment_index := segment_index c + 1;
     dst_positions := dst_positions c ++ edge_pair p0 e;
     dst_annotations :=
       dst_annotations c ++ pair_annotations (distance_along_spine c) e;
     dst_indices := dst_indices c ++ quad_indices base_index (segment_index c) |}.

Fixpoint interior_loop (base_index : Z) (turns : nat) (c : cursor) : cursor :=
  match turns with
  | O => c
  | S turns' => interior_loop base_index turns' (interior_step base_index c)
  end.

Definition set_u (a : Annotation) (u : float) : Annotation :=
  {| u_along_curve := u; v_across_curve := v_across_curve a;
     spine_to_edge_x := spine_to_edge_x a; spine_to_edge_y := spine_to_edge_y a |}.

(** The loops [for (uint16_t i = 0; i < nverts; i++)] of the switch on
    [u_mode]: [f i u] is the new value of a [u_along_curve] that was [u]. *)
Fixpoint fixup_loop (f : Z -> float -> float) (turns : nat) (i : Z)
    (anns : list Annotation) : list Annotation :=
  match turns, anns with
  | S turns', a0 :: a1 :: rest =>
      set_u a0 (f i (u_along_curve a0)) :: set_u a1 (f i (u_along_curve a1))
        :: fixup_loop f turns' (i + 1) rest
  | _, _ => anns
  end.

(** [dst_annotations -= nverts * 2] and the loop after it: the last
    [2 * nverts] annotations written are rewritten. *)
Definition rewind_and_fix (f : Z -> float -> float) (nverts : Z)
    (anns : list Annotation) : list Annotation :=
  let kept := (length anns - Z.to_nat (nverts * 2))%nat in
  firstn kept anns ++ fixup_loop f (Z.to_nat nverts) 0 (skipn kept anns).

Definition fix_up_u (nverts : Z) (invlength invcount : float)
    (anns : list Annotation) : list Annotation :=
  match u_mode with
  | PAR_U_MODE_DISTANCE => anns
  | PAR_U_MODE_NORMALIZED_DISTANCE =>
      rewind_and_fix (fun _ u => F32.mul u invlength) nverts anns
  | PAR_U_MODE_SEGMENT_INDEX =>
      rewind_and_fix (fun i _ => F32.of_Z i) nverts anns
  | PAR_U_MODE_SEGMENT_FRACTION =>
      rewind_and_fix (fun i _ => F32.mul invcount (F32.of_Z i)) nverts anns
  end.

(** What one turn of the loop over spines writes. *)
Record spine_mesh := {
  sp_positions : list Position;
  sp_annotations : list Annotation;
  sp_lengths : list float;
  sp_indices : list Z;
  sp_src_position : Z
}.

(** The body of [for (uint16_t spine = 0; ...)], lines 236-504. *)
Definition draw_spine (spine_length src_position0 base_index : Z) : spine_mesh :=
  let p0 := src src_position0 in
  let p1 := src (src_position0 + 1) in
  let segment_length := seg_length p0 p1 in
  let nx := seg_nx p0 p1 in
  let ny := seg_ny p0 p1 in
  let first_src_position := p0 in
  let last_src_position := src (src_position0 + (spine_length - 1)) in
  let e0 :=
    if closed
    then miter (seg_nx last_src_position p0) (seg_ny last_src_position p0) nx ny
    else (butt nx, butt ny) in
  let first_dst_positions := edge_pair p0 e0 in
  let c0 :=
    {| src_position := src_position0 + 1;
       pnx := nx;
       pny := ny;
       distance_along_spine := segment_length;
       segment_index := 1;
       dst_positions := first_dst_positions;
       dst_annotations := pair_annotations F32.zero e0;
       dst_indices := [] |} in
  let c1 := interior_loop base_index (Z.to_nat (spine_length - 2)) c0 in
  let pl := src (src_position c1) in
  let e1 :=
    if closed
    then miter (pnx c1) (pny c1)
               (seg_nx pl first_src_position) (seg_ny pl first_src_position)
    else (butt (pnx c1), butt (pny c1)) in
  let c2 :=
    {| src_position := src_position c1 + 1;
       pnx := nx;
       pny := ny;
       distance_along_spine := distance_along_spine c1;
       segment_index := segment_index c1;
       dst_positions := dst_positions c1 ++ edge_pair pl e1;
       dst_annotations :=
         dst_annotations c1 ++ pair_annotations (distance_along_spine c1) e1;
       dst_indices := dst_indices c1 ++ quad_indices base_index (segment_index c1) |} in
  let c3 :=
    if closed then
      let segment_index' := to_uint16 (segment_index c2 + 1) in
      {| src_position := src_position c2;
         pnx := pnx c2;
         pny := pny c2;
         distance_along_spine := F32.add (distance_along_spine c2) segment_length;
         segment_index := segment_index';
         dst_positions := dst_positions c2 ++ first_dst_positions;
         dst_annotations :=
           dst_annotations c2 ++ pair_annotations (distance_along_spine c2) e1;
         dst_indices := dst_indices c2 ++ quad_indices base_index segment_index' |}
    else c2 in
  let nverts := to_uint16 (spine_length + (if closed then 1 else 0)) in
  let invlength := F32.div (F32.of_Z 1) (distance_along_spine c3) in
  let invcount := F32.div (F32.of_Z 1) (F32.of_Z spine_length) in
  {| sp_positions := dst_positions c3;
     sp_annotations := fix_up_u nverts invlength invcount (dst_annotations c3);
     sp_lengths := repeat (distance_along_spine c3) (Z.to_nat (nverts * 2));
     sp_indices := dst_indices c3;
     sp_src_position := src_position c3 |}.

(** [base_index += spine_length * 2 + (closed ? 2 : 0)]. *)
Definition next_base_index (base_index spine_length : Z) : Z :=
  to_uint32 (base_index + (spine_length * 2 + (if closed then 2 else 0))).

(** The loop over spines, lines 235-505, for the spine lengths [lens]. *)
Fixpoint draw_spines (lens : list Z) (src_position0 base_index : Z) : spine_mesh :=
  match lens with
  | [] =>
      {| sp_positions := []; sp_annotations := []; sp_lengths := [];
         sp_indices := []; sp_src_position := src_position0 |}
  | spine_length :: rest =>
      let s := draw_spine spine_length src_position0 base_index in
      let r := draw_spines rest (sp_src_position s)
                 (next_base_index base_index spine_length) in
      {| sp_positions := sp_positions s ++ sp_positions r;
         sp_annotations := sp_annotations s ++ sp_annotations r;
         sp_lengths := sp_lengths s ++ sp_lengths r;
         sp_indices := sp_indices s ++ sp_indices r;
         sp_src_position := sp_src_position r |}
  end.

(** The sizing loop, lines 207-215; [None] when its assertion fails. *)
Fixpoint mesh_sizing (lens : list Z) (nv nt : Z) : option (Z * Z) :=
  match lens with
  | [] => Some (nv, nt)
  | spine_length :: rest =>
      if 1 <? spine_length then
        let nv1 := to_uint32 (nv + 2 * spine_length) in
        let nt1 := to_uint32 (nt + 2 * (spine_length - 1)) in
        if closed
        then mesh_sizing rest (to_uint32 (nv1 + 2)) (to_uint32 (nt1 + 2))
        else mesh_sizing rest nv1 nt1
      else None
  end.
End Spine.

Record par_streamlines_context := {
  config : par_streamlines_config;
  result : par_streamlines_mesh
}.

(** [spines.spine_lengths[spine]] for [spine = 0 .. num_spines - 1]; a read
    past the end of the table gives 0. *)
Definition read_spine_lengths (spines : par_streamlines_spine_list) : list Z :=
  map (fun spine => nth spine (spine_lengths spines) 0)
      (seq 0 (Z.to_nat (num_spines spines))).

Definition ind_per_tri (wireframe : bool) : Z := if wireframe then 4 else 3.

Definition zlength {A} (l : list A) : Z := Z.of_nat (length l).

(** The function on arrays that are large enough for what is written:
    the sizing loop, the loop over the spines and the assertions.  The
    sizing of the arrays of the context (lines 217-225) is
    [size_buffers], and [par_streamlines_draw_lines_call] is the call
    with it. *)
Definition par_streamlines_draw_lines {libm : Libm}
    (context : par_streamlines_context)
    (spines : par_streamlines_spine_list) : outcome :=
  let thickness := thickness (config context) in
  let closed := closed spines in
  let wireframe := wireframe (config context) in
  let lens := read_spine_lengths spines in
  match mesh_sizing closed lens 0 0 with
  | None => Aborted assert_spine_length
  | Some (nv, nt) =>
      let w := draw_spines thickness closed wireframe (u_mode (config context))
                 (vertices spines) lens 0 0 in
      if negb (sp_src_position w =? spines_num_vertices spines)
      then Aborted assert_src_position
      else if negb (zlength (sp_annotations w) =? nv)
      then Aborted assert_dst_annotations
      else if negb (zlength (sp_positions w) =? nv)
      then Aborted assert_dst_positions
      else if negb (zlength (sp_indices w) =? to_uint32 (nt * ind_per_tri wireframe))
      then Aborted assert_dst_indices
      else Returned
             {| num_vertices := nv;
                num_triangles := nt;
                vertex_positions := sp_positions w;
                vertex_annotations := sp_annotations w;
                vertex_lengths := sp_lengths w;
                triangle_indices := sp_indices w |}
  end.

(* ================================================================== *)
(** ** Vocabulary of the specification *)

Fixpoint Zsum (l : list Z) : Z :=
  match l with
  | [] => 0
  | n :: rest => n + Zsum rest
  end.

(** Vertices and triangles of the ribbon around one spine of [n] points. *)
Definition spine_vertices (closed : bool) (n : Z) : Z :=
  if closed then 2 * n + 2 else 2 * n.

Definition spine_triangles (closed : bool) (n : Z) : Z :=
  if closed then 2 * n else 2 * (n - 1).

Definition total_vertices (closed : bool) (lens : list Z) : Z :=
  Zsum (map (spine_vertices closed) lens).

Definition total_triangles (closed : bool) (lens : list Z) : Z :=
  Zsum (map (spine_triangles closed) lens).

(** What the C types say about a spine list: the ranges of [uint16_t] and
    [uint32_t], and the sizes of the two arrays. *)
Definition well_formed (spines : par_streamlines_spine_list) : Prop :=
  0 <= num_spines spines < UINT16_MOD /\
  0 <= spines_num_vertices spines < UINT32_MOD /\
  Forall (fun n => 0 <= n < UINT16_MOD) (spine_lengths spines) /\
  zlength (spine_lengths spines) = num_spines spines /\
  zlength (vertices spines) = spines_num_vertices spines.

(** The preconditions of the specification. *)
Definition valid_spine_list (spines : par_streamlines_spine_list) : Prop :=
  well_formed spines /\
  Forall (fun n => 1 < n) (spine_lengths spines) /\
  Zsum (spine_lengths spines) = spines_num_vertices spines.

(** Index in [spines.vertices] of the first point of spine [k]. *)
Definition first_vertex (spines : par_streamlines_spine_list) (k : nat) : Z :=
  Zsum (firstn k (spine_lengths spines)).

(** Index in the mesh of the first boundary vertex of spine [k]. *)
Definition first_output (spines : par_streamlines_spine_list) (k : nat) : Z :=
  total_vertices (closed spines) (firstn k (spine_lengths spines)).

Definition spine_length_of (spines : par_streamlines_spine_list) (k : nat) : Z :=
  nth k (spine_lengths spines) 0.

Definition position_at (mesh : par_streamlines_mesh) (i : Z) : Position :=
  nth (Z.to_nat i) (vertex_positions mesh) origin.

Definition no_annotation : Annotation :=
  {| u_along_curve := S754_nan; v_across_curve := S754_nan;
     spine_to_edge_x := S754_nan; spine_to_edge_y := S754_nan |}.

Definition annotation_at (mesh : par_streamlines_mesh) (i : Z) : Annotation :=
  nth (Z.to_nat i) (vertex_annotations mesh) no_annotation.

(** The vector [(spine_to_edge_x, spine_to_edge_y)] of an annotation. *)
Definition spine_to_edge (a : Annotation) : float * float :=
  (spine_to_edge_x a, spine_to_edge_y a).

Definition index_at (mesh : par_streamlines_mesh) (i : Z) : Z :=
  nth (Z.to_nat i) (triangle_indices mesh) (-1).

(** The mesh that the function fills, once the sizing loop has passed. *)
Definition written {libm : Libm} (context : par_streamlines_context)
    (spines : par_streamlines_spine_list) : spine_mesh :=
  draw_spines (thickness (config context)) (closed spines)
    (wireframe (config context)) (u_mode (config context))
    (vertices spines) (spine_lengths spines) 0 0.

(** The vector opposite to [e], as [-ex] and [-ey] give it. *)
Definition opposite (e : float * float) : float * float :=
  (F32.neg (fst e), F32.neg (snd e)).

(** Positions and stored offsets that agree, pair by pair, from the point
    of index [v] on: each pair of positions is a point plus and minus a
    vector [e], and the two offsets stored for it are [e] and [-e]. *)
Inductive pairs_agree (vertices : list Position)
    : Z -> list Position -> list (float * float) -> Prop :=
| pairs_agree_nil v : pairs_agree vertices v [] []
| pairs_agree_cons v e ps es :
    pairs_agree vertices (v + 1) ps es ->
    pairs_agree vertices v (edge_pair (src vertices v) e ++ ps)
                (e :: opposite e :: es).

(** Wireframe index buffers: 4-tuples that end with their first index. *)
Inductive closed_tuples : list Z -> Prop :=
| closed_tuples_nil : closed_tuples []
| closed_tuples_cons a b c rest :
    closed_tuples rest -> closed_tuples (a :: b :: c :: a :: rest).

(** After a turn, the previous normal is that of the segment that ends
    at the current point. *)
Definition normal_of_previous_segment (vertices : list Position) (c : cursor) : Prop :=
  pnx c = seg_nx (src vertices (src_position c - 1)) (src vertices (src_position c)) /\
  pny c = seg_ny (src vertices (src_position c - 1)) (src vertices (src_position c)).


(* ================================================================== *)
(** ** Contexts and spine lists to run the model on *)

Definition empty_mesh : par_streamlines_mesh :=
  {| num_vertices := 0; num_triangles := 0; vertex_positions := [];
     vertex_annotations := []; vertex_lengths := []; triangle_indices := [] |}.

(** [PAR_CALLOC] zeroes the context, then the configuration is copied. *)
Definition par_streamlines_create_context (config : par_streamlines_config)
    : par_streamlines_context :=
  {| config := config; result := empty_mesh |}.

(** [{ .thickness = t, .wireframe = w, .u_mode = m }]. *)
Definition simple_config (t : Z) (w : bool) (m : par_streamlines_u_mode)
    : par_streamlines_config :=
  {| thickness := F32.of_Z t;
     curves_level_of_detail := 0;
     streamlines_seed_spacing := F32.zero;
     streamlines_seed_viewport := [F32.zero; F32.zero; F32.zero; F32.zero];
     streamlines_num_frames := 0;
     wireframe := w;
     u_mode := m |}.

Definition point (a b : Z) : Position := {| x := F32.of_Z a; y := F32.of_Z b |}.

(** One spine through the given points. *)
Definition one_spine (points : list Position) (closed : bool)
    : par_streamlines_spine_list :=
  {| spines_num_vertices := zlength points;
     num_spines := 1;
     vertices := points;
     spine_lengths := [zlength points];
     closed := closed |}.

(** The example of the header: [{0, 0}, {2, 1}, {4, 0}], thickness 3. *)
Definition header_context : par_streamlines_context :=
  par_streamlines_create_context
    (simple_config 3 false PAR_U_MODE_NORMALIZED_DISTANCE).

Definition header_spines : par_streamlines_spine_list :=
  one_spine [point 0 0; point 2 1; point 4 0] false.

(** Two spines in one list: three points, then two. *)
Definition two_spines (closed : bool) : par_streamlines_spine_list :=
  {| spines_num_vertices := 5;
     num_spines := 2;
     vertices := [point 0 0; point 2 1; point 4 0; point 0 5; point 3 5];
     spine_lengths := [3; 2];
     closed := closed |}.

Definition unit_square : list Position :=
  [point 0 0; point 1 0; point 1 1; point 0 1].

(** A right triangle with sides 3, 4 and 5. *)
Definition triangle_345 : list Position :=
  [point 0 0; point 3 0; point 3 4].

(** Six points on a line. *)
Definition six_points : list Position :=
  [point 0 0; point 1 0; point 2 0; point 3 0; point 4 0; point 5 0].

(** The mesh of an outcome ([empty_mesh] when an assertion failed). *)
Definition mesh_of (o : outcome) : par_streamlines_mesh :=
  match o with
  | Returned mesh => mesh
  | Aborted _ => empty_mesh
  end.


(** The length of the polyline through [points], in [float] arithmetic,
    summed from the first segment on as the code sums it. *)
Fixpoint path_length (acc : float) (points : list Position) : float :=
  match points with
  | a :: (b :: _) as rest => path_length (F32.add acc (seg_length a b)) rest
  | _ => acc
  end.

(** Arc length of an open spine, and of a closed one: the latter counts
    the segment from the last point back to the first. *)
Definition open_arc_length (points : list Position) : float :=
  match points with
  | a :: b :: rest => path_length (seg_length a b) (b :: rest)
  | _ => F32.zero
  end.

Definition closed_arc_length (points : list Position) : float :=
  F32.add (open_arc_length points)
          (seg_length (last points origin) (hd origin points)).

(* ================================================================== *)
(** ** More vocabulary: sides, triangles, joints and arc lengths *)

(** [v_across_curve] of [pairs] consecutive pairs: 1, -1, 1, -1, ... *)
Fixpoint sides (pairs : nat) : list float :=
  match pairs with
  | O => []
  | S pairs' => F32.of_Z 1 :: F32.of_Z (-1) :: sides pairs'
  end.

(** The two triangles between the pair of vertices [a], [a + 1] and the
    next pair [a + 2], [a + 3]: (a0, a1, b0) and (b0, a1, b1), each
    closed by its first index in wireframe mode. *)
Definition two_triangles (wireframe : bool) (a : Z) : list Z :=
  if wireframe
  then [a; a + 1; a + 2; a; a + 2; a + 1; a + 3; a + 2]
  else [a; a + 1; a + 2; a + 2; a + 1; a + 3].

(** The [len] entries of [l] from index [start] on. *)
Definition slice {A} (l : list A) (start len : Z) : list A :=
  firstn (Z.to_nat len) (skipn (Z.to_nat start) l).

(** Index in the mesh's index buffer of the first index of spine [k]. *)
Definition first_index (wireframe : bool) (spines : par_streamlines_spine_list)
    (k : nat) : Z :=
  ind_per_tri wireframe *
  total_triangles (closed spines) (firstn k (spine_lengths spines)).

(** What the loop over segments writes to the index buffer in [turns]
    turns from the segment [segment_index] on. *)
Fixpoint strip (wireframe : bool) (base_index segment_index : Z) (turns : nat)
    : list Z :=
  match turns with
  | O => []
  | S turns' =>
      quad_indices wireframe base_index segment_index ++
      strip wireframe base_index (segment_index + 1) turns'
  end.

(** The offset from point [i] of a spine of [n] points, whose first point
    is [vertices[v]], to the first boundary vertex of its pair: a miter
    of the normals of the two segments that meet at the point, where a
    closed spine has the segment from its last point to its first, and
    the normal of the only segment, times thickness / 2, at the ends of
    an open spine. *)
Definition joint_offset {libm : Libm} (thickness : float) (closed : bool)
    (vertices : list Position) (v n i : Z) : float * float :=
  let p := fun j => src vertices (v + j) in
  if i =? 0 then
    if closed
    then miter thickness (seg_nx (p (n - 1)) (p 0)) (seg_ny (p (n - 1)) (p 0))
                         (seg_nx (p 0) (p 1)) (seg_ny (p 0) (p 1))
    else (butt thickness (seg_nx (p 0) (p 1)), butt thickness (seg_ny (p 0) (p 1)))
  else if i =? n - 1 then
    if closed
    then miter thickness (seg_nx (p (n - 2)) (p (n - 1))) (seg_ny (p (n - 2)) (p (n - 1)))
                         (seg_nx (p (n - 1)) (p 0)) (seg_ny (p (n - 1)) (p 0))
    else (butt thickness (seg_nx (p (n - 2)) (p (n - 1))),
          butt thickness (seg_ny (p (n - 2)) (p (n - 1))))
  else
    miter thickness (seg_nx (p (i - 1)) (p i)) (seg_ny (p (i - 1)) (p i))
                    (seg_nx (p i) (p (i + 1))) (seg_ny (p i) (p (i + 1))).

(** The joints that the interior loop has written so far, for a spine
    whose first point is [vertices[v0]]. *)
Definition interior_joints {libm : Libm} (thickness : float)
    (vertices : list Position) (v0 : Z) (c : cursor) : Prop :=
  zlength (dst_annotations c) = 2 * (src_position c - v0) /\
  forall i, 1 <= i < src_position c - v0 ->
    spine_to_edge (nth (Z.to_nat (2 * i)) (dst_annotations c) no_annotation) =
    miter thickness
      (seg_nx (src vertices (v0 + i - 1)) (src vertices (v0 + i)))
      (seg_ny (src vertices (v0 + i - 1)) (src vertices (v0 + i)))
      (seg_nx (src vertices (v0 + i)) (src vertices (v0 + i + 1)))
      (seg_ny (src vertices (v0 + i)) (src vertices (v0 + i + 1))).

(** The length of the polyline from the point [vertices[v]] to the point
    [i] places after it, in [float] arithmetic: the length of the first
    segment, then one segment added at a time. *)
Fixpoint arc_length (vertices : list Position) (v : Z) (i : nat) : float :=
  match i with
  | O => F32.zero
  | S j =>
      let step := seg_length (src vertices (v + Z.of_nat j))
                             (src vertices (v + Z.of_nat j + 1)) in
      match j with
      | O => step
      | S _ => F32.add (arc_length vertices v j) step
      end
  end.

(** What the code takes for the length of a spine of [n] points from
    [vertices[v]] on: the length of the open polyline and, when the
    spines are closed, the length of the first segment once more. *)
Definition spine_total (vertices : list Position) (closed : bool) (v n : Z)
    : float :=
  let open := arc_length vertices v (Z.to_nat (n - 1)) in
  if closed
  then F32.add open (seg_length (src vertices v) (src vertices (v + 1)))
  else open.

(** The distance written at first on the pair [i] of a spine of [n]
    points: the arc length to the point [i], and on the seam pair of a
    closed spine (the pair [n]) the arc length to the last point. *)
Definition raw_distance (vertices : list Position) (v n i : Z) : float :=
  arc_length vertices v (Z.to_nat (Z.min i (n - 1))).

(** What the interior loop keeps true of the distances, for a spine whose
    first point is [vertices[v0]]. *)
Definition distances_written (vertices : list Position) (v0 : Z) (c : cursor)
    : Prop :=
  1 <= src_position c - v0 /\
  distance_along_spine c = arc_length vertices v0 (Z.to_nat (src_position c - v0)) /\
  zlength (dst_annotations c) = 2 * (src_position c - v0) /\
  forall j, 0 <= j < 2 * (src_position c - v0) ->
    u_along_curve (nth (Z.to_nat j) (dst_annotations c) no_annotation) =
    arc_length vertices v0 (Z.to_nat (j / 2)).

Definition length_at (mesh : par_streamlines_mesh) (i : Z) : float :=
  nth (Z.to_nat i) (vertex_lengths mesh) S754_nan.

(** The number of entries of [vertex_lengths] that the loop over [nverts]
    writes for the spines of lengths [lens]; [nverts] is a [uint16_t]. *)
Definition lengths_written (closed : bool) (lens : list Z) : Z :=
  Zsum (map (fun n => 2 * ((n + (if closed then 1 else 0)) mod 65536)) lens).

(** Two cursors that differ at most in the indices written. *)
Definition same_geometry (c c' : cursor) : Prop :=
  src_position c = src_position c' /\
  pnx c = pnx c' /\
  pny c = pny c' /\
  distance_along_spine c = distance_along_spine c' /\
  dst_positions c = dst_positions c' /\
  dst_annotations c = dst_annotations c'.

(* ================================================================== *)
(** ** Growable arrays ([pa_] macros) and the buffers of the context *)

(** [int] has 32 bits and [sizeof(int)] is 4; [size_t] has 64 bits.  A
    signed computation that leaves the range of [int] is undefined in C
    and ends the model with [pa_signed_overflow]; a conversion to [int]
    of a value out of range wraps, as two's complement compilers define
    it. *)
Definition INT_MAX : Z := 2147483647.
Definition INT_MIN : Z := -2147483648.
Definition SIZE_MOD : Z := 18446744073709551616.
Definition sizeof_int : Z := 4.

Definition int_ok (z : Z) : bool := (INT_MIN <=? z) && (z <=? INT_MAX).
Definition to_int (z : Z) : Z :=
  let u := to_uint32 z in if u <=? INT_MAX then u else u - UINT32_MOD.
Definition to_size_t (z : Z) : Z := z mod SIZE_MOD.

(** The block behind a non-null array pointer: the two [int]s before the
    items, capacity [pa___m] and count [pa___n], and the size in bytes
    that [realloc] was asked for. *)
Record pa_block := {
  pa___m : Z;
  pa___n : Z;
  allocated : Z
}.

(** An array pointer: [None] is the null pointer. *)
Definition pa_array : Type := option pa_block.

Inductive pa_outcome (A : Type) :=
  | pa_done (a : A)
  | pa_signed_overflow
  | pa_alloc_failed.
Arguments pa_done {A} a.
Arguments pa_signed_overflow {A}.
Arguments pa_alloc_failed {A}.

Definition pa_bind {A B} (r : pa_outcome A) (f : A -> pa_outcome B)
    : pa_outcome B :=
  match r with
  | pa_done a => f a
  | pa_signed_overflow => pa_signed_overflow
  | pa_alloc_failed => pa_alloc_failed
  end.

(** [pa_count(a)]: [(a) ? pa___n(a) : 0]. *)
Definition pa_count (a : pa_array) : Z :=
  match a with
  | Some b => pa___n b
  | None => 0
  end.

Definition pa_capacity (a : pa_array) : Z :=
  match a with
  | Some b => pa___m b
  | None => 0
  end.

Definition pa_allocated (a : pa_array) : Z :=
  match a with
  | Some b => allocated b
  | None => 0
  end.

(** [pa_clear(arr)]: [if (arr) pa___n(arr) = 0]. *)
Definition pa_clear (arr : pa_array) : pa_array :=
  match arr with
  | Some b => Some {| pa___m := pa___m b; pa___n := 0; allocated := allocated b |}
  | None => None
  end.

(** [pa_free(a)]: the block, if there is one, is given back. *)
Definition pa_free (a : pa_array) : pa_array := None.

(** [pa___growf(arr, increment, itemsize)]; [granted] tells whether
    [realloc] gives the block asked for.  When it does not, the function
    returns the address [2 * sizeof(int)], whose two leading [int]s would
    lie at the address 0: the model ends with [pa_alloc_failed]. *)
Definition pa___growf (granted : bool) (arr : pa_array) (increment itemsize : Z)
    : pa_outcome pa_block :=
  let dbl_cur := match arr with Some b => 2 * pa___m b | None => 0 end in
  if negb (int_ok dbl_cur) then pa_signed_overflow else
  let min_needed := pa_count arr + increment in
  if negb (int_ok min_needed) then pa_signed_overflow else
  let m := if dbl_cur >? min_needed then dbl_cur else min_needed in
  if negb (int_ok (itemsize * m)) then pa_signed_overflow else
  let bytes :=
    to_size_t (sizeof_int *
               to_size_t (to_size_t (itemsize * m) / sizeof_int + 2)) in
  if granted then
    pa_done {| pa___m := m;
               pa___n := match arr with Some b => pa___n b | None => 0 end;
               allocated := bytes |}
  else pa_alloc_failed.

(** [pa___needgrow(a, n)] for [n] of type [uint32_t]: the sum and the
    comparison are unsigned. *)
Definition pa___needgrow (a : pa_array) (n : Z) : bool :=
  match a with
  | None => true
  | Some b => to_uint32 (pa___n b + n) >=? to_uint32 (pa___m b)
  end.

(** [pa___maybegrow(a, n)]; [itemsize] is the size of one item of [a]. *)
Definition pa___maybegrow (granted : bool) (a : pa_array) (n itemsize : Z)
    : pa_outcome pa_block :=
  match a with
  | None => pa___growf granted a (to_int n) itemsize
  | Some b =>
      if pa___needgrow a n
      then pa___growf granted a (to_int n) itemsize
      else pa_done b
  end.

(** [pa_add(a, n)] for [n] of type [uint32_t]. *)
Definition pa_add (granted : bool) (a : pa_array) (n itemsize : Z)
    : pa_outcome pa_block :=
  pa_bind (pa___maybegrow granted a n itemsize) (fun b =>
  pa_done {| pa___m := pa___m b;
             pa___n := to_int (to_uint32 (pa___n b + n));
             allocated := allocated b |}).

(** The four arrays of [context->result]. *)
Record mesh_buffers := {
  vertex_positions_buffer : pa_array;
  vertex_annotations_buffer : pa_array;
  vertex_lengths_buffer : pa_array;
  triangle_indices_buffer : pa_array
}.

Definition sizeof_position : Z := 8.
Definition sizeof_annotation : Z := 16.
Definition sizeof_float : Z := 4.
Definition sizeof_uint32 : Z := 4.

(** The arrays of a context that [par_streamlines_create_context] has
    just made: [PAR_CALLOC] zeroes them. *)
Definition created_buffers : mesh_buffers :=
  {| vertex_positions_buffer := None;
     vertex_annotations_buffer := None;
     vertex_lengths_buffer := None;
     triangle_indices_buffer := None |}.

(** What [par_streamlines_draw_lines] does to the arrays before it draws,
    for the counts [num_vertices] and [num_triangles] of the mesh; one
    answer of [realloc] for each array. *)
Definition size_buffers (g_lengths g_annotations g_positions g_indices : bool)
    (b : mesh_buffers) (wireframe : bool) (num_vertices num_triangles : Z)
    : pa_outcome mesh_buffers :=
  let lengths := pa_clear (vertex_lengths_buffer b) in
  let annotations := pa_clear (vertex_annotations_buffer b) in
  let positions := pa_clear (vertex_positions_buffer b) in
  let indices := pa_clear (triangle_indices_buffer b) in
  pa_bind (pa_add g_lengths lengths num_vertices sizeof_float) (fun l =>
  pa_bind (pa_add g_annotations annotations num_vertices sizeof_annotation) (fun a =>
  pa_bind (pa_add g_positions positions num_vertices sizeof_position) (fun p =>
  pa_bind (pa_add g_indices indices
             (to_uint32 (ind_per_tri wireframe * num_triangles)) sizeof_uint32)
          (fun i =>
  pa_done {| vertex_positions_buffer := Some p;
             vertex_annotations_buffer := Some a;
             vertex_lengths_buffer := Some l;
             triangle_indices_buffer := Some i |})))).

(** [par_streamlines_destroy_context]: the blocks that are still
    allocated when it returns. *)
Definition par_streamlines_destroy_context (b : mesh_buffers) : mesh_buffers :=
  {| vertex_positions_buffer := pa_free (vertex_positions_buffer b);
     vertex_annotations_buffer := pa_free (vertex_annotations_buffer b);
     vertex_lengths_buffer := pa_free (vertex_lengths_buffer b);
     triangle_indices_buffer := triangle_indices_buffer b |}.

(** An array whose count is within its capacity, an [int], and whose
    block holds the two leading [int]s and [pa___m] items of [itemsize]
    bytes. *)
Definition pa_room (itemsize : Z) (a : pa_array) : Prop :=
  match a with
  | None => True
  | Some b =>
      0 <= pa___n b <= pa___m b /\
      pa___m b <= INT_MAX /\
      2 * sizeof_int + itemsize * pa___m b <= allocated b
  end.

Definition buffers_room (b : mesh_buffers) : Prop :=
  pa_room sizeof_position (vertex_positions_buffer b) /\
  pa_room sizeof_annotation (vertex_annotations_buffer b) /\
  pa_room sizeof_float (vertex_lengths_buffer b) /\
  pa_room sizeof_uint32 (triangle_indices_buffer b).

(** Neither [n] items nor twice the capacity of [a] take more bytes than
    an [int] can hold. *)
Definition pa_fits (itemsize : Z) (a : pa_array) (n : Z) : Prop :=
  itemsize * Z.max (2 * pa_capacity a) n <= INT_MAX.

Definition buffers_fit (b : mesh_buffers) (num_vertices num_indices : Z) : Prop :=
  pa_fits sizeof_position (vertex_positions_buffer b) num_vertices /\
  pa_fits sizeof_annotation (vertex_annotations_buffer b) num_vertices /\
  pa_fits sizeof_float (vertex_lengths_buffer b) num_vertices /\
  pa_fits sizeof_uint32 (triangle_indices_buffer b) num_indices.

(** A [float] that is neither an infinity nor a NaN. *)
Definition finite_float (x : float) : bool :=
  match x with
  | S754_zero _ | S754_finite _ _ _ => true
  | S754_infinity _ | S754_nan => false
  end.

(** A spine whose first point is repeated. *)
Definition stutter : list Position := [point 0 0; point 0 0; point 1 0].

(** Two cursors at the same place of two vertex arrays, the second of
    which starts [s] points into the first; the indices written are left
    out. *)
Definition shifted (s : Z) (c c' : cursor) : Prop :=
  src_position c = s + src_position c' /\
  pnx c = pnx c' /\
  pny c = pny c' /\
  distance_along_spine c = distance_along_spine c' /\
  segment_index c = segment_index c' /\
  dst_positions c = dst_positions c' /\
  dst_annotations c = dst_annotations c'.

(** The offset of a butt cap at an end of an open spine, for the segment
    from [a] to [b] that ends there: with [dx] and [dy] the differences
    of the coordinates and [len = sqrtf(dx * dx + dy * dy)], the vector
    [((-dy / len) * thickness / 2, (dx / len) * thickness / 2)], every
    operation rounded to [float]. *)
Definition cap_offset (thickness : float) (a b : Position) : float * float :=
  let dx := F32.sub (x b) (x a) in
  let dy := F32.sub (y b) (y a) in
  let len := F32.sqrt (F32.add (F32.mul dx dx) (F32.mul dy dy)) in
  (F32.div (F32.mul (F32.div (F32.neg dy) len) thickness) (F32.of_Z 2),
   F32.div (F32.mul (F32.div dx len) thickness) (F32.of_Z 2)).

(** An open spine whose first segment has the length 2^100: the square
    of the length is not a [float]. *)
Definition far_spine : list Position :=
  [point 0 0; point (2 ^ 100) 0; point (2 ^ 100) 5].


(* ================================================================== *)
(** ** The whole call: the arrays are sized, then the mesh is drawn *)






(* ================================================================== *)
(** ** Sizes of what one spine writes *)

Section SpineFacts.
Context {libm : Libm}.
Variable thickness : float.
Variable closed : bool.
Variable wireframe : bool.
Variable u_mode : par_streamlines_u_mode.
Variable vertices : list Position.

Local Abbreviation interior_loop' := (interior_loop thickness wireframe vertices).
Local Abbreviation interior_step' := (interior_step thickness wireframe vertices).
Local Abbreviation draw_spine' := (draw_spine thickness closed wireframe u_mode vertices).
Local Abbreviation draw_spines' := (draw_spines thickness closed wireframe u_mode vertices).
Local Abbreviation quad' := (quad_indices wireframe).

Lemma length_quad_indices b s :
  zlength (quad' b s) = 2 * ind_per_tri wireframe.
Proof. unfold quad_indices, ind_per_tri, zlength; destruct wireframe; reflexivity. Qed.

Lemma zlength_app {A} (l1 l2 : list A) :
  zlength (l1 ++ l2) = zlength l1 + zlength l2.
Proof. unfold zlength; rewrite length_app; lia. Qed.

(** What [turns] turns of the interior loop add to the cursor. *)
Lemma interior_loop_sizes b turns : forall c,
  let c' := interior_loop' b turns c in
  src_position c' = src_position c + Z.of_nat turns /\
  segment_index c' = segment_index c + Z.of_nat turns /\
  zlength (dst_positions c') = zlength (dst_positions c) + 2 * Z.of_nat turns /\
  zlength (dst_annotations c') = zlength (dst_annotations c) + 2 * Z.of_nat turns /\
  zlength (dst_indices c') =
    zlength (dst_indices c) + 2 * ind_per_tri wireframe * Z.of_nat turns.
Proof.
  induction turns as [|turns IH]; intros c; cbn zeta.
  - cbn [interior_loop]; repeat split; lia.
  - cbn [interior_loop].
    destruct (IH (interior_step' b c)) as (Hs & Hi & Hp & Ha & Hx).
    rewrite Hs, Hi, Hp, Ha, Hx.
    unfold interior_step; cbn [src_position segment_index dst_positions
      dst_annotations dst_indices].
    rewrite !zlength_app, length_quad_indices.
    unfold edge_pair, pair_annotations, zlength; cbn [length].
    repeat split; lia.
Qed.

Lemma length_fixup_loop f turns : forall i anns,
  length (fixup_loop f turns i anns) = length anns.
Proof.
  induction turns as [|turns IH]; intros i anns; [reflexivity|].
  destruct anns as [|a0 [|a1 rest]]; cbn [fixup_loop length]; auto.
Qed.

Lemma length_rewind_and_fix f nverts anns :
  length (rewind_and_fix f nverts anns) = length anns.
Proof.
  unfold rewind_and_fix.
  rewrite length_app, length_fixup_loop, <- length_app, firstn_skipn.
  reflexivity.
Qed.

Lemma length_fix_up_u nverts invlength invcount anns :
  length (fix_up_u u_mode nverts invlength invcount anns) = length anns.
Proof.
  unfold fix_up_u; destruct u_mode; auto using length_rewind_and_fix.
Qed.

Lemma zlength_fix_up_u nverts invlength invcount anns :
  zlength (fix_up_u u_mode nverts invlength invcount anns) = zlength anns.
Proof. unfold zlength; now rewrite length_fix_up_u. Qed.

(** One spine of [n >= 2] points: the sizes of what is written. *)
Lemma draw_spine_sizes n s b :
  2 <= n ->
  let w := draw_spine' n s b in
  sp_src_position w = s + n /\
  zlength (sp_positions w) = spine_vertices closed n /\
  zlength (sp_annotations w) = spine_vertices closed n /\
  zlength (sp_indices w) = ind_per_tri wireframe * spine_triangles closed n.
Proof.
  intros Hn; cbn zeta.
  unfold draw_spine.
  match goal with
  | |- context [interior_loop' b ?t ?c] =>
      destruct (interior_loop_sizes b t c) as (Hs & Hi & Hp & Ha & Hx);
      set (c1 := interior_loop' b t c) in *
  end.
  cbn [src_position segment_index dst_positions dst_annotations dst_indices] in *.
  rewrite Z2Nat.id in * by lia.
  unfold spine_vertices, spine_triangles.
  destruct closed;
    cbn [sp_src_position sp_positions sp_annotations sp_indices
         src_position segment_index dst_positions dst_annotations dst_indices];
    rewrite ?zlength_fix_up_u, ?zlength_app, ?length_quad_indices, Hs, Hp, Ha, Hx;
    unfold edge_pair, pair_annotations, zlength; cbn [length];
    repeat split; lia.
Qed.

(** All the spines: the sizes of what is written. *)
Lemma draw_spines_sizes lens : forall s b,
  Forall (fun n => 1 < n) lens ->
  let w := draw_spines' lens s b in
  sp_src_position w = s + Zsum lens /\
  zlength (sp_positions w) = total_vertices closed lens /\
  zlength (sp_annotations w) = total_vertices closed lens /\
  zlength (sp_indices w) = ind_per_tri wireframe * total_triangles closed lens.
Proof.
  unfold total_vertices, total_triangles.
  induction lens as [|n rest IH]; intros s b Hall; cbn zeta.
  - cbn; repeat split; lia.
  - inversion Hall as [|? ? Hn Hrest]; subst.
    cbn [draw_spines sp_src_position sp_positions sp_annotations sp_indices
         map Zsum].
    destruct (draw_spine_sizes n s b ltac:(lia)) as (Hs & Hp & Ha & Hx).
    match goal with
    | |- context [draw_spines' rest ?s' ?b'] =>
        destruct (IH s' b' Hrest) as (Hs' & Hp' & Ha' & Hx')
    end.
    rewrite !zlength_app, Hs', Hp', Ha', Hx', Hs, Hp, Ha, Hx.
    repeat split; lia.
Qed.

Lemma spine_vertices_pos n : 1 < n -> 4 <= spine_vertices closed n.
Proof. unfold spine_vertices; destruct closed; lia. Qed.

Lemma spine_triangles_bounds n :
  1 < n -> 2 <= spine_triangles closed n < spine_vertices closed n.
Proof. unfold spine_triangles, spine_vertices; destruct closed; lia. Qed.

Lemma totals_bounds lens :
  Forall (fun n => 1 < n) lens ->
  0 <= total_triangles closed lens <= total_vertices closed lens.
Proof.
  unfold total_triangles, total_vertices.
  induction 1 as [|n rest Hn _ IH]; cbn [map Zsum]; [lia|].
  pose proof (spine_triangles_bounds n Hn); lia.
Qed.

Lemma to_uint32_add_l a b : to_uint32 (to_uint32 a + b) = to_uint32 (a + b).
Proof. unfold to_uint32; apply Zplus_mod_idemp_l. Qed.

Lemma to_uint32_range a : 0 <= to_uint32 a < UINT32_MOD.
Proof. unfold to_uint32; apply Z.mod_pos_bound; reflexivity. Qed.

Lemma to_uint32_small a : 0 <= a < UINT32_MOD -> to_uint32 a = a.
Proof. unfold to_uint32; apply Z.mod_small. Qed.

(** The sizing loop adds the totals, modulo 2^32. *)
Lemma mesh_sizing_total lens : forall nv nt,
  Forall (fun n => 1 < n) lens ->
  0 <= nv < UINT32_MOD -> 0 <= nt < UINT32_MOD ->
  mesh_sizing closed lens nv nt =
    Some (to_uint32 (nv + total_vertices closed lens),
          to_uint32 (nt + total_triangles closed lens)).
Proof.
  unfold total_vertices, total_triangles.
  induction lens as [|n rest IH]; intros nv nt Hall Hv Ht.
  - cbn [mesh_sizing map Zsum]. rewrite !Z.add_0_r, !to_uint32_small by assumption.
    reflexivity.
  - inversion Hall as [|? ? Hn Hrest]; subst.
    cbn [mesh_sizing map Zsum].
    replace (1 <? n) with true by (symmetry; apply Z.ltb_lt; exact Hn).
    assert (Hstep :
      (if closed
       then mesh_sizing closed rest (to_uint32 (to_uint32 (nv + 2 * n) + 2))
              (to_uint32 (to_uint32 (nt + 2 * (n - 1)) + 2))
       else mesh_sizing closed rest (to_uint32 (nv + 2 * n))
              (to_uint32 (nt + 2 * (n - 1)))) =
      mesh_sizing closed rest (to_uint32 (nv + spine_vertices closed n))
        (to_uint32 (nt + spine_triangles closed n))).
    { unfold spine_vertices, spine_triangles; destruct closed;
        rewrite ?to_uint32_add_l; do 2 f_equal; lia. }
    rewrite Hstep, IH by auto using to_uint32_range.
    rewrite !to_uint32_add_l, !Z.add_assoc. reflexivity.
Qed.


(* ------------------------------------------------------------------ *)
(** *** The indices of one spine stay inside its block of vertices *)

Lemma Forall_quad_indices b s lo hi :
  0 <= lo -> hi <= UINT32_MOD ->
  lo <= b + (s - 1) * 2 -> b + s * 2 + 1 < hi ->
  Forall (fun i => lo <= i < hi) (quad' b s).
Proof.
  intros Hlo Hhi Hl Hh.
  unfold quad_indices.
  rewrite !to_uint32_small by lia.
  destruct wireframe; repeat constructor; lia.
Qed.

Lemma interior_loop_indices b lo hi turns : forall c,
  0 <= lo -> hi <= UINT32_MOD ->
  lo <= b + (segment_index c - 1) * 2 ->
  b + (segment_index c + Z.of_nat turns) * 2 <= hi ->
  Forall (fun i => lo <= i < hi) (dst_indices c) ->
  Forall (fun i => lo <= i < hi) (dst_indices (interior_loop' b turns c)).
Proof.
  induction turns as [|turns IH]; intros c Hlo Hhi Hl Hh Hc; [exact Hc|].
  cbn [interior_loop].
  apply IH; try assumption;
    unfold interior_step; cbn [segment_index dst_indices]; try lia.
  apply Forall_app; split; [exact Hc|].
  apply Forall_quad_indices; lia.
Qed.

Lemma draw_spine_indices n s b :
  2 <= n < UINT16_MOD -> 0 <= b ->
  b + spine_vertices closed n <= UINT32_MOD ->
  Forall (fun i => b <= i < b + spine_vertices closed n)
         (sp_indices (draw_spine' n s b)).
Proof.
  intros Hn Hb Hfit.
  unfold draw_spine.
  match goal with
  | |- context [interior_loop' b ?t ?c] =>
      destruct (interior_loop_sizes b t c) as (_ & Hi & _);
      pose proof (interior_loop_indices b b (b + spine_vertices closed n) t c) as Hx;
      set (c1 := interior_loop' b t c) in *
  end.
  cbn [segment_index dst_indices] in Hi, Hx.
  rewrite Z2Nat.id in * by lia.
  assert (Hfit' : 2 * n <= spine_vertices closed n)
    by (unfold spine_vertices; destruct closed; lia).
  specialize (Hx Hb Hfit ltac:(lia) ltac:(lia) (Forall_nil _)).
  revert Hfit Hx. unfold spine_vertices, to_uint16, UINT16_MOD in *.
  destruct closed; intros Hfit Hx; cbn [sp_indices dst_indices segment_index].
  - rewrite Z.mod_small by lia.
    repeat (apply Forall_app; split); try exact Hx;
      apply Forall_quad_indices; lia.
  - apply Forall_app; split; [exact Hx|].
    apply Forall_quad_indices; lia.
Qed.

Lemma draw_spines_indices lens : forall s b,
  Forall (fun n => 1 < n < UINT16_MOD) lens ->
  0 <= b -> b + total_vertices closed lens < UINT32_MOD ->
  Forall (fun i => b <= i < b + total_vertices closed lens)
         (sp_indices (draw_spines' lens s b)).
Proof.
  unfold total_vertices.
  induction lens as [|n rest IH]; intros s b Hall Hb Hfit; [constructor|].
  inversion Hall as [|? ? Hn Hrest]; subst.
  cbn [draw_spines sp_indices map Zsum] in *.
  assert (H1 : Forall (fun n => 1 < n) rest)
    by (eapply Forall_impl; [|exact Hrest]; cbn; intros; lia).
  pose proof (totals_bounds rest H1) as Hb'. unfold total_vertices in Hb'.
  pose proof (spine_vertices_pos n ltac:(lia)) as Hsv.
  apply Forall_app; split.
  - eapply Forall_impl; [|apply draw_spine_indices; lia].
    cbn; intros; lia.
  - unfold next_base_index.
    replace (n * 2 + (if closed then 2 else 0)) with (spine_vertices closed n)
      by (unfold spine_vertices; destruct closed; lia).
    rewrite to_uint32_small by lia.
    eapply Forall_impl; [|apply IH; try assumption; lia].
    cbn; intros; lia.
Qed.

(* ------------------------------------------------------------------ *)
(** *** Wireframe: every 4-tuple ends with its first index *)

Lemma closed_tuples_app l1 l2 :
  closed_tuples l1 -> closed_tuples l2 -> closed_tuples (l1 ++ l2).
Proof.
  induction 1; intros; cbn [app]; [assumption|constructor; auto].
Qed.

Lemma closed_tuples_nth l d :
  closed_tuples l ->
  forall k, (4 * k + 3 < length l)%nat -> nth (4 * k + 3) l d = nth (4 * k) l d.
Proof.
  induction 1 as [|a b c rest _ IH]; intros k Hk; cbn [length] in Hk; [lia|].
  destruct k as [|k]; [reflexivity|].
  replace (4 * S k + 3)%nat with (S (S (S (S (4 * k + 3))))) by lia.
  replace (4 * S k)%nat with (S (S (S (S (4 * k))))) by lia.
  cbn [nth]. apply IH; lia.
Qed.

Lemma closed_tuples_quad b s : wireframe = true -> closed_tuples (quad' b s).
Proof.
  intros Hw; unfold quad_indices; rewrite Hw; repeat constructor.
Qed.

Lemma interior_loop_tuples b turns : forall c,
  wireframe = true ->
  closed_tuples (dst_indices c) ->
  closed_tuples (dst_indices (interior_loop' b turns c)).
Proof.
  induction turns as [|turns IH]; intros c Hw Hc; [exact Hc|].
  cbn [interior_loop]. apply IH; [exact Hw|].
  unfold interior_step; cbn [dst_indices].
  auto using closed_tuples_app, closed_tuples_quad.
Qed.

Lemma draw_spine_tuples n s b :
  wireframe = true -> closed_tuples (sp_indices (draw_spine' n s b)).
Proof.
  intros Hw; unfold draw_spine.
  destruct closed; cbn [sp_indices dst_indices];
    repeat apply closed_tuples_app;
    auto using closed_tuples_quad, interior_loop_tuples, closed_tuples_nil.
Qed.

Lemma draw_spines_tuples lens : forall s b,
  wireframe = true -> closed_tuples (sp_indices (draw_spines' lens s b)).
Proof.
  induction lens as [|n rest IH]; intros s b Hw; cbn [draw_spines sp_indices].
  - constructor.
  - auto using closed_tuples_app, draw_spine_tuples.
Qed.

(* ------------------------------------------------------------------ *)
(** *** Where one spine writes its boundary vertices *)

Lemma nth_block {A} (pre blk post : list A) (o j : Z) d :
  zlength pre = o -> 0 <= j < zlength blk ->
  nth (Z.to_nat (o + j)) (pre ++ blk ++ post) d = nth (Z.to_nat j) blk d.
Proof.
  unfold zlength; intros Ho Hj.
  rewrite app_nth2 by lia.
  replace (Z.to_nat (o + j) - length pre)%nat with (Z.to_nat j) by lia.
  apply app_nth1; lia.
Qed.

(** The interior loop appends to what the cursor has written. *)
Lemma interior_loop_appends b turns : forall c,
  exists ps anns,
    dst_positions (interior_loop' b turns c) = dst_positions c ++ ps /\
    dst_annotations (interior_loop' b turns c) = dst_annotations c ++ anns /\
    zlength ps = 2 * Z.of_nat turns /\
    zlength anns = 2 * Z.of_nat turns.
Proof.
  induction turns as [|turns IH]; intros c.
  - exists [], []. cbn [interior_loop]. rewrite !app_nil_r. now cbn.
  - cbn [interior_loop].
    destruct (IH (interior_step' b c)) as (ps & anns & Hp & Ha & Lp & La).
    unfold interior_step in Hp at 2; unfold interior_step in Ha at 2.
    cbn [dst_positions dst_annotations] in Hp, Ha.
    rewrite <- app_assoc in Hp, Ha.
    eexists; eexists; split; [exact Hp|split; [exact Ha|]].
    rewrite !zlength_app, Lp, La.
    unfold edge_pair, pair_annotations, zlength; cbn [length]. lia.
Qed.

Lemma interior_loop_normal b turns : forall c,
  normal_of_previous_segment vertices c ->
  normal_of_previous_segment vertices (interior_loop' b turns c).
Proof.
  induction turns as [|turns IH]; intros c Hc; [exact Hc|].
  cbn [interior_loop]. apply IH.
  unfold normal_of_previous_segment, interior_step; cbn [pnx pny src_position].
  replace (src_position c + 1 - 1) with (src_position c) by lia.
  split; reflexivity.
Qed.

(** The first pair of a spine, and the last pair written for it. *)
Lemma draw_spine_positions n s b :
  2 <= n ->
  let p0 := src vertices s in
  let p1 := src vertices (s + 1) in
  let pm := src vertices (s + n - 2) in
  let pl := src vertices (s + n - 1) in
  let first_pair :=
    edge_pair p0
      (if closed
       then miter thickness (seg_nx pl p0) (seg_ny pl p0) (seg_nx p0 p1) (seg_ny p0 p1)
       else (butt thickness (seg_nx p0 p1), butt thickness (seg_ny p0 p1))) in
  exists body,
    sp_positions (draw_spine' n s b) =
      first_pair ++ body ++
      (if closed then first_pair
       else edge_pair pl (butt thickness (seg_nx pm pl), butt thickness (seg_ny pm pl))) /\
    zlength body = if closed then 2 * n - 2 else 2 * n - 4.
Proof.
  intros Hn; cbn zeta. unfold draw_spine.
  replace (s + (n - 1)) with (s + n - 1) by lia.
  match goal with
  | |- context [interior_loop' b ?t ?c] =>
      destruct (interior_loop_sizes b t c) as (Hs & _);
      destruct (interior_loop_appends b t c) as (ps & anns & Hp & _ & Lp & _);
      pose proof (interior_loop_normal b t c) as Hnormal;
      set (c1 := interior_loop' b t c) in *
  end.
  cbn [src_position dst_positions] in Hs, Hp.
  rewrite Z2Nat.id in * by lia.
  destruct closed; cbn [sp_positions dst_positions]; rewrite Hp.
  - match goal with
    | |- context [(_ ++ ps) ++ ?e] => exists (ps ++ e)
    end.
    rewrite <- !app_assoc. split; [reflexivity|].
    rewrite zlength_app, Lp. unfold edge_pair, zlength; cbn [length]. lia.
  - destruct Hnormal as [Hx Hy].
    { unfold normal_of_previous_segment; cbn [pnx pny src_position].
      replace (s + 1 - 1) with s by lia. split; reflexivity. }
    rewrite Hx, Hy, Hs.
    replace (s + 1 + (n - 2) - 1) with (s + n - 2) by lia.
    replace (s + 1 + (n - 2)) with (s + n - 1) by lia.
    exists ps. rewrite <- !app_assoc. split; [reflexivity|lia].
Qed.

(** The block of spine [k] inside what all the spines write. *)
Lemma draw_spines_block lens : forall k s b,
  Forall (fun n => 1 < n) lens -> (k < length lens)%nat ->
  exists b' pre_p post_p pre_a post_a,
    let blk := draw_spine' (nth k lens 0) (s + Zsum (firstn k lens)) b' in
    sp_positions (draw_spines' lens s b) = pre_p ++ sp_positions blk ++ post_p /\
    zlength pre_p = total_vertices closed (firstn k lens) /\
    sp_annotations (draw_spines' lens s b) = pre_a ++ sp_annotations blk ++ post_a /\
    zlength pre_a = total_vertices closed (firstn k lens).
Proof.
  unfold total_vertices.
  induction lens as [|n rest IH]; intros k s b Hall Hk; [cbn in Hk; lia|].
  inversion Hall as [|? ? Hn Hrest]; subst.
  destruct k as [|k].
  - exists b, [], (sp_positions (draw_spines' rest (sp_src_position (draw_spine' n s b))
                                  (next_base_index closed b n))),
      [], (sp_annotations (draw_spines' rest (sp_src_position (draw_spine' n s b))
                                  (next_base_index closed b n))).
    cbn [firstn Zsum map nth app draw_spines sp_positions sp_annotations].
    rewrite Z.add_0_r. repeat split; reflexivity.
  - cbn [length] in Hk.
    destruct (draw_spine_sizes n s b ltac:(lia)) as (Hs & Hp & Ha & _).
    destruct (IH k (sp_src_position (draw_spine' n s b))
                 (next_base_index closed b n) Hrest ltac:(lia))
      as (b' & pre_p & post_p & pre_a & post_a & Ep & Lp & Ea & La).
    cbn zeta in Ep, Ea. rewrite Hs in Ep, Ea.
    exists b', (sp_positions (draw_spine' n s b) ++ pre_p), post_p,
      (sp_annotations (draw_spine' n s b) ++ pre_a), post_a.
    cbn [firstn Zsum map nth draw_spines sp_positions sp_annotations].
    rewrite ?Hs, Ep, Ea, !zlength_app, Hp, Ha, Lp, La, <- !app_assoc, Z.add_assoc.
    repeat split; reflexivity.
Qed.
End SpineFacts.

(* ================================================================== *)
(** ** The outcome of par_streamlines_draw_lines *)

Lemma map_nth_seq_id {A} (d : A) (l : list A) :
  map (fun i => nth i l d) (seq 0 (length l)) = l.
Proof.
  induction l as [|a l IH]; [reflexivity|].
  cbn [length seq map nth]. f_equal.
  rewrite <- seq_shift, map_map. exact IH.
Qed.

Lemma read_spine_lengths_table spines :
  zlength (spine_lengths spines) = num_spines spines ->
  read_spine_lengths spines = spine_lengths spines.
Proof.
  unfold read_spine_lengths, zlength; intros <-.
  rewrite Nat2Z.id. apply map_nth_seq_id.
Qed.

Lemma mesh_sizing_some closed lens : forall nv nt p,
  mesh_sizing closed lens nv nt = Some p -> Forall (fun n => 1 < n) lens.
Proof.
  induction lens as [|n rest IH]; intros nv nt p H; [constructor|].
  cbn [mesh_sizing] in H.
  destruct (1 <? n) eqn:Hn; [|discriminate].
  apply Z.ltb_lt in Hn. constructor; [exact Hn|].
  destruct closed; eapply IH; exact H.
Qed.

Lemma Forall_length_range (lens : list Z) :
  Forall (fun n => 1 < n) lens ->
  Forall (fun n => 0 <= n < UINT16_MOD) lens ->
  Forall (fun n => 1 < n < UINT16_MOD) lens.
Proof.
  induction 1; intros H'; inversion H'; subst; constructor; auto; lia.
Qed.

Section Outcome.
Context {libm : Libm}.
Variable context : par_streamlines_context.
Variable spines : par_streamlines_spine_list.
Hypothesis Hwf : well_formed spines.

Let lens := spine_lengths spines.
Let tv := total_vertices (closed spines) lens.
Let tt := total_triangles (closed spines) lens.
Let ipt := ind_per_tri (wireframe (config context)).

(** The function in terms of the totals, when no spine is too short. *)
Lemma draw_lines_checks :
  Forall (fun n => 1 < n) lens ->
  par_streamlines_draw_lines context spines =
    if negb (Zsum lens =? spines_num_vertices spines)
    then Aborted assert_src_position
    else if negb (tv =? to_uint32 tv)
    then Aborted assert_dst_annotations
    else if negb (tv =? to_uint32 tv)
    then Aborted assert_dst_positions
    else if negb (ipt * tt =? to_uint32 (to_uint32 tt * ipt))
    then Aborted assert_dst_indices
    else Returned
           {| num_vertices := to_uint32 tv;
              num_triangles := to_uint32 tt;
              vertex_positions := sp_positions (written context spines);
              vertex_annotations := sp_annotations (written context spines);
              vertex_lengths := sp_lengths (written context spines);
              triangle_indices := sp_indices (written context spines) |}.
Proof.
  intros Hall. subst lens tv tt ipt.
  destruct Hwf as (_ & _ & _ & Htable & _).
  unfold par_streamlines_draw_lines, written.
  rewrite (read_spine_lengths_table _ Htable).
  rewrite (mesh_sizing_total _ _ 0 0 Hall) by (unfold UINT32_MOD; lia).
  rewrite !Z.add_0_l.
  match goal with
  | |- context [draw_spines ?t ?c ?w ?u ?v ?l 0 0] =>
      destruct (draw_spines_sizes t c w u v l 0 0 Hall) as (Hs & Hp & Ha & Hx)
  end.
  rewrite Hs, Hp, Ha, Hx, Z.add_0_l. reflexivity.
Qed.

(** What a returned mesh tells about the input and about itself. *)
Lemma draw_lines_returned mesh :
  par_streamlines_draw_lines context spines = Returned mesh ->
  Forall (fun n => 1 < n < UINT16_MOD) lens /\
  Zsum lens = spines_num_vertices spines /\
  tv < UINT32_MOD /\
  ipt * tt < UINT32_MOD /\
  mesh =
    {| num_vertices := tv;
       num_triangles := tt;
       vertex_positions := sp_positions (written context spines);
       vertex_annotations := sp_annotations (written context spines);
       vertex_lengths := sp_lengths (written context spines);
       triangle_indices := sp_indices (written context spines) |}.
Proof.
  intros Hret.
  assert (Hall : Forall (fun n => 1 < n) lens).
  { subst lens. destruct Hwf as (_ & _ & _ & Htable & _).
    unfold par_streamlines_draw_lines in Hret.
    rewrite (read_spine_lengths_table _ Htable) in Hret.
    destruct (mesh_sizing _ _ 0 0) as [p|] eqn:Hsz; [|discriminate].
    eapply mesh_sizing_some; exact Hsz. }
  rewrite (draw_lines_checks Hall) in Hret.
  pose proof (totals_bounds (closed spines) lens Hall) as Hb. fold tv tt in Hb.
  destruct (Zsum lens =? _) eqn:H1; cbn [negb] in Hret; [|discriminate].
  destruct (tv =? to_uint32 tv) eqn:H2; cbn [negb] in Hret; [|discriminate].
  destruct (ipt * tt =? _) eqn:H3; cbn [negb] in Hret; [|discriminate].
  apply Z.eqb_eq in H1, H2, H3.
  pose proof (to_uint32_range tv) as Hr.
  assert (Htv : tv < UINT32_MOD) by lia.
  rewrite (to_uint32_small tt) in H3 by lia.
  pose proof (to_uint32_range (tt * ipt)) as Hr'.
  rewrite <- H2, (to_uint32_small tt) in Hret by lia.
  inversion Hret; subst mesh.
  repeat split; try assumption; try lia.
  apply Forall_length_range; [exact Hall|]. apply Hwf.
Qed.

(** Valid input whose totals fit in 32 bits passes every assertion. *)
Lemma draw_lines_returns :
  Forall (fun n => 1 < n) lens ->
  Zsum lens = spines_num_vertices spines ->
  tv < UINT32_MOD ->
  ipt * tt < UINT32_MOD ->
  par_streamlines_draw_lines context spines =
    Returned
      {| num_vertices := tv;
         num_triangles := tt;
         vertex_positions := sp_positions (written context spines);
         vertex_annotations := sp_annotations (written context spines);
         vertex_lengths := sp_lengths (written context spines);
         triangle_indices := sp_indices (written context spines) |}.
Proof.
  intros Hall Hsum Htv Htt.
  rewrite (draw_lines_checks Hall).
  pose proof (totals_bounds (closed spines) lens Hall) as Hb. fold tv tt in Hb.
  assert (Hipt : 3 <= ipt <= 4)
    by (subst ipt; unfold ind_per_tri; destruct (wireframe _); lia).
  rewrite (to_uint32_small tv), (to_uint32_small tt) by lia.
  rewrite (Z.mul_comm tt ipt), (to_uint32_small (ipt * tt)) by nia.
  rewrite Hsum, !Z.eqb_refl. reflexivity.
Qed.
End Outcome.

(* ================================================================== *)
(** ** Counts, index buffer and assertions *)

(** The sizes of a returned mesh, in terms of the totals. *)
Lemma returned_mesh_sizes {libm : Libm} context spines mesh :
  valid_spine_list spines ->
  par_streamlines_draw_lines context spines = Returned mesh ->
  let tv := total_vertices (closed spines) (spine_lengths spines) in
  let tt := total_triangles (closed spines) (spine_lengths spines) in
  num_vertices mesh = tv /\
  num_triangles mesh = tt /\
  zlength (vertex_positions mesh) = tv /\
  zlength (vertex_annotations mesh) = tv /\
  zlength (triangle_indices mesh) = ind_per_tri (wireframe (config context)) * tt.
Proof.
  intros (Hwf & Hall & Hsum) Hret; cbn zeta.
  destruct (draw_lines_returned context spines Hwf mesh Hret)
    as (_ & _ & _ & _ & ->).
  cbn [num_vertices num_triangles vertex_positions vertex_annotations
       triangle_indices].
  unfold written.
  match goal with
  | |- context [draw_spines ?t ?c ?w ?u ?v ?l 0 0] =>
      destruct (draw_spines_sizes t c w u v l 0 0 Hall) as (_ & Hp & Ha & Hx)
  end.
  rewrite Hp, Ha, Hx. repeat split; reflexivity.
Qed.

Lemma header_spines_valid : valid_spine_list header_spines.
Proof.
  unfold valid_spine_list, well_formed, header_spines, one_spine, zlength,
    UINT16_MOD, UINT32_MOD; cbn.
  repeat split; try lia; repeat constructor; lia.
Qed.

Lemma two_spines_valid c : valid_spine_list (two_spines c).
Proof.
  unfold valid_spine_list, well_formed, two_spines, zlength,
    UINT16_MOD, UINT32_MOD; cbn.
  repeat split; try lia; repeat constructor; lia.
Qed.

(** C2. For every valid input, the mesh returned satisfies the invariant
    of the index buffer: every entry of [triangle_indices] is below
    [num_vertices], and the buffer holds [num_triangles] times
    [ind_per_tri] entries (3 per triangle, 4 in wireframe mode). *)
Theorem index_buffer_invariant {libm : Libm} context spines mesh :
  valid_spine_list spines ->
  par_streamlines_draw_lines context spines = Returned mesh ->
  Forall (fun i => 0 <= i < num_vertices mesh) (triangle_indices mesh) /\
  zlength (triangle_indices mesh) =
    num_triangles mesh * (if wireframe (config context) then 4 else 3).
Proof.
  intros (Hwf & Hall & Hsum) Hret.
  destruct (draw_lines_returned context spines Hwf mesh Hret)
    as (Hrange & _ & Htv & _ & ->).
  cbn [num_vertices num_triangles triangle_indices].
  unfold written. split.
  - eapply Forall_impl; [|apply draw_spines_indices; try eassumption; lia].
    cbn; intros; lia.
  - match goal with
    | |- context [draw_spines ?t ?c ?w ?u ?v ?l 0 0] =>
        destruct (draw_spines_sizes t c w u v l 0 0 Hall) as (_ & _ & _ & Hx)
    end.
    rewrite Hx. unfold ind_per_tri. lia.
Qed.

Lemma index_buffer_invariant_witness :
  let mesh :=
    mesh_of (par_streamlines_draw_lines (libm := ref_libm)
               (par_streamlines_create_context
                  (simple_config 3 true PAR_U_MODE_NORMALIZED_DISTANCE))
               (two_spines true)) in
  Forall (fun i => 0 <= i < 14) (triangle_indices mesh) /\
  zlength (triangle_indices mesh) = 10 * 4.
Proof.
  intros mesh.
  assert (Hret : par_streamlines_draw_lines (libm := ref_libm)
                   (par_streamlines_create_context
                      (simple_config 3 true PAR_U_MODE_NORMALIZED_DISTANCE))
                   (two_spines true)
                 = Returned mesh) by (vm_compute; reflexivity).
  exact (index_buffer_invariant _ _ mesh (two_spines_valid true) Hret).
Defined.

(** C10. For the same spine list, the index buffer of wireframe mode is
    4/3 as long as the one of filled mode (four indices per triangle
    instead of three, for the same number of triangles), and the fourth
    index of every 4-tuple is the first index of that tuple. *)
Theorem wireframe_index_buffer {libm : Libm} context_w context_f spines mesh_w mesh_f :
  valid_spine_list spines ->
  wireframe (config context_w) = true ->
  wireframe (config context_f) = false ->
  par_streamlines_draw_lines context_w spines = Returned mesh_w ->
  par_streamlines_draw_lines context_f spines = Returned mesh_f ->
  3 * zlength (triangle_indices mesh_w) = 4 * zlength (triangle_indices mesh_f) /\
  num_triangles mesh_w = num_triangles mesh_f /\
  zlength (triangle_indices mesh_w) = 4 * num_triangles mesh_w /\
  zlength (triangle_indices mesh_f) = 3 * num_triangles mesh_f /\
  forall t, 0 <= t < num_triangles mesh_w ->
    index_at mesh_w (4 * t + 3) = index_at mesh_w (4 * t).
Proof.
  intros Hvalid Hw Hf Hret_w Hret_f.
  destruct (returned_mesh_sizes context_w spines mesh_w Hvalid Hret_w)
    as (_ & Tw & _ & _ & Lw).
  destruct (returned_mesh_sizes context_f spines mesh_f Hvalid Hret_f)
    as (_ & Tf & _ & _ & Lf).
  rewrite Hw in Lw. rewrite Hf in Lf. unfold ind_per_tri in Lw, Lf.
  repeat split; try lia.
  intros t Ht. unfold index_at.
  destruct Hvalid as (Hwf & _).
  destruct (draw_lines_returned context_w spines Hwf mesh_w Hret_w)
    as (_ & _ & _ & _ & E).
  assert (Htuples : closed_tuples (triangle_indices mesh_w)).
  { rewrite E; cbn [triangle_indices]; unfold written.
    apply draw_spines_tuples; exact Hw. }
  replace (Z.to_nat (4 * t + 3)) with (4 * Z.to_nat t + 3)%nat by lia.
  replace (Z.to_nat (4 * t)) with (4 * Z.to_nat t)%nat by lia.
  apply closed_tuples_nth; [exact Htuples|].
  unfold zlength in Lw. lia.
Qed.

Lemma wireframe_index_buffer_witness :
  let mesh_w :=
    mesh_of (par_streamlines_draw_lines (libm := ref_libm)
               (par_streamlines_create_context
                  (simple_config 3 true PAR_U_MODE_NORMALIZED_DISTANCE))
               header_spines) in
  let mesh_f := mesh_of (par_streamlines_draw_lines (libm := ref_libm) header_context header_spines) in
  triangle_indices mesh_w = [0; 1; 2; 0; 2; 1; 3; 2; 2; 3; 4; 2; 4; 3; 5; 4] /\
  triangle_indices mesh_f = [0; 1; 2; 2; 1; 3; 2; 3; 4; 4; 3; 5] /\
  3 * zlength (triangle_indices mesh_w) = 4 * zlength (triangle_indices mesh_f) /\
  index_at mesh_w (4 * 2 + 3) = index_at mesh_w (4 * 2).
Proof.
  intros mesh_w mesh_f.
  assert (Hw : par_streamlines_draw_lines (libm := ref_libm)
                 (par_streamlines_create_context
                    (simple_config 3 true PAR_U_MODE_NORMALIZED_DISTANCE))
                 header_spines = Returned mesh_w) by (vm_compute; reflexivity).
  assert (Hf : par_streamlines_draw_lines (libm := ref_libm) header_context header_spines
               = Returned mesh_f) by (vm_compute; reflexivity).
  destruct (wireframe_index_buffer
              (par_streamlines_create_context
                 (simple_config 3 true PAR_U_MODE_NORMALIZED_DISTANCE))
              header_context header_spines mesh_w mesh_f header_spines_valid
              eq_refl eq_refl Hw Hf) as (H43 & _ & _ & _ & Hclose).
  split; [vm_compute; reflexivity|].
  split; [vm_compute; reflexivity|].
  split; [exact H43|].
  apply Hclose. vm_compute. split; [discriminate|reflexivity].
Defined.

(* ================================================================== *)
(** ** Seam closure and butt caps *)

Lemma nth_ends {A} (a0 a1 l0 l1 : A) (body : list A) (m : Z) d :
  zlength body = m ->
  let blk := [a0; a1] ++ body ++ [l0; l1] in
  zlength blk = m + 4 /\
  nth (Z.to_nat 0) blk d = a0 /\
  nth (Z.to_nat 1) blk d = a1 /\
  nth (Z.to_nat (m + 2)) blk d = l0 /\
  nth (Z.to_nat (m + 2 + 1)) blk d = l1.
Proof.
  unfold zlength; intros Hm; cbn zeta.
  split; [rewrite !length_app; cbn [length]; lia|].
  split; [reflexivity|]. split; [reflexivity|].
  change ([a0; a1] ++ body ++ [l0; l1]) with (a0 :: a1 :: body ++ [l0; l1]).
  replace (Z.to_nat (m + 2)) with (S (S (length body + 0))) by lia.
  replace (Z.to_nat (m + 2 + 1)) with (S (S (length body + 1))) by lia.
  cbn [nth]. rewrite !app_nth2_plus. split; reflexivity.
Qed.

(** The boundary vertices of spine [k], as one spine writes them. *)
Lemma spine_block_positions {libm : Libm} context spines mesh k :
  valid_spine_list spines ->
  par_streamlines_draw_lines context spines = Returned mesh ->
  (k < length (spine_lengths spines))%nat ->
  exists b,
    let blk :=
      sp_positions
        (draw_spine (thickness (config context)) (closed spines)
           (wireframe (config context)) (u_mode (config context))
           (vertices spines) (spine_length_of spines k)
           (first_vertex spines k) b) in
    forall j, 0 <= j < zlength blk ->
      position_at mesh (first_output spines k + j) = nth (Z.to_nat j) blk origin.
Proof.
  intros (Hwf & Hall & Hsum) Hret Hk.
  destruct (draw_lines_returned context spines Hwf mesh Hret)
    as (_ & _ & _ & _ & ->).
  unfold written, position_at; cbn [vertex_positions].
  destruct (draw_spines_block (thickness (config context)) (closed spines)
              (wireframe (config context)) (u_mode (config context))
              (vertices spines) (spine_lengths spines) k 0 0 Hall Hk)
    as (b & pre_p & post_p & _ & _ & Ep & Lp & _).
  cbn zeta in Ep. rewrite Z.add_0_l in Ep.
  exists b. cbn zeta. intros j Hj.
  unfold spine_length_of, first_vertex, first_output.
  rewrite Ep. apply nth_block; assumption.
Qed.

Lemma spine_length_of_valid spines k :
  valid_spine_list spines -> (k < length (spine_lengths spines))%nat ->
  2 <= spine_length_of spines k.
Proof.
  intros (_ & Hall & _) Hk. unfold spine_length_of.
  rewrite Forall_forall in Hall.
  specialize (Hall (nth k (spine_lengths spines) 0) (nth_In _ _ Hk)). lia.
Qed.

(** C7. For every closed spine, the duplicated pair of boundary vertices
    that is written after the last point of the spine is equal, in
    position, to the first pair of the spine. *)
Theorem seam_pair_positions {libm : Libm} context spines mesh k :
  valid_spine_list spines ->
  par_streamlines_draw_lines context spines = Returned mesh ->
  closed spines = true ->
  (k < length (spine_lengths spines))%nat ->
  let n := spine_length_of spines k in
  let o := first_output spines k in
  position_at mesh (o + 2 * n) = position_at mesh o /\
  position_at mesh (o + 2 * n + 1) = position_at mesh (o + 1).
Proof.
  intros Hvalid Hret Hclosed Hk; cbn zeta.
  pose proof (spine_length_of_valid spines k Hvalid Hk) as Hn.
  destruct (spine_block_positions context spines mesh k Hvalid Hret Hk)
    as (b & Hblk).
  cbn zeta in Hblk.
  destruct (draw_spine_positions (thickness (config context)) (closed spines)
              (wireframe (config context)) (u_mode (config context))
              (vertices spines) (spine_length_of spines k)
              (first_vertex spines k) b Hn) as (body & E & Lbody).
  cbn zeta in E. rewrite E in Hblk. rewrite Hclosed in Hblk, Lbody.
  cbv beta iota in Hblk, Lbody. unfold edge_pair in Hblk.
  match type of Hblk with
  | context [[?a0; ?a1] ++ body ++ [?l0; ?l1]] =>
      destruct (nth_ends a0 a1 l0 l1 body _ origin Lbody)
        as (L & N0 & N1 & N2 & N3)
  end.
  cbn zeta in L, N0, N1, N2, N3.
  replace (2 * spine_length_of spines k - 2 + 2)
    with (2 * spine_length_of spines k) in N2, N3 by lia.
  pose proof (Hblk 0 ltac:(lia)) as H0.
  pose proof (Hblk 1 ltac:(lia)) as H1.
  pose proof (Hblk (2 * spine_length_of spines k) ltac:(lia)) as H2.
  pose proof (Hblk (2 * spine_length_of spines k + 1) ltac:(lia)) as H3.
  rewrite Z.add_0_r in H0. rewrite Z.add_assoc in H3.
  rewrite H0, H1, H2, H3, N0, N1, N2, N3. split; reflexivity.
Qed.

Lemma two_spines_returned closed0 :
  par_streamlines_draw_lines (libm := ref_libm) header_context (two_spines closed0)
  = Returned (mesh_of (par_streamlines_draw_lines (libm := ref_libm)
                         header_context (two_spines closed0))).
Proof. destruct closed0; vm_compute; reflexivity. Qed.

Lemma seam_pair_positions_witness :
  let mesh := mesh_of (par_streamlines_draw_lines (libm := ref_libm)
                         header_context (two_spines true)) in
  position_at mesh (8 + 2 * 2) = position_at mesh 8 /\
  position_at mesh (8 + 2 * 2 + 1) = position_at mesh (8 + 1).
Proof.
  intros mesh.
  exact (seam_pair_positions header_context (two_spines true) mesh 1
           (two_spines_valid true) (two_spines_returned true) eq_refl
           (Nat.lt_succ_diag_r 1)).
Defined.

(** The two ends of an open spine, with the normals that the code
    computes for the first and for the last segment. *)
Lemma open_ends_positions {libm : Libm} context spines mesh k :
  valid_spine_list spines ->
  par_streamlines_draw_lines context spines = Returned mesh ->
  closed spines = false ->
  (k < length (spine_lengths spines))%nat ->
  let n := spine_length_of spines k in
  let o := first_output spines k in
  let v := first_vertex spines k in
  let t := thickness (config context) in
  let p0 := src (vertices spines) v in
  let p1 := src (vertices spines) (v + 1) in
  let pm := src (vertices spines) (v + n - 2) in
  let pl := src (vertices spines) (v + n - 1) in
  let ex0 := F32.div (F32.mul (seg_nx p0 p1) t) (F32.of_Z 2) in
  let ey0 := F32.div (F32.mul (seg_ny p0 p1) t) (F32.of_Z 2) in
  let exl := F32.div (F32.mul (seg_nx pm pl) t) (F32.of_Z 2) in
  let eyl := F32.div (F32.mul (seg_ny pm pl) t) (F32.of_Z 2) in
  position_at mesh o =
    {| x := F32.add (x p0) ex0; y := F32.add (y p0) ey0 |} /\
  position_at mesh (o + 1) =
    {| x := F32.sub (x p0) ex0; y := F32.sub (y p0) ey0 |} /\
  position_at mesh (o + 2 * (n - 1)) =
    {| x := F32.add (x pl) exl; y := F32.add (y pl) eyl |} /\
  position_at mesh (o + 2 * (n - 1) + 1) =
    {| x := F32.sub (x pl) exl; y := F32.sub (y pl) eyl |}.
Proof.
  intros Hvalid Hret Hclosed Hk; cbn zeta.
  pose proof (spine_length_of_valid spines k Hvalid Hk) as Hn.
  destruct (spine_block_positions context spines mesh k Hvalid Hret Hk)
    as (b & Hblk).
  cbn zeta in Hblk.
  destruct (draw_spine_positions (thickness (config context)) (closed spines)
              (wireframe (config context)) (u_mode (config context))
              (vertices spines) (spine_length_of spines k)
              (first_vertex spines k) b Hn) as (body & E & Lbody).
  cbn zeta in E. rewrite E in Hblk. rewrite Hclosed in Hblk, Lbody.
  cbv beta iota in Hblk, Lbody.
  unfold edge_pair, butt in Hblk; cbn [fst snd] in Hblk.
  match type of Hblk with
  | context [[?a0; ?a1] ++ body ++ [?l0; ?l1]] =>
      destruct (nth_ends a0 a1 l0 l1 body _ origin Lbody)
        as (L & N0 & N1 & N2 & N3)
  end.
  cbn zeta in L, N0, N1, N2, N3.
  replace (2 * spine_length_of spines k - 4 + 2)
    with (2 * (spine_length_of spines k - 1)) in N2, N3 by lia.
  pose proof (Hblk 0 ltac:(lia)) as H0.
  pose proof (Hblk 1 ltac:(lia)) as H1.
  pose proof (Hblk (2 * (spine_length_of spines k - 1)) ltac:(lia)) as H2.
  pose proof (Hblk (2 * (spine_length_of spines k - 1) + 1) ltac:(lia)) as H3.
  rewrite Z.add_0_r in H0. rewrite Z.add_assoc in H3.
  rewrite H0, H1, H2, H3, N0, N1, N2, N3. repeat split; reflexivity.
Qed.

(** C8, as the code has it.  For every open spine, the pair of boundary
    vertices at the first point is the point plus and minus the
    [cap_offset] of the first segment, and the pair at the last point is
    the point plus and minus the [cap_offset] of the last segment: butt
    caps, without a miter.  The offset is computed in [float] from the
    differences of the coordinates. *)
Theorem butt_caps {libm : Libm} context spines mesh k :
  valid_spine_list spines ->
  par_streamlines_draw_lines context spines = Returned mesh ->
  closed spines = false ->
  (k < length (spine_lengths spines))%nat ->
  let n := spine_length_of spines k in
  let o := first_output spines k in
  let v := first_vertex spines k in
  let t := thickness (config context) in
  let p0 := src (vertices spines) v in
  let p1 := src (vertices spines) (v + 1) in
  let pm := src (vertices spines) (v + n - 2) in
  let pl := src (vertices spines) (v + n - 1) in
  let first_cap := cap_offset t p0 p1 in
  let last_cap := cap_offset t pm pl in
  position_at mesh o =
    {| x := F32.add (x p0) (fst first_cap); y := F32.add (y p0) (snd first_cap) |} /\
  position_at mesh (o + 1) =
    {| x := F32.sub (x p0) (fst first_cap); y := F32.sub (y p0) (snd first_cap) |} /\
  position_at mesh (o + 2 * (n - 1)) =
    {| x := F32.add (x pl) (fst last_cap); y := F32.add (y pl) (snd last_cap) |} /\
  position_at mesh (o + 2 * (n - 1) + 1) =
    {| x := F32.sub (x pl) (fst last_cap); y := F32.sub (y pl) (snd last_cap) |}.
Proof.
  intros Hvalid Hret Hclosed Hk.
  exact (open_ends_positions context spines mesh k Hvalid Hret Hclosed Hk).
Qed.

Lemma butt_caps_witness :
  let mesh := mesh_of (par_streamlines_draw_lines (libm := ref_libm)
                         header_context (two_spines false)) in
  let half_of n := F32.div (F32.of_Z n) (F32.of_Z 2) in
  position_at mesh 6 = {| x := F32.of_Z 0; y := half_of 13 |} /\
  position_at mesh (6 + 1) = {| x := F32.of_Z 0; y := half_of 7 |} /\
  position_at mesh (6 + 2 * (2 - 1)) = {| x := F32.of_Z 3; y := half_of 13 |} /\
  position_at mesh (6 + 2 * (2 - 1) + 1) = {| x := F32.of_Z 3; y := half_of 7 |}.
Proof.
  intros mesh half_of.
  destruct (butt_caps (libm := ref_libm) header_context (two_spines false) mesh 1
              (two_spines_valid false) (two_spines_returned false) eq_refl
              (Nat.lt_succ_diag_r 1)) as (H0 & H1 & H2 & H3).
  split; [|split; [|split]];
    [refine (eq_trans H0 _)|refine (eq_trans H1 _)
    |refine (eq_trans H2 _)|refine (eq_trans H3 _)];
    vm_compute; reflexivity.
Defined.

Lemma far_spine_valid : valid_spine_list (one_spine far_spine false).
Proof.
  unfold valid_spine_list, well_formed, one_spine, far_spine, zlength,
    UINT16_MOD, UINT32_MOD; cbn [num_spines spines_num_vertices spine_lengths
    vertices length Z.of_nat Pos.of_succ_nat Pos.succ Zsum].
  repeat split; try lia; repeat constructor; lia.
Qed.

(** C8 as stated fails: on the open spine (0, 0), (2^100, 0), (2^100, 5),
    with thickness 3, the square of the length of the first segment
    overflows, [len] is infinite and the offset is zero: both boundary
    vertices of the first point lie on the point, where the unit normal
    times thickness / 2 is (0, 1.5). *)
Lemma far_spine_flat :
  let mesh := mesh_of (par_streamlines_draw_lines (libm := ref_libm)
                         header_context (one_spine far_spine false)) in
  valid_spine_list (one_spine far_spine false) /\
  par_streamlines_draw_lines (libm := ref_libm) header_context
    (one_spine far_spine false) = Returned mesh /\
  position_at mesh 0 = point 0 0 /\
  position_at mesh 1 = point 0 0.
Proof.
  intros mesh. split; [exact far_spine_valid|].
  split; [|split]; vm_compute; reflexivity.
Qed.

(* ================================================================== *)
(** ** The second pass over [u_along_curve] *)

Lemma fixup_loop_pair f turns : forall i0 anns j d,
  (j < turns)%nat -> (2 * j + 1 < length anns)%nat ->
  u_along_curve (nth (2 * j) (fixup_loop f turns i0 anns) d) =
    f (i0 + Z.of_nat j) (u_along_curve (nth (2 * j) anns d)) /\
  u_along_curve (nth (2 * j + 1) (fixup_loop f turns i0 anns) d) =
    f (i0 + Z.of_nat j) (u_along_curve (nth (2 * j + 1) anns d)).
Proof.
  induction turns as [|turns IH]; intros i0 anns j d Hj Hlen; [lia|].
  destruct anns as [|a0 [|a1 rest]]; cbn [length] in Hlen; try lia.
  cbn [fixup_loop].
  destruct j as [|j].
  - cbn [nth Nat.mul Nat.add set_u u_along_curve]. rewrite Z.add_0_r.
    split; reflexivity.
  - replace (2 * S j)%nat with (S (S (2 * j))) by lia.
    replace (S (S (2 * j)) + 1)%nat with (S (S (2 * j + 1))) by lia.
    cbn [nth].
    replace (i0 + Z.of_nat (S j)) with (i0 + 1 + Z.of_nat j) by lia.
    apply IH; lia.
Qed.

(** When the rewound window is the whole list, every pair is rewritten. *)
Lemma rewind_and_fix_pair f nverts anns i d :
  zlength anns = 2 * nverts -> 0 <= i < nverts ->
  u_along_curve (nth (Z.to_nat (2 * i)) (rewind_and_fix f nverts anns) d) =
    f i (u_along_curve (nth (Z.to_nat (2 * i)) anns d)) /\
  u_along_curve (nth (Z.to_nat (2 * i + 1)) (rewind_and_fix f nverts anns) d) =
    f i (u_along_curve (nth (Z.to_nat (2 * i + 1)) anns d)).
Proof.
  unfold zlength, rewind_and_fix; intros Hlen Hi.
  replace (length anns - Z.to_nat (nverts * 2))%nat with 0%nat by lia.
  cbn [firstn skipn app].
  replace (Z.to_nat (2 * i)) with (2 * Z.to_nat i)%nat by lia.
  replace (Z.to_nat (2 * i + 1)) with (2 * Z.to_nat i + 1)%nat by lia.
  destruct (fixup_loop_pair f (Z.to_nat nverts) 0 anns (Z.to_nat i) d)
    as (H0 & H1); try lia.
  rewrite Z.add_0_l, Z2Nat.id in H0, H1 by lia.
  split; assumption.
Qed.

(** The annotations of one spine: the second pass over what was written. *)
Lemma draw_spine_annotations {libm : Libm} thickness closed wireframe u_mode vertices n s b :
  2 <= n ->
  exists raw invlength,
    sp_annotations (draw_spine thickness closed wireframe u_mode vertices n s b) =
      fix_up_u u_mode (to_uint16 (n + (if closed then 1 else 0))) invlength
        (F32.div (F32.of_Z 1) (F32.of_Z n)) raw /\
    zlength raw = spine_vertices closed n.
Proof.
  intros Hn. unfold draw_spine. cbn [sp_annotations].
  eexists; eexists; split; [reflexivity|].
  match goal with
  | |- context [interior_loop ?t ?w ?v b ?turns ?c] =>
      destruct (interior_loop_sizes t w v b turns c) as (_ & _ & _ & Ha & _)
  end.
  cbn [dst_annotations] in Ha. rewrite Z2Nat.id in Ha by lia.
  unfold spine_vertices.
  destruct closed; cbn [dst_annotations]; rewrite ?zlength_app, Ha;
    unfold pair_annotations, zlength; cbn [length]; lia.
Qed.

(** The annotations of spine [k], as one spine writes them. *)
Lemma spine_block_annotations {libm : Libm} context spines mesh k :
  valid_spine_list spines ->
  par_streamlines_draw_lines context spines = Returned mesh ->
  (k < length (spine_lengths spines))%nat ->
  exists b,
    let blk :=
      sp_annotations
        (draw_spine (thickness (config context)) (closed spines)
           (wireframe (config context)) (u_mode (config context))
           (vertices spines) (spine_length_of spines k)
           (first_vertex spines k) b) in
    forall j, 0 <= j < zlength blk ->
      annotation_at mesh (first_output spines k + j) =
        nth (Z.to_nat j) blk no_annotation.
Proof.
  intros (Hwf & Hall & Hsum) Hret Hk.
  destruct (draw_lines_returned context spines Hwf mesh Hret)
    as (_ & _ & _ & _ & ->).
  unfold written, annotation_at; cbn [vertex_annotations].
  destruct (draw_spines_block (thickness (config context)) (closed spines)
              (wireframe (config context)) (u_mode (config context))
              (vertices spines) (spine_lengths spines) k 0 0 Hall Hk)
    as (b & _ & _ & pre_a & post_a & _ & _ & Ea & La).
  cbn zeta in Ea. rewrite Z.add_0_l in Ea.
  exists b. cbn zeta. intros j Hj.
  unfold spine_length_of, first_vertex, first_output.
  rewrite Ea. apply nth_block; assumption.
Qed.

(** C6, as the code has it.  In SEGMENT_FRACTION mode, for every spine
    whose number of vertex pairs fits in [uint16_t], the pair at index [i]
    of the spine carries the [float] product of [1.0f / spine_length] and
    [i]; for an open spine of [n] points the last pair, at index [n - 1],
    carries [(1.0f / n) * (n - 1)]. *)
Theorem segment_fraction_u {libm : Libm} context spines mesh k i :
  valid_spine_list spines ->
  par_streamlines_draw_lines context spines = Returned mesh ->
  u_mode (config context) = PAR_U_MODE_SEGMENT_FRACTION ->
  (k < length (spine_lengths spines))%nat ->
  let n := spine_length_of spines k in
  let o := first_output spines k in
  let pairs := n + (if closed spines then 1 else 0) in
  let invcount := F32.div (F32.of_Z 1) (F32.of_Z n) in
  pairs < UINT16_MOD ->
  0 <= i < pairs ->
  u_along_curve (annotation_at mesh (o + 2 * i)) = F32.mul invcount (F32.of_Z i) /\
  u_along_curve (annotation_at mesh (o + 2 * i + 1)) = F32.mul invcount (F32.of_Z i).
Proof.
  intros Hvalid Hret Hmode Hk; cbn zeta; intros Hfit Hi.
  pose proof (spine_length_of_valid spines k Hvalid Hk) as Hn.
  destruct (spine_block_annotations context spines mesh k Hvalid Hret Hk)
    as (b & Hblk).
  cbn zeta in Hblk.
  destruct (draw_spine_annotations (thickness (config context)) (closed spines)
              (wireframe (config context)) (u_mode (config context))
              (vertices spines) (spine_length_of spines k)
              (first_vertex spines k) b Hn) as (raw & invlength & E & Lraw).
  rewrite E in Hblk. clear E.
  assert (Hpairs : spine_vertices (closed spines) (spine_length_of spines k) =
                   2 * (spine_length_of spines k + (if closed spines then 1 else 0)))
    by (unfold spine_vertices; destruct (closed spines); lia).
  rewrite Hpairs in Lraw.
  unfold to_uint16 in Hblk. rewrite Z.mod_small in Hblk by (destruct (closed spines); lia).
  rewrite Hmode in Hblk. unfold fix_up_u in Hblk.
  assert (Lfixed : zlength (rewind_and_fix
             (fun i _ => F32.mul (F32.div (F32.of_Z 1) (F32.of_Z (spine_length_of spines k)))
                                 (F32.of_Z i))
             (spine_length_of spines k + (if closed spines then 1 else 0)) raw)
           = 2 * (spine_length_of spines k + (if closed spines then 1 else 0)))
    by (unfold zlength; rewrite length_rewind_and_fix; exact Lraw).
  rewrite Lfixed in Hblk.
  rewrite <- Z.add_assoc.
  rewrite (Hblk (2 * i)), (Hblk (2 * i + 1)) by lia.
  match goal with
  | |- context [rewind_and_fix ?f _ _] =>
      exact (rewind_and_fix_pair f _ raw i no_annotation Lraw Hi)
  end.
Qed.

Lemma six_points_valid c : valid_spine_list (one_spine six_points c).
Proof.
  unfold valid_spine_list, well_formed, one_spine, six_points, zlength,
    UINT16_MOD, UINT32_MOD; cbn.
  repeat split; try lia; repeat constructor; lia.
Qed.

Lemma segment_fraction_u_witness :
  let mesh :=
    mesh_of (par_streamlines_draw_lines (libm := ref_libm)
               (par_streamlines_create_context
                  (simple_config 1 false PAR_U_MODE_SEGMENT_FRACTION))
               (one_spine six_points false)) in
  u_along_curve (annotation_at mesh (0 + 2 * 5)) =
    F32.mul (F32.div (F32.of_Z 1) (F32.of_Z 6)) (F32.of_Z 5) /\
  u_along_curve (annotation_at mesh (0 + 2 * 5 + 1)) =
    F32.mul (F32.div (F32.of_Z 1) (F32.of_Z 6)) (F32.of_Z 5).
Proof.
  intros mesh.
  assert (Hret : par_streamlines_draw_lines (libm := ref_libm)
                   (par_streamlines_create_context
                      (simple_config 1 false PAR_U_MODE_SEGMENT_FRACTION))
                   (one_spine six_points false) = Returned mesh)
    by (vm_compute; reflexivity).
  refine (segment_fraction_u _ (one_spine six_points false) mesh 0 5
            (six_points_valid false) Hret eq_refl (Nat.lt_0_succ 0) _ _).
  - reflexivity.
  - split; [discriminate|reflexivity].
Defined.

(** C6 as stated fails: on six points in a line, open, the last pair has
    index 5 and carries [(1.0f / 6) * 5 = 13981014 * 2^-24], one unit in
    the last place above [5.0f / 6 = 13981013 * 2^-24], the [float]
    nearest to 5/6; and 6 * 13981014 is not 5 * 2^24. *)
Lemma segment_fraction_not_quotient :
  let mesh :=
    mesh_of (par_streamlines_draw_lines (libm := ref_libm)
               (par_streamlines_create_context
                  (simple_config 1 false PAR_U_MODE_SEGMENT_FRACTION))
               (one_spine six_points false)) in
  u_along_curve (annotation_at mesh 10) = S754_finite false 13981014 (-24) /\
  u_along_curve (annotation_at mesh 11) = S754_finite false 13981014 (-24) /\
  F32.div (F32.of_Z 5) (F32.of_Z 6) = S754_finite false 13981013 (-24) /\
  F32.eqb (u_along_curve (annotation_at mesh 10))
          (F32.div (F32.of_Z 5) (F32.of_Z 6)) = false /\
  (6 * 13981014 =? 5 * 2 ^ 24) = false.
Proof. vm_compute. repeat split; reflexivity. Qed.

(* ------------------------------------------------------------------ *)
(** *** The offset stored on the seam pair, for any libm *)

Lemma offsets_fixup_loop f turns : forall i anns,
  map spine_to_edge (fixup_loop f turns i anns) = map spine_to_edge anns.
Proof.
  induction turns as [|turns IH]; intros i anns; [reflexivity|].
  destruct anns as [|a0 [|a1 rest]]; cbn [fixup_loop map]; try reflexivity.
  rewrite IH. reflexivity.
Qed.

Lemma offsets_fix_up_u u_mode nverts invlength invcount anns :
  map spine_to_edge (fix_up_u u_mode nverts invlength invcount anns) =
  map spine_to_edge anns.
Proof.
  assert (H : forall f, map spine_to_edge (rewind_and_fix f nverts anns) =
                        map spine_to_edge anns).
  { intros f. unfold rewind_and_fix.
    rewrite map_app, offsets_fixup_loop, <- map_app, firstn_skipn. reflexivity. }
  unfold fix_up_u; destruct u_mode; auto.
Qed.

(** On a closed spine the annotations of the last point and of the seam
    pair are built from the same offset [e1]. *)
Lemma draw_spine_seam_offsets {libm : Libm} thickness wireframe u_mode vertices n s b :
  2 <= n ->
  exists head e1,
    map spine_to_edge
      (sp_annotations (draw_spine thickness true wireframe u_mode vertices n s b)) =
    head ++ [e1; (F32.neg (fst e1), F32.neg (snd e1));
             e1; (F32.neg (fst e1), F32.neg (snd e1))] /\
    zlength head = 2 * n - 2.
Proof.
  intros Hn. unfold draw_spine. cbn [sp_annotations dst_annotations].
  rewrite offsets_fix_up_u, !map_app.
  match goal with
  | |- context [interior_loop ?t ?w ?v b ?turns ?c] =>
      destruct (interior_loop_sizes t w v b turns c) as (_ & _ & _ & Ha & _);
      set (c1 := interior_loop t w v b turns c) in *
  end.
  cbn [dst_annotations] in Ha. rewrite Z2Nat.id in Ha by lia.
  eexists (map spine_to_edge (dst_annotations c1)), _.
  rewrite <- app_assoc. split.
  - unfold pair_annotations, spine_to_edge; cbn [map app spine_to_edge_x spine_to_edge_y].
    rewrite <- surjective_pairing. reflexivity.
  - unfold zlength in *. rewrite length_map.
    unfold pair_annotations in Ha; cbn [length] in Ha. lia.
Qed.

(** For every closed spine and every libm, the seam pair stores the
    [spine_to_edge] of the pair of the last point. *)
Lemma seam_offset_is_last_joint {libm : Libm} context spines mesh k :
  valid_spine_list spines ->
  par_streamlines_draw_lines context spines = Returned mesh ->
  closed spines = true ->
  (k < length (spine_lengths spines))%nat ->
  let n := spine_length_of spines k in
  let o := first_output spines k in
  spine_to_edge (annotation_at mesh (o + 2 * n)) =
    spine_to_edge (annotation_at mesh (o + 2 * (n - 1))) /\
  spine_to_edge (annotation_at mesh (o + 2 * n + 1)) =
    spine_to_edge (annotation_at mesh (o + 2 * (n - 1) + 1)).
Proof.
  intros Hvalid Hret Hclosed Hk; cbn zeta.
  pose proof (spine_length_of_valid spines k Hvalid Hk) as Hn.
  destruct (spine_block_annotations context spines mesh k Hvalid Hret Hk)
    as (b & Hblk).
  cbn zeta in Hblk. rewrite Hclosed in Hblk.
  destruct (draw_spine_seam_offsets (thickness (config context))
              (wireframe (config context)) (u_mode (config context))
              (vertices spines) (spine_length_of spines k)
              (first_vertex spines k) b Hn) as (head & e1 & E & Lhead).
  set (blk := sp_annotations _) in *.
  assert (Lblk : zlength blk = 2 * spine_length_of spines k + 2).
  { apply (f_equal (@length _)) in E.
    rewrite length_map, length_app in E. cbn [length] in E.
    unfold zlength in *. lia. }
  assert (Hnth : forall j, 0 <= j < 4 ->
            spine_to_edge (nth (Z.to_nat (2 * spine_length_of spines k - 2 + j))
                               blk no_annotation) =
            nth (Z.to_nat j)
                [e1; (F32.neg (fst e1), F32.neg (snd e1));
                 e1; (F32.neg (fst e1), F32.neg (snd e1))]
                (spine_to_edge no_annotation)).
  { intros j Hj.
    rewrite <- (map_nth spine_to_edge), E, app_nth2 by (unfold zlength in *; lia).
    f_equal. unfold zlength in *. lia. }
  rewrite <- !Z.add_assoc.
  rewrite !Hblk by lia.
  replace (2 * spine_length_of spines k)
    with (2 * spine_length_of spines k - 2 + 2) at 1 by lia.
  replace (2 * spine_length_of spines k + 1)
    with (2 * spine_length_of spines k - 2 + 3) by lia.
  replace (2 * (spine_length_of spines k - 1))
    with (2 * spine_length_of spines k - 2 + 0) by lia.
  replace (2 * spine_length_of spines k - 2 + 0 + 1)
    with (2 * spine_length_of spines k - 2 + 1) by lia.
  rewrite !Hnth by lia. split; reflexivity.
Qed.

(* ------------------------------------------------------------------ *)
(** *** The offset stored on the pairs of the points of a spine *)

Lemma pairs_agree_snoc vertices v ps es :
  pairs_agree vertices v ps es ->
  forall k e, zlength ps = 2 * k ->
  pairs_agree vertices v (ps ++ edge_pair (src vertices (v + k)) e)
              (es ++ [e; opposite e]).
Proof.
  induction 1 as [v|v e0 ps es _ IH]; intros k e Hlen.
  - assert (k = 0) by (unfold zlength in Hlen; cbn [length] in Hlen; lia). subst k.
    rewrite Z.add_0_r. cbn [app].
    rewrite <- (app_nil_r (edge_pair _ _)).
    constructor. constructor.
  - rewrite <- app_assoc. cbn [app].
    constructor.
    replace (v + k) with (v + 1 + (k - 1)) by lia.
    apply IH.
    rewrite zlength_app in Hlen. unfold edge_pair, zlength in *.
    cbn [length] in Hlen. lia.
Qed.

Lemma pairs_agree_length vertices v ps es :
  pairs_agree vertices v ps es -> zlength es = zlength ps.
Proof.
  induction 1 as [v|v e0 ps es _ IH]; [reflexivity|].
  rewrite zlength_app. unfold edge_pair, zlength in *. cbn [length]. lia.
Qed.

Lemma pairs_agree_nth vertices v ps es :
  pairs_agree vertices v ps es ->
  forall i d, (2 * i + 1 < length ps)%nat ->
  let e := nth (2 * i) es d in
  let p := src vertices (v + Z.of_nat i) in
  nth (2 * i) ps origin =
    {| x := F32.add (x p) (fst e); y := F32.add (y p) (snd e) |} /\
  nth (2 * i + 1) ps origin =
    {| x := F32.sub (x p) (fst e); y := F32.sub (y p) (snd e) |} /\
  nth (2 * i + 1) es d = opposite e.
Proof.
  induction 1 as [v|v e0 ps es _ IH]; intros i d Hi; cbn zeta.
  - cbn [length] in Hi. lia.
  - destruct i as [|i].
    + rewrite Z.add_0_r. cbn. repeat split; reflexivity.
    + replace (2 * S i)%nat with (S (S (2 * i))) by lia.
      replace (S (S (2 * i)) + 1)%nat with (S (S (2 * i + 1))) by lia.
      unfold edge_pair. cbn [app nth].
      replace (v + Z.of_nat (S i)) with (v + 1 + Z.of_nat i) by lia.
      apply IH.
      rewrite length_app in Hi. unfold edge_pair in Hi. cbn [length] in Hi. lia.
Qed.

Lemma offsets_pair_annotations u e :
  map spine_to_edge (pair_annotations u e) = [e; opposite e].
Proof. destruct e; reflexivity. Qed.

(** The interior loop keeps positions and stored offsets in step. *)
Lemma interior_loop_pairs {libm : Libm} thickness wireframe vertices b v0 turns :
  forall c,
  pairs_agree vertices v0 (dst_positions c)
              (map spine_to_edge (dst_annotations c)) ->
  zlength (dst_positions c) = 2 * (src_position c - v0) ->
  pairs_agree vertices v0
    (dst_positions (interior_loop thickness wireframe vertices b turns c))
    (map spine_to_edge
       (dst_annotations (interior_loop thickness wireframe vertices b turns c))).
Proof.
  induction turns as [|turns IH]; intros c Hc Hlen; [exact Hc|].
  cbn [interior_loop]. apply IH.
  - unfold interior_step; cbn [dst_positions dst_annotations].
    rewrite map_app, offsets_pair_annotations.
    replace (src_position c) with (v0 + (src_position c - v0)) at 1 by lia.
    apply (pairs_agree_snoc _ _ _ _ Hc _ _ Hlen).
  - unfold interior_step; cbn [dst_positions src_position].
    rewrite zlength_app, Hlen. unfold edge_pair, zlength; cbn [length]. lia.
Qed.

(** One spine: the pairs of its [n] points, then the seam pair if any. *)
Lemma draw_spine_pairs {libm : Libm} thickness closed wireframe u_mode vertices n s b :
  2 <= n ->
  let w := draw_spine thickness closed wireframe u_mode vertices n s b in
  exists ps es seam_p seam_e,
    sp_positions w = ps ++ seam_p /\
    map spine_to_edge (sp_annotations w) = es ++ seam_e /\
    pairs_agree vertices s ps es /\
    zlength ps = 2 * n.
Proof.
  intros Hn; cbn zeta. unfold draw_spine.
  cbn [sp_positions sp_annotations].
  rewrite offsets_fix_up_u.
  match goal with
  | |- context [interior_loop ?t ?w ?v b ?turns ?c] =>
      destruct (interior_loop_sizes t w v b turns c) as (Hs & _ & Hp & _);
      pose proof (interior_loop_pairs t w v b s turns c) as Hpairs;
      set (c1 := interior_loop t w v b turns c) in *
  end.
  cbn [src_position dst_positions dst_annotations] in Hs, Hp, Hpairs.
  rewrite Z2Nat.id in * by lia.
  assert (H1 : pairs_agree vertices s (dst_positions c1)
                 (map spine_to_edge (dst_annotations c1))).
  { apply Hpairs.
    - rewrite offsets_pair_annotations.
      rewrite <- (app_nil_r (edge_pair _ _)). constructor. constructor.
    - unfold edge_pair, zlength; cbn [length]. lia. }
  assert (L1 : zlength (dst_positions c1) = 2 * (src_position c1 - s))
    by (rewrite Hp, Hs; unfold edge_pair, zlength; cbn [length]; lia).
  assert (H2 : forall u e,
             pairs_agree vertices s
               (dst_positions c1 ++ edge_pair (src vertices (src_position c1)) e)
               (map spine_to_edge (dst_annotations c1 ++ pair_annotations u e))).
  { intros u e. rewrite map_app.
    replace (src_position c1) with (s + (src_position c1 - s)) at 1 by lia.
    rewrite offsets_pair_annotations.
    apply (pairs_agree_snoc _ _ _ _ H1 _ _ L1). }
  assert (L2 : forall e,
             zlength (dst_positions c1 ++ edge_pair (src vertices (src_position c1)) e)
             = 2 * n).
  { intros e. rewrite zlength_app, L1, Hs.
    unfold edge_pair, zlength; cbn [length]. lia. }
  destruct closed; cbn [dst_positions dst_annotations].
  - rewrite (map_app _ (_ ++ _)).
    eexists; eexists; eexists; eexists.
    split; [reflexivity|]. split; [reflexivity|].
    split; [apply H2|apply L2].
  - eexists; eexists; exists [], [].
    rewrite !app_nil_r.
    split; [reflexivity|]. split; [reflexivity|].
    split; [apply H2|apply L2].
Qed.

(** The positions and the annotations of spine [k], as one spine writes
    them. *)
Lemma spine_block {libm : Libm} context spines mesh k :
  valid_spine_list spines ->
  par_streamlines_draw_lines context spines = Returned mesh ->
  (k < length (spine_lengths spines))%nat ->
  exists b,
    let w :=
      draw_spine (thickness (config context)) (closed spines)
        (wireframe (config context)) (u_mode (config context))
        (vertices spines) (spine_length_of spines k)
        (first_vertex spines k) b in
    (forall j, 0 <= j < zlength (sp_positions w) ->
       position_at mesh (first_output spines k + j) =
         nth (Z.to_nat j) (sp_positions w) origin) /\
    (forall j, 0 <= j < zlength (sp_annotations w) ->
       annotation_at mesh (first_output spines k + j) =
         nth (Z.to_nat j) (sp_annotations w) no_annotation).
Proof.
  intros (Hwf & Hall & Hsum) Hret Hk.
  destruct (draw_lines_returned context spines Hwf mesh Hret)
    as (_ & _ & _ & _ & ->).
  unfold written, position_at, annotation_at;
    cbn [vertex_positions vertex_annotations].
  destruct (draw_spines_block (thickness (config context)) (closed spines)
              (wireframe (config context)) (u_mode (config context))
              (vertices spines) (spine_lengths spines) k 0 0 Hall Hk)
    as (b & pre_p & post_p & pre_a & post_a & Ep & Lp & Ea & La).
  cbn zeta in Ep, Ea. rewrite Z.add_0_l in Ep, Ea.
  exists b. cbn zeta.
  unfold spine_length_of, first_vertex, first_output.
  split; intros j Hj.
  - rewrite Ep. apply nth_block; assumption.
  - rewrite Ea. apply nth_block; assumption.
Qed.

(** On the pair of every point of every spine, [spine_to_edge] is the
    offset that the positions of the pair were built with: the first
    vertex of the pair is the point plus the vector stored on it, the
    second is the point minus that vector, and stores its opposite. *)
Lemma point_pairs_store_their_offset {libm : Libm} context spines mesh k i :
  valid_spine_list spines ->
  par_streamlines_draw_lines context spines = Returned mesh ->
  (k < length (spine_lengths spines))%nat ->
  0 <= i < spine_length_of spines k ->
  let o := first_output spines k in
  let p := src (vertices spines) (first_vertex spines k + i) in
  let e := spine_to_edge (annotation_at mesh (o + 2 * i)) in
  position_at mesh (o + 2 * i) =
    {| x := F32.add (x p) (fst e); y := F32.add (y p) (snd e) |} /\
  position_at mesh (o + 2 * i + 1) =
    {| x := F32.sub (x p) (fst e); y := F32.sub (y p) (snd e) |} /\
  spine_to_edge (annotation_at mesh (o + 2 * i + 1)) = opposite e.
Proof.
  intros Hvalid Hret Hk Hi; cbn zeta.
  pose proof (spine_length_of_valid spines k Hvalid Hk) as Hn.
  destruct (spine_block context spines mesh k Hvalid Hret Hk)
    as (b & Hpos & Hann).
  cbn zeta in Hpos, Hann.
  destruct (draw_spine_sizes (thickness (config context)) (closed spines)
              (wireframe (config context)) (u_mode (config context))
              (vertices spines) (spine_length_of spines k)
              (first_vertex spines k) b Hn) as (_ & Lp & La & _).
  destruct (draw_spine_pairs (thickness (config context)) (closed spines)
              (wireframe (config context)) (u_mode (config context))
              (vertices spines) (spine_length_of spines k)
              (first_vertex spines k) b Hn)
    as (ps & es & seam_p & seam_e & Ep & Ee & Hpairs & Lps).
  cbn zeta in Lp, La, Ep, Ee.
  assert (Hsv : 2 * spine_length_of spines k
                <= spine_vertices (closed spines) (spine_length_of spines k))
    by (unfold spine_vertices; destruct (closed spines); lia).
  rewrite <- Z.add_assoc.
  rewrite (Hpos (2 * i)), (Hpos (2 * i + 1)) by lia.
  rewrite (Hann (2 * i)), (Hann (2 * i + 1)) by lia.
  pose proof (pairs_agree_length _ _ _ _ Hpairs) as Les.
  destruct (pairs_agree_nth _ _ _ _ Hpairs (Z.to_nat i)
              (spine_to_edge no_annotation)) as (H0 & H1 & H2).
  { unfold zlength in Lps. lia. }
  cbn zeta in H0, H1, H2.
  rewrite Z2Nat.id in H0, H1 by lia.
  replace (Z.to_nat (2 * i)) with (2 * Z.to_nat i)%nat by lia.
  replace (Z.to_nat (2 * i + 1)) with (2 * Z.to_nat i + 1)%nat by lia.
  assert (Hps : forall j, (j < length ps)%nat ->
            nth j (sp_positions
                     (draw_spine (thickness (config context)) (closed spines)
                        (wireframe (config context)) (u_mode (config context))
                        (vertices spines) (spine_length_of spines k)
                        (first_vertex spines k) b)) origin = nth j ps origin)
    by (intros j Hj; rewrite Ep; apply app_nth1; exact Hj).
  assert (Hes : forall j, (j < length es)%nat ->
            spine_to_edge
              (nth j (sp_annotations
                        (draw_spine (thickness (config context)) (closed spines)
                           (wireframe (config context)) (u_mode (config context))
                           (vertices spines) (spine_length_of spines k)
                           (first_vertex spines k) b)) no_annotation)
            = nth j es (spine_to_edge no_annotation)).
  { intros j Hj. rewrite <- (map_nth spine_to_edge), Ee. apply app_nth1; exact Hj. }
  unfold zlength in Lps, Les.
  rewrite !Hps, !Hes by lia.
  repeat split; assumption.
Qed.

(* ================================================================== *)
(** ** The assertions *)





(* ================================================================== *)
(** ** Closed spines: what the seam block writes *)

(** C3 on a closed triangle with sides 3, 4 and 5, for any libm: every
    entry of [vertex_lengths] is 10 (3 + 4, and the first segment again),
    where the arc length with the closing segment is 12. *)
Theorem closed_triangle_lengths :
  forall libm : Libm,
  let mesh :=
    mesh_of (par_streamlines_draw_lines (libm := libm)
               (par_streamlines_create_context
                  (simple_config 1 false PAR_U_MODE_NORMALIZED_DISTANCE))
               (one_spine triangle_345 true)) in
  vertex_lengths mesh = repeat (F32.of_Z 10) 8 /\
  closed_arc_length triangle_345 = F32.of_Z 12.
Proof. intros libm. lazy. split; reflexivity. Qed.

(** C4 on the closed unit square, for any libm: in NORMALIZED_DISTANCE
    mode the values of [u_along_curve] are 0, 1/4, 1/2, 3/4 and, on the
    seam pair, 3/4 again: the largest is 3/4. *)
Theorem closed_square_normalized_u :
  forall libm : Libm,
  let mesh :=
    mesh_of (par_streamlines_draw_lines (libm := libm)
               (par_streamlines_create_context
                  (simple_config 1 false PAR_U_MODE_NORMALIZED_DISTANCE))
               (one_spine unit_square true)) in
  map u_along_curve (vertex_annotations mesh) =
    map (fun q => F32.div (F32.of_Z q) (F32.of_Z 4)) [0; 0; 1; 1; 2; 2; 3; 3; 3; 3].
Proof. intros libm. lazy. reflexivity. Qed.

(** C5 on the closed unit square with thickness 1: the seam pair, at
    indices 8 and 9, has the positions of the first pair, (1/2, 1/2) and
    (-1/2, -1/2), around the first point (0, 0), and its [spine_to_edge]
    is the offset of the last joint, (1/2, -1/2) and (-1/2, 1/2). *)
Theorem closed_square_seam_offset :
  let mesh :=
    mesh_of (par_streamlines_draw_lines (libm := ref_libm)
               (par_streamlines_create_context
                  (simple_config 1 false PAR_U_MODE_NORMALIZED_DISTANCE))
               (one_spine unit_square true)) in
  let half := F32.div (F32.of_Z 1) (F32.of_Z 2) in
  position_at mesh 8 = {| x := half; y := half |} /\
  position_at mesh 9 = {| x := F32.neg half; y := F32.neg half |} /\
  spine_to_edge_x (annotation_at mesh 8) = half /\
  spine_to_edge_y (annotation_at mesh 8) = F32.neg half /\
  spine_to_edge_x (annotation_at mesh 9) = F32.neg half /\
  spine_to_edge_y (annotation_at mesh 9) = half /\
  F32.add (y (hd origin unit_square)) (spine_to_edge_y (annotation_at mesh 8))
    = F32.neg half.
Proof. vm_compute. repeat split; reflexivity. Qed.

(* ================================================================== *)
(** ** A closed spine of 65535 points *)

Lemma fix_up_u_none u_mode invlength invcount anns :
  fix_up_u u_mode 0 invlength invcount anns = anns.
Proof.
  unfold fix_up_u, rewind_and_fix.
  change (Z.to_nat (0 * 2)) with 0%nat. change (Z.to_nat 0) with 0%nat.
  rewrite Nat.sub_0_r, skipn_all, firstn_all.
  destruct u_mode; cbn [fixup_loop]; auto using app_nil_r.
Qed.

(** [nverts] is a [uint16_t]: for a closed spine of 65535 points it is
    [65535 + 1 = 0], so nothing is written to [vertex_lengths] and the
    second pass over [u_along_curve] does not run. *)
Lemma nverts_wraps {libm : Libm} thickness wireframe u_mode vertices s b :
  let w := draw_spine thickness true wireframe u_mode vertices 65535 s b in
  sp_lengths w = [] /\
  exists raw invlength invcount,
    sp_annotations w = fix_up_u u_mode 0 invlength invcount raw /\
    fix_up_u u_mode 0 invlength invcount raw = raw.
Proof.
  cbn zeta. unfold draw_spine. cbn [sp_lengths sp_annotations].
  change (to_uint16 (65535 + 1)) with 0.
  split; [reflexivity|].
  eexists; eexists; eexists; split; [reflexivity|apply fix_up_u_none].
Qed.

(* ================================================================== *)
(** ** The side of every vertex *)

Lemma sides_app a b : sides (a + b) = sides a ++ sides b.
Proof. induction a as [|a IH]; [reflexivity|]. cbn [Nat.add sides app]. now rewrite IH. Qed.

Lemma sides_nth pairs : forall i,
  (i < 2 * pairs)%nat ->
  nth i (sides pairs) S754_nan =
    if Z.even (Z.of_nat i) then F32.of_Z 1 else F32.of_Z (-1).
Proof.
  induction pairs as [|pairs IH]; intros i Hi; [lia|].
  destruct i as [|[|i]]; [reflexivity|reflexivity|].
  cbn [sides nth]. rewrite IH by lia.
  rewrite !Nat2Z.inj_succ, Z.even_succ_succ. reflexivity.
Qed.

Lemma length_sides pairs : length (sides pairs) = (2 * pairs)%nat.
Proof. induction pairs as [|pairs IH]; [reflexivity|]. cbn [sides length]. lia. Qed.

Lemma sides_fixup_loop f turns : forall i anns,
  map v_across_curve (fixup_loop f turns i anns) = map v_across_curve anns.
Proof.
  induction turns as [|turns IH]; intros i anns; [reflexivity|].
  destruct anns as [|a0 [|a1 rest]]; cbn [fixup_loop map]; try reflexivity.
  rewrite IH. reflexivity.
Qed.

Lemma sides_fix_up_u u_mode nverts invlength invcount anns :
  map v_across_curve (fix_up_u u_mode nverts invlength invcount anns) =
  map v_across_curve anns.
Proof.
  assert (H : forall f, map v_across_curve (rewind_and_fix f nverts anns) =
                        map v_across_curve anns).
  { intros f. unfold rewind_and_fix.
    rewrite map_app, sides_fixup_loop, <- map_app, firstn_skipn. reflexivity. }
  unfold fix_up_u; destruct u_mode; auto.
Qed.

Lemma sides_interior_loop {libm : Libm} thickness wireframe vertices b turns :
  forall c,
  map v_across_curve
    (dst_annotations (interior_loop thickness wireframe vertices b turns c)) =
  map v_across_curve (dst_annotations c) ++ sides turns.
Proof.
  induction turns as [|turns IH]; intros c.
  - cbn [interior_loop sides]. now rewrite app_nil_r.
  - cbn [interior_loop]. rewrite IH.
    unfold interior_step; cbn [dst_annotations].
    rewrite map_app, <- app_assoc. reflexivity.
Qed.

Lemma sides_draw_spine {libm : Libm} thickness closed wireframe u_mode vertices n s b :
  2 <= n ->
  map v_across_curve
    (sp_annotations (draw_spine thickness closed wireframe u_mode vertices n s b)) =
  sides (Z.to_nat (n + (if closed then 1 else 0))).
Proof.
  intros Hn. unfold draw_spine. cbn [sp_annotations].
  rewrite sides_fix_up_u.
  destruct closed; cbn [dst_annotations];
    rewrite ?map_app, sides_interior_loop; cbn [dst_annotations].
  - replace (Z.to_nat (n + 1)) with (1 + Z.to_nat (n - 2) + 1 + 1)%nat by lia.
    rewrite !sides_app. reflexivity.
  - replace (Z.to_nat (n + 0)) with (1 + Z.to_nat (n - 2) + 1)%nat by lia.
    rewrite !sides_app. reflexivity.
Qed.

Lemma sides_draw_spines {libm : Libm} thickness closed wireframe u_mode vertices lens :
  forall s b,
  Forall (fun n => 1 < n) lens ->
  map v_across_curve
    (sp_annotations (draw_spines thickness closed wireframe u_mode vertices lens s b)) =
  sides (Z.to_nat (Zsum (map (fun n => n + (if closed then 1 else 0)) lens))).
Proof.
  induction lens as [|n rest IH]; intros s b Hall; [reflexivity|].
  inversion Hall as [|? ? Hn Hrest]; subst.
  cbn [draw_spines sp_annotations map Zsum].
  rewrite map_app, sides_draw_spine, IH by (assumption || lia).
  rewrite <- sides_app. f_equal.
  assert (0 <= Zsum (map (fun n => n + (if closed then 1 else 0)) rest)).
  { clear - Hrest. induction Hrest; cbn [map Zsum]; [lia|]. destruct closed; lia. }
  destruct closed; lia.
Qed.

(** X1. In every returned mesh, [v_across_curve] is 1 on the vertices of
    even index and -1 on the vertices of odd index. *)
Theorem v_across_curve_alternates {libm : Libm} context spines mesh i :
  valid_spine_list spines ->
  par_streamlines_draw_lines context spines = Returned mesh ->
  0 <= i < num_vertices mesh ->
  v_across_curve (annotation_at mesh i) =
    if Z.even i then F32.of_Z 1 else F32.of_Z (-1).
Proof.
  intros Hvalid Hret Hi.
  destruct (returned_mesh_sizes context spines mesh Hvalid Hret)
    as (Hv & _ & _ & Ha & _).
  destruct Hvalid as (Hwf & Hall & Hsum).
  destruct (draw_lines_returned context spines Hwf mesh Hret)
    as (_ & _ & _ & _ & E).
  assert (Hmap : map v_across_curve (vertex_annotations mesh) =
                 sides (Z.to_nat (Zsum (map (fun n => n + (if closed spines then 1 else 0))
                                            (spine_lengths spines))))).
  { rewrite E; cbn [vertex_annotations]. unfold written.
    apply sides_draw_spines; exact Hall. }
  unfold annotation_at.
  change (v_across_curve no_annotation) with S754_nan.
  set (pairs := Z.to_nat _) in Hmap.
  assert (Hlen : length (vertex_annotations mesh) = (2 * pairs)%nat).
  { rewrite <- (length_map v_across_curve), Hmap. apply length_sides. }
  replace (v_across_curve (nth (Z.to_nat i) (vertex_annotations mesh) no_annotation))
    with (nth (Z.to_nat i) (map v_across_curve (vertex_annotations mesh)) S754_nan)
    by (exact (map_nth v_across_curve (vertex_annotations mesh) no_annotation
                       (Z.to_nat i))).
  rewrite Hmap, sides_nth.
  - rewrite Z2Nat.id by lia. reflexivity.
  - unfold zlength in Ha. lia.
Qed.

Lemma v_across_curve_alternates_witness :
  let mesh := mesh_of (par_streamlines_draw_lines (libm := ref_libm)
                         header_context (two_spines true)) in
  v_across_curve (annotation_at mesh 13) = F32.of_Z (-1).
Proof.
  intros mesh.
  apply (v_across_curve_alternates header_context (two_spines true) mesh 13
           (two_spines_valid true) (two_spines_returned true)).
  vm_compute. split; [discriminate|reflexivity].
Defined.
(* ================================================================== *)
(** ** The triangles *)

Lemma strip_app w b s t1 : forall s0 t2,
  s = s0 ->
  strip w b s0 (t1 + t2) = strip w b s0 t1 ++ strip w b (s0 + Z.of_nat t1) t2.
Proof.
  revert s. induction t1 as [|t1 IH]; intros s s0 t2 Hs.
  - cbn [Nat.add strip app]. now rewrite Z.add_0_r.
  - cbn [Nat.add strip]. rewrite (IH (s0 + 1) (s0 + 1) t2 eq_refl), <- app_assoc.
    do 3 f_equal. lia.
Qed.

Lemma interior_loop_strip {libm : Libm} thickness wireframe vertices b turns :
  forall c,
  dst_indices (interior_loop thickness wireframe vertices b turns c) =
  dst_indices c ++ strip wireframe b (segment_index c) turns.
Proof.
  induction turns as [|turns IH]; intros c.
  - cbn [interior_loop strip]. now rewrite app_nil_r.
  - cbn [interior_loop strip]. rewrite IH.
    unfold interior_step; cbn [dst_indices segment_index].
    now rewrite <- app_assoc.
Qed.

(** The indices of one spine: one turn per segment, the seam included. *)
Lemma draw_spine_strip {libm : Libm} thickness closed wireframe u_mode vertices n s b :
  2 <= n < UINT16_MOD ->
  sp_indices (draw_spine thickness closed wireframe u_mode vertices n s b) =
  strip wireframe b 1 (Z.to_nat (n - 1 + (if closed then 1 else 0))).
Proof.
  intros Hn. unfold draw_spine.
  match goal with
  | |- context [interior_loop ?t ?w ?v b ?turns ?c] =>
      destruct (interior_loop_sizes t w v b turns c) as (_ & Hi & _);
      pose proof (interior_loop_strip t w v b turns c) as Hx;
      set (c1 := interior_loop t w v b turns c) in *
  end.
  cbn [segment_index dst_indices app] in Hi, Hx.
  rewrite Z2Nat.id in Hi by lia.
  destruct closed; cbn [sp_indices dst_indices segment_index]; rewrite Hx, Hi.
  - unfold to_uint16, UINT16_MOD in *. rewrite Z.mod_small by lia.
    replace (Z.to_nat (n - 1 + 1)) with (Z.to_nat (n - 2) + (1 + 1))%nat by lia.
    rewrite (strip_app _ _ 1 _ 1 _ eq_refl), Z2Nat.id by lia.
    cbn [strip Nat.add]. rewrite app_nil_r, <- app_assoc.
    do 3 f_equal; lia.
  - replace (Z.to_nat (n - 1 + 0)) with (Z.to_nat (n - 2) + 1)%nat by lia.
    rewrite (strip_app _ _ 1 _ 1 _ eq_refl), Z2Nat.id by lia.
    cbn [strip]. rewrite app_nil_r. do 2 f_equal; lia.
Qed.

Lemma quad_two_triangles w b s :
  0 <= b -> 1 <= s -> b + s * 2 + 1 < UINT32_MOD ->
  quad_indices w b s = two_triangles w (b + 2 * (s - 1)).
Proof.
  intros Hb Hs Hfit. unfold quad_indices, two_triangles.
  rewrite !to_uint32_small by lia.
  destruct w; repeat (f_equal; try lia).
Qed.

Lemma slice_strip w b turns : forall s j,
  (j < turns)%nat ->
  slice (strip w b s turns) (2 * ind_per_tri w * Z.of_nat j) (2 * ind_per_tri w) =
  quad_indices w b (s + Z.of_nat j).
Proof.
  unfold slice.
  induction turns as [|turns IH]; intros s j Hj; [lia|].
  cbn [strip].
  pose proof (length_quad_indices w b s) as Lq. unfold zlength in Lq.
  assert (Hipt : 3 <= ind_per_tri w <= 4) by (unfold ind_per_tri; destruct w; lia).
  destruct j as [|j].
  - rewrite Z.mul_0_r, Z.add_0_r. cbn [Z.to_nat skipn].
    rewrite firstn_app.
    replace (Z.to_nat (2 * ind_per_tri w) - length (quad_indices w b s))%nat
      with 0%nat by lia.
    cbn [firstn]. rewrite app_nil_r. apply firstn_all2. lia.
  - rewrite skipn_app.
    rewrite (skipn_all2 (quad_indices w b s)) by lia.
    cbn [app].
    replace (Z.to_nat (2 * ind_per_tri w * Z.of_nat (S j)) - length (quad_indices w b s))%nat
      with (Z.to_nat (2 * ind_per_tri w * Z.of_nat j)) by lia.
    rewrite IH by lia. f_equal. lia.
Qed.

Lemma slice_block {A} (pre blk post : list A) (o start len : Z) :
  zlength pre = o -> 0 <= start -> 0 <= len -> start + len <= zlength blk ->
  slice (pre ++ blk ++ post) (o + start) len = slice blk start len.
Proof.
  unfold slice, zlength. intros Ho Hs Hl Hfit.
  rewrite skipn_app, (skipn_all2 pre) by lia. cbn [app].
  replace (Z.to_nat (o + start) - length pre)%nat with (Z.to_nat start) by lia.
  rewrite skipn_app, firstn_app.
  rewrite length_skipn.
  replace (Z.to_nat len - (length blk - Z.to_nat start))%nat with 0%nat by lia.
  cbn [firstn]. now rewrite app_nil_r.
Qed.

(** The blocks of spine [k] inside what all the spines write, with the
    [base_index] of the spine. *)
Lemma draw_spines_blocks {libm : Libm} thickness closed wireframe u_mode vertices lens :
  forall k s b,
  Forall (fun n => 1 < n < UINT16_MOD) lens ->
  0 <= b -> b + total_vertices closed lens < UINT32_MOD ->
  (k < length lens)%nat ->
  let blk :=
    draw_spine thickness closed wireframe u_mode vertices (nth k lens 0)
      (s + Zsum (firstn k lens)) (b + total_vertices closed (firstn k lens)) in
  let w := draw_spines thickness closed wireframe u_mode vertices lens s b in
  exists pre_p post_p pre_a post_a pre_x post_x,
    sp_positions w = pre_p ++ sp_positions blk ++ post_p /\
    zlength pre_p = total_vertices closed (firstn k lens) /\
    sp_annotations w = pre_a ++ sp_annotations blk ++ post_a /\
    zlength pre_a = total_vertices closed (firstn k lens) /\
    sp_indices w = pre_x ++ sp_indices blk ++ post_x /\
    zlength pre_x = ind_per_tri wireframe * total_triangles closed (firstn k lens).
Proof.
  unfold total_vertices, total_triangles.
  induction lens as [|n rest IH]; intros k s b Hall Hb Hfit Hk; [cbn in Hk; lia|].
  inversion Hall as [|? ? Hn Hrest]; subst.
  cbn [map Zsum] in Hfit.
  assert (H1 : Forall (fun n => 1 < n) rest)
    by (eapply Forall_impl; [|exact Hrest]; cbn; intros; lia).
  pose proof (totals_bounds closed rest H1) as Hb'.
  unfold total_vertices, total_triangles in Hb'.
  pose proof (spine_vertices_pos closed n ltac:(lia)) as Hsv.
  destruct k as [|k]; cbn zeta.
  - cbn [firstn Zsum map nth draw_spines sp_positions sp_annotations sp_indices].
    rewrite !Z.add_0_r.
    exists [], (sp_positions (draw_spines thickness closed wireframe u_mode vertices rest
                  (sp_src_position (draw_spine thickness closed wireframe u_mode vertices n s b))
                  (next_base_index closed b n))),
      [], (sp_annotations (draw_spines thickness closed wireframe u_mode vertices rest
                  (sp_src_position (draw_spine thickness closed wireframe u_mode vertices n s b))
                  (next_base_index closed b n))),
      [], (sp_indices (draw_spines thickness closed wireframe u_mode vertices rest
                  (sp_src_position (draw_spine thickness closed wireframe u_mode vertices n s b))
                  (next_base_index closed b n))).
    cbn [app]. unfold zlength; cbn [length]. repeat split; lia.
  - cbn [length] in Hk.
    destruct (draw_spine_sizes thickness closed wireframe u_mode vertices n s b
                ltac:(lia)) as (Hs & Hp & Ha & Hx).
    assert (Hnext : next_base_index closed b n = b + spine_vertices closed n).
    { unfold next_base_index.
      replace (n * 2 + (if closed then 2 else 0)) with (spine_vertices closed n)
        by (unfold spine_vertices; destruct closed; lia).
      apply to_uint32_small. lia. }
    destruct (IH k (s + n) (b + spine_vertices closed n) Hrest ltac:(lia) ltac:(lia)
                ltac:(lia))
      as (pre_p & post_p & pre_a & post_a & pre_x & post_x &
          Ep & Lp & Ea & La & Ex & Lx).
    cbn zeta in Ep, Ea, Ex.
    cbn [firstn Zsum map nth draw_spines sp_positions sp_annotations sp_indices].
    rewrite Hs, Hnext, Ep, Ea, Ex.
    replace (s + (n + Zsum (firstn k rest))) with (s + n + Zsum (firstn k rest)) by lia.
    replace (b + (spine_vertices closed n + Zsum (map (spine_vertices closed) (firstn k rest))))
      with (b + spine_vertices closed n + Zsum (map (spine_vertices closed) (firstn k rest)))
      by lia.
    exists (sp_positions (draw_spine thickness closed wireframe u_mode vertices n s b) ++ pre_p),
      post_p,
      (sp_annotations (draw_spine thickness closed wireframe u_mode vertices n s b) ++ pre_a),
      post_a,
      (sp_indices (draw_spine thickness closed wireframe u_mode vertices n s b) ++ pre_x),
      post_x.
    rewrite !zlength_app, Hp, Ha, Hx, Lp, La, Lx, <- !app_assoc.
    repeat split; try reflexivity; lia.
Qed.

Lemma Forall_sublist_firstn {A} (P : A -> Prop) k : forall l,
  Forall P l -> Forall P (firstn k l).
Proof.
  induction k as [|k IH]; intros l H; [constructor|].
  destruct H; cbn [firstn]; constructor; auto.
Qed.

Lemma Forall_sublist_skipn {A} (P : A -> Prop) k : forall l,
  Forall P l -> Forall P (skipn k l).
Proof.
  induction k as [|k IH]; intros l H; [exact H|].
  destruct H; cbn [skipn]; auto.
Qed.

(** The blocks of spine [k] of a returned mesh. *)
Lemma returned_spine_blocks {libm : Libm} context spines mesh k :
  valid_spine_list spines ->
  par_streamlines_draw_lines context spines = Returned mesh ->
  (k < length (spine_lengths spines))%nat ->
  let w :=
    draw_spine (thickness (config context)) (closed spines)
      (wireframe (config context)) (u_mode (config context))
      (vertices spines) (spine_length_of spines k)
      (first_vertex spines k) (first_output spines k) in
  2 <= spine_length_of spines k < UINT16_MOD /\
  0 <= first_output spines k /\
  first_output spines k + spine_vertices (closed spines) (spine_length_of spines k)
    < UINT32_MOD /\
  (forall j, 0 <= j < zlength (sp_positions w) ->
     position_at mesh (first_output spines k + j) =
       nth (Z.to_nat j) (sp_positions w) origin) /\
  (forall j, 0 <= j < zlength (sp_annotations w) ->
     annotation_at mesh (first_output spines k + j) =
       nth (Z.to_nat j) (sp_annotations w) no_annotation) /\
  (forall start len, 0 <= start -> 0 <= len ->
     start + len <= zlength (sp_indices w) ->
     slice (triangle_indices mesh)
           (first_index (wireframe (config context)) spines k + start) len =
       slice (sp_indices w) start len).
Proof.
  intros (Hwf & Hall & Hsum) Hret Hk; cbn zeta.
  destruct (draw_lines_returned context spines Hwf mesh Hret)
    as (Hrange & _ & Htv & _ & ->).
  unfold written, position_at, annotation_at;
    cbn [vertex_positions vertex_annotations triangle_indices].
  destruct (draw_spines_blocks (thickness (config context)) (closed spines)
              (wireframe (config context)) (u_mode (config context))
              (vertices spines) (spine_lengths spines) k 0 0 Hrange
              ltac:(lia) ltac:(lia) Hk)
    as (pre_p & post_p & pre_a & post_a & pre_x & post_x &
        Ep & Lp & Ea & La & Ex & Lx).
  cbn zeta in Ep, Ea, Ex. rewrite !Z.add_0_l in Ep, Ea, Ex.
  unfold spine_length_of, first_vertex, first_output, first_index.
  assert (Hnk : 1 < nth k (spine_lengths spines) 0 < UINT16_MOD).
  { rewrite Forall_forall in Hrange. apply Hrange. apply nth_In. exact Hk. }
  assert (Hsplit : total_vertices (closed spines) (spine_lengths spines) =
            total_vertices (closed spines) (firstn k (spine_lengths spines)) +
            spine_vertices (closed spines) (nth k (spine_lengths spines) 0) +
            total_vertices (closed spines) (skipn (S k) (spine_lengths spines))).
  { clear - Hk. revert k Hk.
    induction (spine_lengths spines) as [|n rest IH]; intros k Hk;
      [cbn in Hk; lia|].
    destruct k as [|k]; unfold total_vertices in *; cbn [firstn skipn nth map Zsum].
    - lia.
    - cbn [length] in Hk. specialize (IH k ltac:(lia)).
      cbn [skipn] in IH. lia. }
  assert (Hpre : 0 <= total_vertices (closed spines) (firstn k (spine_lengths spines))).
  { pose proof (totals_bounds (closed spines) (firstn k (spine_lengths spines))
                  (Forall_sublist_firstn _ k _ Hall)). lia. }
  assert (Hpost : 0 <= total_vertices (closed spines) (skipn (S k) (spine_lengths spines))).
  { pose proof (totals_bounds (closed spines) (skipn (S k) (spine_lengths spines))
                  (Forall_sublist_skipn _ (S k) _ Hall)). lia. }
  repeat split; try lia.
  - intros j Hj. rewrite Ep. apply nth_block; assumption.
  - intros j Hj. rewrite Ea. apply nth_block; assumption.
  - intros start len Hs Hl Hfit. rewrite Ex. apply slice_block; assumption.
Qed.

(** X2. The index buffer holds, spine after spine and segment after
    segment, the two triangles between consecutive pairs of boundary
    vertices: (a0, a1, b0) and (b0, a1, b1), with the indices of the
    spine's own block of vertices, and in wireframe mode each triangle
    followed by its first index. *)
Theorem stitched_triangles {libm : Libm} context spines mesh k j :
  valid_spine_list spines ->
  par_streamlines_draw_lines context spines = Returned mesh ->
  (k < length (spine_lengths spines))%nat ->
  let n := spine_length_of spines k in
  let segments := n - 1 + (if closed spines then 1 else 0) in
  let per_segment := 2 * (if wireframe (config context) then 4 else 3) in
  0 <= j < segments ->
  slice (triangle_indices mesh)
        (first_index (wireframe (config context)) spines k + per_segment * j)
        per_segment =
  two_triangles (wireframe (config context)) (first_output spines k + 2 * j).
Proof.
  intros Hvalid Hret Hk; cbn zeta; intros Hj.
  destruct (returned_spine_blocks context spines mesh k Hvalid Hret Hk)
    as (Hn & Ho & Hfit & _ & _ & Hx).
  cbn zeta in Hx.
  pose proof (draw_spine_strip (thickness (config context)) (closed spines)
                (wireframe (config context)) (u_mode (config context))
                (vertices spines) (spine_length_of spines k)
                (first_vertex spines k) (first_output spines k) Hn) as Es.
  rewrite Es in Hx.
  set (w := wireframe (config context)) in *.
  change (if w then 4 else 3) with (ind_per_tri w).
  assert (Hipt : 3 <= ind_per_tri w <= 4) by (unfold ind_per_tri; destruct w; lia).
  assert (Lstrip : forall b s t, zlength (strip w b s t) = 2 * ind_per_tri w * Z.of_nat t).
  { intros b s t. revert s. induction t as [|t IH]; intros s;
      [unfold zlength; cbn [strip length]; lia|].
    cbn [strip]. rewrite zlength_app, length_quad_indices, IH. lia. }
  rewrite Hx; try nia.
  - replace j with (Z.of_nat (Z.to_nat j)) at 1 by lia.
    rewrite slice_strip by (destruct (closed spines); lia).
    rewrite Z2Nat.id by lia.
    rewrite quad_two_triangles.
    + f_equal. lia.
    + exact Ho.
    + lia.
    + unfold spine_vertices in Hfit. destruct (closed spines); lia.
  - rewrite Lstrip. destruct (closed spines); nia.
Qed.

Lemma stitched_triangles_witness :
  let mesh := mesh_of (par_streamlines_draw_lines (libm := ref_libm)
                         header_context (two_spines true)) in
  slice (triangle_indices mesh) (3 * 6 + 2 * 3 * 1) (2 * 3) =
    [10; 11; 12; 12; 11; 13].
Proof.
  intros mesh.
  refine (stitched_triangles header_context (two_spines true) mesh 1 1
            (two_spines_valid true) (two_spines_returned true)
            (Nat.lt_succ_diag_r 1) _).
  vm_compute. split; [discriminate|reflexivity].
Defined.
(* ================================================================== *)
(** ** The joints *)

Lemma offsets_nth_fix_up_u u_mode nverts invlength invcount anns j :
  spine_to_edge (nth j (fix_up_u u_mode nverts invlength invcount anns) no_annotation) =
  spine_to_edge (nth j anns no_annotation).
Proof.
  rewrite <- !(map_nth spine_to_edge), offsets_fix_up_u. reflexivity.
Qed.

Lemma offset_first_pair u e rest :
  spine_to_edge (nth 0 (pair_annotations u e ++ rest) no_annotation) = e.
Proof. destruct e; reflexivity. Qed.

Lemma interior_loop_joints {libm : Libm} thickness wireframe vertices b v0 turns :
  forall c,
  1 <= src_position c - v0 ->
  normal_of_previous_segment vertices c ->
  interior_joints thickness vertices v0 c ->
  interior_joints thickness vertices v0
    (interior_loop thickness wireframe vertices b turns c).
Proof.
  induction turns as [|turns IH]; intros c Hpos Hnormal Hc; [exact Hc|].
  cbn [interior_loop]. apply IH.
  - unfold interior_step; cbn [src_position]. lia.
  - unfold normal_of_previous_segment, interior_step; cbn [pnx pny src_position].
    replace (src_position c + 1 - 1) with (src_position c) by lia.
    split; reflexivity.
  - destruct Hc as (Hlen & Hjoints). destruct Hnormal as (Hx & Hy).
    unfold interior_joints, interior_step; cbn [src_position dst_annotations].
    split.
    + rewrite zlength_app, Hlen. unfold pair_annotations, zlength; cbn [length]. lia.
    + intros i Hi.
      destruct (Z.eq_dec i (src_position c - v0)) as [->|Hne].
      * rewrite app_nth2 by (unfold zlength in Hlen; lia).
        replace (Z.to_nat (2 * (src_position c - v0)) - length (dst_annotations c))%nat
          with 0%nat by (unfold zlength in Hlen; lia).
        rewrite <- (app_nil_r (pair_annotations _ _)), offset_first_pair, Hx, Hy.
        replace (v0 + (src_position c - v0) - 1) with (src_position c - 1) by lia.
        replace (v0 + (src_position c - v0) + 1) with (src_position c + 1) by lia.
        replace (v0 + (src_position c - v0)) with (src_position c) by lia.
        reflexivity.
      * rewrite app_nth1 by (unfold zlength in Hlen; lia).
        apply Hjoints. lia.
Qed.

(** The offsets stored for the points of one spine. *)
Lemma draw_spine_joints {libm : Libm} thickness closed wireframe u_mode vertices n s b i :
  2 <= n -> 0 <= i < n ->
  spine_to_edge
    (nth (Z.to_nat (2 * i))
         (sp_annotations (draw_spine thickness closed wireframe u_mode vertices n s b))
         no_annotation) =
  joint_offset thickness closed vertices s n i.
Proof.
  intros Hn Hi. unfold draw_spine. cbn [sp_annotations].
  rewrite offsets_nth_fix_up_u.
  match goal with
  | |- context [interior_loop ?t ?w ?v b ?turns ?c] =>
      destruct (interior_loop_sizes t w v b turns c) as (Hs & _ & _ & Ha & _);
      destruct (interior_loop_appends t w v b turns c) as (ps & anns & _ & Ea & _ & La);
      pose proof (interior_loop_normal t w v b turns c) as Hnormal;
      pose proof (interior_loop_joints t w v b s turns c) as Hjoints;
      set (c1 := interior_loop t w v b turns c) in *
  end.
  cbn [src_position dst_annotations pnx pny] in Hs, Ha, Ea, Hnormal, Hjoints.
  rewrite Z2Nat.id in * by lia.
  assert (Hn0 : normal_of_previous_segment vertices
                  {| src_position := s + 1;
                     pnx := seg_nx (src vertices s) (src vertices (s + 1));
                     pny := seg_ny (src vertices s) (src vertices (s + 1));
                     distance_along_spine :=
                       seg_length (src vertices s) (src vertices (s + 1));
                     segment_index := 1;
                     dst_positions := dst_positions c1;
                     dst_annotations := [];
                     dst_indices := [] |}).
  { unfold normal_of_previous_segment; cbn [pnx pny src_position].
    replace (s + 1 - 1) with s by lia. split; reflexivity. }
  destruct Hnormal as (Hx & Hy).
  { unfold normal_of_previous_segment; cbn [pnx pny src_position].
    replace (s + 1 - 1) with s by lia. split; reflexivity. }
  destruct Hjoints as (Hlen & Hj).
  { lia. }
  { unfold normal_of_previous_segment; cbn [pnx pny src_position].
    replace (s + 1 - 1) with s by lia. split; reflexivity. }
  { unfold interior_joints; cbn [src_position dst_annotations].
    split; [unfold pair_annotations, zlength; cbn [length]; lia|]. intros; lia. }
  rewrite Hs in Hx, Hy, Hj, Hlen.
  replace (s + 1 + (n - 2) - 1) with (s + (n - 2)) in Hx, Hy by lia.
  replace (s + 1 + (n - 2)) with (s + (n - 1)) in Hx, Hy by lia.
  unfold joint_offset.
  assert (Hraw : forall tail,
            spine_to_edge (nth (Z.to_nat (2 * i)) (dst_annotations c1 ++ tail) no_annotation)
            = if i =? n - 1
              then spine_to_edge (nth 0 tail no_annotation)
              else spine_to_edge (nth (Z.to_nat (2 * i)) (dst_annotations c1) no_annotation)).
  { intros tail. destruct (i =? n - 1) eqn:Hil.
    - apply Z.eqb_eq in Hil. subst i.
      rewrite app_nth2 by (unfold zlength in Hlen; lia).
      do 2 f_equal. unfold zlength in Hlen. lia.
    - apply Z.eqb_neq in Hil.
      rewrite app_nth1 by (unfold zlength in Hlen; lia). reflexivity. }
  assert (Hfirst : i = 0 ->
            spine_to_edge (nth (Z.to_nat (2 * i)) (dst_annotations c1) no_annotation)
            = spine_to_edge
                (nth 0 (pair_annotations F32.zero
                          (if closed
                           then miter thickness
                                  (seg_nx (src vertices (s + (n - 1))) (src vertices s))
                                  (seg_ny (src vertices (s + (n - 1))) (src vertices s))
                                  (seg_nx (src vertices s) (src vertices (s + 1)))
                                  (seg_ny (src vertices s) (src vertices (s + 1)))
                           else (butt thickness (seg_nx (src vertices s) (src vertices (s + 1))),
                                 butt thickness (seg_ny (src vertices s) (src vertices (s + 1))))))
                     no_annotation)).
  { intros ->. rewrite Ea. reflexivity. }
  pose proof offset_first_pair as Htail.
  replace (s + 0) with s by lia.
  destruct closed; cbn [dst_annotations].
  - rewrite <- app_assoc, Hraw, Htail.
    destruct (i =? 0) eqn:H0.
    + apply Z.eqb_eq in H0.
      replace (i =? n - 1) with false by (symmetry; apply Z.eqb_neq; lia).
      rewrite (Hfirst H0), <- (app_nil_r (pair_annotations _ _)), Htail.
      reflexivity.
    + apply Z.eqb_neq in H0.
      destruct (i =? n - 1) eqn:Hil.
      * rewrite Hx, Hy, Hs.
        replace (s + 1 + (n - 2)) with (s + (n - 1)) by lia.
        replace (s + (n - 2)) with (s + (n - 2)) by lia. reflexivity.
      * apply Z.eqb_neq in Hil. rewrite Hj by lia.
        replace (s + i - 1) with (s + (i - 1)) by lia.
        replace (s + i + 1) with (s + (i + 1)) by lia. reflexivity.
  - rewrite Hraw, <- (app_nil_r (pair_annotations _ _)), Htail.
    destruct (i =? 0) eqn:H0.
    + apply Z.eqb_eq in H0.
      replace (i =? n - 1) with false by (symmetry; apply Z.eqb_neq; lia).
      rewrite (Hfirst H0), <- (app_nil_r (pair_annotations _ _)), Htail.
      reflexivity.
    + apply Z.eqb_neq in H0.
      destruct (i =? n - 1) eqn:Hil.
      * rewrite Hx, Hy. reflexivity.
      * apply Z.eqb_neq in Hil. rewrite Hj by lia.
        replace (s + i - 1) with (s + (i - 1)) by lia.
        replace (s + i + 1) with (s + (i + 1)) by lia. reflexivity.
Qed.

(** The joints of a returned mesh, point by point. *)
Lemma returned_joints {libm : Libm} context spines mesh k i :
  valid_spine_list spines ->
  par_streamlines_draw_lines context spines = Returned mesh ->
  (k < length (spine_lengths spines))%nat ->
  0 <= i < spine_length_of spines k ->
  let e := joint_offset (thickness (config context)) (closed spines)
             (vertices spines) (first_vertex spines k)
             (spine_length_of spines k) i in
  let p := src (vertices spines) (first_vertex spines k + i) in
  spine_to_edge (annotation_at mesh (first_output spines k + 2 * i)) = e /\
  position_at mesh (first_output spines k + 2 * i) =
    {| x := F32.add (x p) (fst e); y := F32.add (y p) (snd e) |} /\
  position_at mesh (first_output spines k + 2 * i + 1) =
    {| x := F32.sub (x p) (fst e); y := F32.sub (y p) (snd e) |}.
Proof.
  intros Hvalid Hret Hk Hi; cbn zeta.
  destruct (returned_spine_blocks context spines mesh k Hvalid Hret Hk)
    as (Hn & _ & _ & _ & Hann & _).
  cbn zeta in Hann.
  destruct (draw_spine_sizes (thickness (config context)) (closed spines)
              (wireframe (config context)) (u_mode (config context))
              (vertices spines) (spine_length_of spines k)
              (first_vertex spines k) (first_output spines k) ltac:(lia))
    as (_ & _ & La & _).
  cbn zeta in La.
  assert (Hsv : 2 * spine_length_of spines k
                <= spine_vertices (closed spines) (spine_length_of spines k))
    by (unfold spine_vertices; destruct (closed spines); lia).
  assert (He : spine_to_edge (annotation_at mesh (first_output spines k + 2 * i)) =
               joint_offset (thickness (config context)) (closed spines)
                 (vertices spines) (first_vertex spines k)
                 (spine_length_of spines k) i).
  { rewrite Hann by lia. apply draw_spine_joints; lia. }
  destruct (point_pairs_store_their_offset context spines mesh k i Hvalid Hret Hk Hi)
    as (H0 & H1 & _).
  cbn zeta in H0, H1. rewrite He in H0, H1.
  repeat split; assumption.
Qed.

(** X3. At every point of every spine the stored offset (and with it the
    pair of boundary vertices) is the joint of the two segments that meet
    there: a miter of their normals at the interior points and, on a
    closed spine, also at the first and last points, through the segment
    from the last point to the first; the normal of the only segment
    times thickness / 2 at the two ends of an open spine. *)
Theorem joints_are_miters {libm : Libm} context spines mesh k i :
  valid_spine_list spines ->
  par_streamlines_draw_lines context spines = Returned mesh ->
  (k < length (spine_lengths spines))%nat ->
  0 <= i < spine_length_of spines k ->
  let e := joint_offset (thickness (config context)) (closed spines)
             (vertices spines) (first_vertex spines k)
             (spine_length_of spines k) i in
  let p := src (vertices spines) (first_vertex spines k + i) in
  spine_to_edge (annotation_at mesh (first_output spines k + 2 * i)) = e /\
  position_at mesh (first_output spines k + 2 * i) =
    {| x := F32.add (x p) (fst e); y := F32.add (y p) (snd e) |} /\
  position_at mesh (first_output spines k + 2 * i + 1) =
    {| x := F32.sub (x p) (fst e); y := F32.sub (y p) (snd e) |}.
Proof.
  intros Hvalid Hret Hk Hi.
  exact (returned_joints context spines mesh k i Hvalid Hret Hk Hi).
Qed.

Lemma joints_are_miters_witness :
  let mesh := mesh_of (par_streamlines_draw_lines (libm := ref_libm)
                         header_context (two_spines true)) in
  spine_to_edge (annotation_at mesh (0 + 2 * 1)) =
    miter (libm := ref_libm) (F32.of_Z 3)
      (seg_nx (point 0 0) (point 2 1)) (seg_ny (point 0 0) (point 2 1))
      (seg_nx (point 2 1) (point 4 0)) (seg_ny (point 2 1) (point 4 0)).
Proof.
  intros mesh.
  refine (proj1 (joints_are_miters (libm := ref_libm) header_context (two_spines true) mesh 0 1
                   (two_spines_valid true) (two_spines_returned true)
                   (Nat.lt_0_succ 1) _)).
  vm_compute. split; [discriminate|reflexivity].
Defined.
(* ================================================================== *)
(** ** Distances along the spine *)

Lemma arc_length_succ vertices v k :
  (1 <= k)%nat ->
  arc_length vertices v (S k) =
  F32.add (arc_length vertices v k)
          (seg_length (src vertices (v + Z.of_nat k)) (src vertices (v + Z.of_nat k + 1))).
Proof. destruct k as [|k]; [lia|reflexivity]. Qed.

Lemma u_pair_annotations d e j :
  0 <= j < 2 ->
  u_along_curve (nth (Z.to_nat j) (pair_annotations d e) no_annotation) = d.
Proof.
  intros Hj. assert (j = 0 \/ j = 1) as [-> | ->] by lia; reflexivity.
Qed.

Lemma interior_loop_distances {libm : Libm} thickness wireframe vertices b v0 turns :
  forall c,
  distances_written vertices v0 c ->
  distances_written vertices v0
    (interior_loop thickness wireframe vertices b turns c).
Proof.
  induction turns as [|turns IH]; intros c Hc; [exact Hc|].
  cbn [interior_loop]. apply IH.
  destruct Hc as (Hpos & Hd & Hlen & Hu).
  unfold distances_written, interior_step;
    cbn [src_position distance_along_spine dst_annotations].
  split; [lia|]. split; [|split].
  - replace (Z.to_nat (src_position c + 1 - v0))
      with (S (Z.to_nat (src_position c - v0))) by lia.
    rewrite arc_length_succ, Hd, Z2Nat.id by lia.
    replace (v0 + (src_position c - v0)) with (src_position c) by lia.
    reflexivity.
  - rewrite zlength_app, Hlen. unfold pair_annotations, zlength; cbn [length]. lia.
  - intros j Hj.
    destruct (Z_lt_ge_dec j (2 * (src_position c - v0))) as [Hlt|Hge].
    + rewrite app_nth1 by (unfold zlength in Hlen; lia). apply Hu. lia.
    + rewrite app_nth2 by (unfold zlength in Hlen; lia).
      replace (Z.to_nat j - length (dst_annotations c))%nat
        with (Z.to_nat (j - 2 * (src_position c - v0)))
        by (unfold zlength in Hlen; lia).
      rewrite u_pair_annotations, Hd by lia.
      f_equal. f_equal.
      assert (j = 2 * (src_position c - v0) \/ j = 2 * (src_position c - v0) + 1)
        as [-> | ->] by lia.
      * rewrite Z.mul_comm, Z.div_mul by lia. reflexivity.
      * rewrite Z.mul_comm, Z.div_add_l by lia.
        change (1 / 2) with 0. lia.
Qed.

(** One spine: the distances written at first, the factor of the second
    pass, and the entries of [vertex_lengths]. *)
Lemma draw_spine_distances {libm : Libm} thickness closed wireframe u_mode vertices n s b :
  2 <= n ->
  let w := draw_spine thickness closed wireframe u_mode vertices n s b in
  let nverts := to_uint16 (n + (if closed then 1 else 0)) in
  let total := spine_total vertices closed s n in
  sp_lengths w = repeat total (Z.to_nat (nverts * 2)) /\
  exists raw,
    sp_annotations w =
      fix_up_u u_mode nverts (F32.div (F32.of_Z 1) total)
        (F32.div (F32.of_Z 1) (F32.of_Z n)) raw /\
    zlength raw = spine_vertices closed n /\
    forall j, 0 <= j < spine_vertices closed n ->
      u_along_curve (nth (Z.to_nat j) raw no_annotation) =
      raw_distance vertices s n (j / 2).
Proof.
  intros Hn; cbn zeta. unfold draw_spine.
  match goal with
  | |- context [interior_loop ?t ?w ?v b ?turns ?c] =>
      destruct (interior_loop_sizes t w v b turns c) as (Hs & _);
      pose proof (interior_loop_distances t w v b s turns c) as Hdist;
      set (c1 := interior_loop t w v b turns c) in *
  end.
  cbn [src_position] in Hs. rewrite Z2Nat.id in Hs by lia.
  destruct Hdist as (_ & Hd & Hlen & Hu).
  { unfold distances_written;
      cbn [src_position distance_along_spine dst_annotations].
    replace (s + 1 - s) with 1 by lia.
    split; [lia|].
    split; [change (Z.to_nat 1) with 1%nat; cbn [arc_length Z.of_nat];
            rewrite Z.add_0_r; reflexivity|].
    split; [unfold pair_annotations, zlength; cbn [length]; lia|].
    intros j Hj. rewrite u_pair_annotations by lia.
    replace (j / 2) with 0; [reflexivity|].
    symmetry. apply Z.div_small. lia. }
  rewrite Hs in Hd, Hlen, Hu.
  replace (s + 1 + (n - 2) - s) with (n - 1) in Hd, Hlen, Hu by lia.
  assert (Hraw : forall d e j, 0 <= j < 2 * n ->
            u_along_curve
              (nth (Z.to_nat j) (dst_annotations c1 ++ pair_annotations d e)
                   no_annotation)
            = if j <? 2 * (n - 1)
              then arc_length vertices s (Z.to_nat (j / 2)) else d).
  { intros d e j Hj. destruct (j <? 2 * (n - 1)) eqn:Hlt.
    - apply Z.ltb_lt in Hlt.
      rewrite app_nth1 by (unfold zlength in Hlen; lia). apply Hu. lia.
    - apply Z.ltb_ge in Hlt.
      rewrite app_nth2 by (unfold zlength in Hlen; lia).
      replace (Z.to_nat j - length (dst_annotations c1))%nat
        with (Z.to_nat (j - 2 * (n - 1))) by (unfold zlength in Hlen; lia).
      apply u_pair_annotations. lia. }
  assert (Hhalf : forall j, 0 <= j -> (j <? 2 * (n - 1)) = (j / 2 <? n - 1)).
  { intros j Hj. pose proof (Z.div_mod j 2 ltac:(lia)).
    pose proof (Z.mod_pos_bound j 2 ltac:(lia)).
    destruct (j <? 2 * (n - 1)) eqn:H1; destruct (j / 2 <? n - 1) eqn:H2;
      try reflexivity;
      [apply Z.ltb_lt in H1; apply Z.ltb_ge in H2
      |apply Z.ltb_ge in H1; apply Z.ltb_lt in H2]; lia. }
  unfold spine_total, raw_distance, spine_vertices.
  destruct closed;
    cbn [sp_lengths sp_annotations dst_annotations distance_along_spine];
    rewrite Hd.
  - split; [reflexivity|].
    eexists. split; [reflexivity|]. split.
    + rewrite !zlength_app, Hlen. unfold pair_annotations, zlength; cbn [length]. lia.
    + intros j Hj.
      pose proof (Z.div_mod j 2 ltac:(lia)).
      pose proof (Z.mod_pos_bound j 2 ltac:(lia)).
      destruct (Z_lt_ge_dec j (2 * n)) as [Hlt|Hge].
      * rewrite app_nth1
          by (rewrite length_app; unfold zlength in Hlen;
              unfold pair_annotations; cbn [length]; lia).
        rewrite Hraw, Hhalf by lia.
        destruct (j / 2 <? n - 1) eqn:H2.
        -- apply Z.ltb_lt in H2. rewrite Z.min_l by lia. reflexivity.
        -- apply Z.ltb_ge in H2. rewrite Z.min_r by lia. reflexivity.
      * rewrite app_nth2
          by (rewrite length_app; unfold zlength in Hlen;
              unfold pair_annotations; cbn [length]; lia).
        replace (Z.to_nat j - length (dst_annotations c1 ++ pair_annotations _ _))%nat
          with (Z.to_nat (j - 2 * n))
          by (rewrite length_app; unfold zlength in Hlen;
              unfold pair_annotations; cbn [length]; lia).
        rewrite u_pair_annotations by lia.
        rewrite Z.min_r by lia. reflexivity.
  - split; [reflexivity|].
    eexists. split; [reflexivity|]. split.
    + rewrite !zlength_app, Hlen. unfold pair_annotations, zlength; cbn [length]. lia.
    + intros j Hj.
      pose proof (Z.div_mod j 2 ltac:(lia)).
      pose proof (Z.mod_pos_bound j 2 ltac:(lia)).
      rewrite Hraw, Hhalf by lia.
      destruct (j / 2 <? n - 1) eqn:H2.
      * apply Z.ltb_lt in H2. rewrite Z.min_l by lia. reflexivity.
      * apply Z.ltb_ge in H2. rewrite Z.min_r by lia. reflexivity.
Qed.

(** The annotations of spine [k] of a returned mesh: the second pass over
    the distances written at first. *)
Lemma returned_spine_u {libm : Libm} context spines mesh k :
  valid_spine_list spines ->
  par_streamlines_draw_lines context spines = Returned mesh ->
  (k < length (spine_lengths spines))%nat ->
  let n := spine_length_of spines k in
  let v := first_vertex spines k in
  let pairs := n + (if closed spines then 1 else 0) in
  let total := spine_total (vertices spines) (closed spines) v n in
  2 <= n /\
  exists raw,
    zlength raw = 2 * pairs /\
    (forall j, 0 <= j < 2 * pairs ->
       u_along_curve (nth (Z.to_nat j) raw no_annotation) =
       raw_distance (vertices spines) v n (j / 2)) /\
    (forall j, 0 <= j < 2 * pairs ->
       annotation_at mesh (first_output spines k + j) =
       nth (Z.to_nat j)
           (fix_up_u (u_mode (config context)) (to_uint16 pairs)
              (F32.div (F32.of_Z 1) total) (F32.div (F32.of_Z 1) (F32.of_Z n)) raw)
           no_annotation).
Proof.
  intros Hvalid Hret Hk; cbn zeta.
  destruct (returned_spine_blocks context spines mesh k Hvalid Hret Hk)
    as (Hn & _ & _ & _ & Hann & _).
  cbn zeta in Hann.
  destruct (draw_spine_distances (thickness (config context)) (closed spines)
              (wireframe (config context)) (u_mode (config context))
              (vertices spines) (spine_length_of spines k)
              (first_vertex spines k) (first_output spines k) ltac:(lia))
    as (_ & raw & E & Lraw & Hraw).
  assert (Hsv : spine_vertices (closed spines) (spine_length_of spines k) =
                2 * (spine_length_of spines k + (if closed spines then 1 else 0)))
    by (unfold spine_vertices; destruct (closed spines); lia).
  rewrite Hsv in Lraw, Hraw.
  split; [lia|]. exists raw. split; [exact Lraw|]. split; [exact Hraw|].
  intros j Hj. rewrite Hann, E; [reflexivity|].
  rewrite E. unfold zlength. rewrite length_fix_up_u. fold (zlength raw). lia.
Qed.

(** X4. In DISTANCE mode the [u_along_curve] of both vertices of the
    pair of point [i] of a spine is the length of the polyline from the
    first point of the spine to that point, summed in [float] from the
    first segment on, 0 at the first point; the seam pair of a closed
    spine repeats the value of the last point. *)
Theorem distance_mode_u {libm : Libm} context spines mesh k i :
  valid_spine_list spines ->
  par_streamlines_draw_lines context spines = Returned mesh ->
  u_mode (config context) = PAR_U_MODE_DISTANCE ->
  (k < length (spine_lengths spines))%nat ->
  let n := spine_length_of spines k in
  let o := first_output spines k in
  let v := first_vertex spines k in
  0 <= i < n + (if closed spines then 1 else 0) ->
  u_along_curve (annotation_at mesh (o + 2 * i)) =
    arc_length (vertices spines) v (Z.to_nat (Z.min i (n - 1))) /\
  u_along_curve (annotation_at mesh (o + 2 * i + 1)) =
    arc_length (vertices spines) v (Z.to_nat (Z.min i (n - 1))).
Proof.
  intros Hvalid Hret Hmode Hk; cbn zeta; intros Hi.
  destruct (returned_spine_u context spines mesh k Hvalid Hret Hk)
    as (Hn & raw & Lraw & Hraw & Hann).
  rewrite <- Z.add_assoc, !Hann by lia.
  rewrite Hmode. unfold fix_up_u.
  rewrite !Hraw by lia. unfold raw_distance.
  rewrite (Z.mul_comm 2 i), Z.div_mul, Z.div_add_l by lia.
  change (1 / 2) with 0. rewrite Z.add_0_r. split; reflexivity.
Qed.

Lemma closed_square_valid : valid_spine_list (one_spine unit_square true).
Proof.
  unfold valid_spine_list, well_formed, one_spine, unit_square, zlength,
    UINT16_MOD, UINT32_MOD; cbn.
  repeat split; try lia; repeat constructor; lia.
Qed.

Lemma closed_square_returned m :
  par_streamlines_draw_lines (libm := ref_libm)
    (par_streamlines_create_context (simple_config 1 false m))
    (one_spine unit_square true)
  = Returned (mesh_of (par_streamlines_draw_lines (libm := ref_libm)
                         (par_streamlines_create_context (simple_config 1 false m))
                         (one_spine unit_square true))).
Proof. destruct m; vm_compute; reflexivity. Qed.

Lemma distance_mode_u_witness :
  let mesh :=
    mesh_of (par_streamlines_draw_lines (libm := ref_libm)
               (par_streamlines_create_context
                  (simple_config 1 false PAR_U_MODE_DISTANCE))
               (one_spine unit_square true)) in
  u_along_curve (annotation_at mesh (0 + 2 * 4)) = F32.of_Z 3 /\
  u_along_curve (annotation_at mesh (0 + 2 * 3)) = F32.of_Z 3.
Proof.
  intros mesh.
  pose proof (distance_mode_u (libm := ref_libm)
                (par_streamlines_create_context
                   (simple_config 1 false PAR_U_MODE_DISTANCE))
                (one_spine unit_square true) mesh 0) as H.
  split.
  - refine (eq_trans (proj1 (H 4 closed_square_valid
                               (closed_square_returned PAR_U_MODE_DISTANCE)
                               eq_refl (Nat.lt_0_succ 0) _)) _).
    + vm_compute. split; [discriminate|reflexivity].
    + vm_compute. reflexivity.
  - refine (eq_trans (proj1 (H 3 closed_square_valid
                               (closed_square_returned PAR_U_MODE_DISTANCE)
                               eq_refl (Nat.lt_0_succ 0) _)) _).
    + vm_compute. split; [discriminate|reflexivity].
    + vm_compute. reflexivity.
Defined.

(** X5. In NORMALIZED_DISTANCE mode, for every spine whose number of
    pairs fits in [uint16_t], the [u_along_curve] of the pair of point
    [i] is the arc length to that point times [1.0f / total], where
    [total] is what the code takes for the length of the spine: the
    length of the open polyline, plus, for a closed spine, the length of
    the first segment.  The seam pair of a closed spine has the arc
    length of the last point. *)
Theorem normalized_mode_u {libm : Libm} context spines mesh k i :
  valid_spine_list spines ->
  par_streamlines_draw_lines context spines = Returned mesh ->
  u_mode (config context) = PAR_U_MODE_NORMALIZED_DISTANCE ->
  (k < length (spine_lengths spines))%nat ->
  let n := spine_length_of spines k in
  let o := first_output spines k in
  let v := first_vertex spines k in
  let pairs := n + (if closed spines then 1 else 0) in
  let open := arc_length (vertices spines) v (Z.to_nat (n - 1)) in
  let total :=
    if closed spines
    then F32.add open (seg_length (src (vertices spines) v)
                                  (src (vertices spines) (v + 1)))
    else open in
  let u :=
    F32.mul (arc_length (vertices spines) v (Z.to_nat (Z.min i (n - 1))))
            (F32.div (F32.of_Z 1) total) in
  pairs < UINT16_MOD ->
  0 <= i < pairs ->
  u_along_curve (annotation_at mesh (o + 2 * i)) = u /\
  u_along_curve (annotation_at mesh (o + 2 * i + 1)) = u.
Proof.
  intros Hvalid Hret Hmode Hk; cbn zeta; intros Hfit Hi.
  destruct (returned_spine_u context spines mesh k Hvalid Hret Hk)
    as (Hn & raw & Lraw & Hraw & Hann).
  rewrite <- Z.add_assoc, !Hann by lia.
  rewrite Hmode. unfold fix_up_u, to_uint16.
  rewrite Z.mod_small by (destruct (closed spines); lia).
  match goal with
  | |- context [rewind_and_fix ?f _ _] =>
      destruct (rewind_and_fix_pair f _ raw i no_annotation Lraw Hi) as (H0 & H1)
  end.
  cbv beta in H0, H1. rewrite H0, H1, !Hraw by lia.
  unfold raw_distance, spine_total.
  rewrite (Z.mul_comm 2 i), Z.div_mul, Z.div_add_l by lia.
  change (1 / 2) with 0. rewrite Z.add_0_r. split; reflexivity.
Qed.

Lemma normalized_mode_u_witness :
  let mesh :=
    mesh_of (par_streamlines_draw_lines (libm := ref_libm)
               (par_streamlines_create_context
                  (simple_config 1 false PAR_U_MODE_NORMALIZED_DISTANCE))
               (one_spine unit_square true)) in
  u_along_curve (annotation_at mesh (0 + 2 * 4)) =
    F32.div (F32.of_Z 3) (F32.of_Z 4).
Proof.
  intros mesh.
  refine (eq_trans (proj1 (normalized_mode_u (libm := ref_libm)
                             (par_streamlines_create_context
                                (simple_config 1 false PAR_U_MODE_NORMALIZED_DISTANCE))
                             (one_spine unit_square true) mesh 0 4
                             closed_square_valid
                             (closed_square_returned PAR_U_MODE_NORMALIZED_DISTANCE)
                             eq_refl (Nat.lt_0_succ 0) _ _)) _).
  - reflexivity.
  - vm_compute. split; [discriminate|reflexivity].
  - vm_compute. reflexivity.
Defined.

(** X6. In SEGMENT_INDEX mode, for every spine whose number of pairs
    fits in [uint16_t], both vertices of the pair [i] of the spine carry
    the index [i] as a [float], the seam pair of a closed spine carries
    the number of points. *)
Theorem segment_index_u {libm : Libm} context spines mesh k i :
  valid_spine_list spines ->
  par_streamlines_draw_lines context spines = Returned mesh ->
  u_mode (config context) = PAR_U_MODE_SEGMENT_INDEX ->
  (k < length (spine_lengths spines))%nat ->
  let n := spine_length_of spines k in
  let o := first_output spines k in
  let pairs := n + (if closed spines then 1 else 0) in
  pairs < UINT16_MOD ->
  0 <= i < pairs ->
  u_along_curve (annotation_at mesh (o + 2 * i)) = F32.of_Z i /\
  u_along_curve (annotation_at mesh (o + 2 * i + 1)) = F32.of_Z i.
Proof.
  intros Hvalid Hret Hmode Hk; cbn zeta; intros Hfit Hi.
  destruct (returned_spine_u context spines mesh k Hvalid Hret Hk)
    as (Hn & raw & Lraw & Hraw & Hann).
  rewrite <- Z.add_assoc, !Hann by lia.
  rewrite Hmode. unfold fix_up_u, to_uint16.
  rewrite Z.mod_small by (destruct (closed spines); lia).
  match goal with
  | |- context [rewind_and_fix ?f _ _] =>
      exact (rewind_and_fix_pair f _ raw i no_annotation Lraw Hi)
  end.
Qed.

Lemma segment_index_u_witness :
  let mesh :=
    mesh_of (par_streamlines_draw_lines (libm := ref_libm)
               (par_streamlines_create_context
                  (simple_config 1 false PAR_U_MODE_SEGMENT_INDEX))
               (one_spine unit_square true)) in
  u_along_curve (annotation_at mesh (0 + 2 * 4)) = F32.of_Z 4 /\
  u_along_curve (annotation_at mesh (0 + 2 * 4 + 1)) = F32.of_Z 4.
Proof.
  intros mesh.
  refine (segment_index_u (libm := ref_libm)
            (par_streamlines_create_context
               (simple_config 1 false PAR_U_MODE_SEGMENT_INDEX))
            (one_spine unit_square true) mesh 0 4
            closed_square_valid
            (closed_square_returned PAR_U_MODE_SEGMENT_INDEX)
            eq_refl (Nat.lt_0_succ 0) _ _).
  - reflexivity.
  - vm_compute. split; [discriminate|reflexivity].
Defined.
(* ================================================================== *)
(** ** vertex_lengths *)

Lemma zlength_repeat {A} (a : A) n : 0 <= n -> zlength (repeat a (Z.to_nat n)) = n.
Proof. intros Hn. unfold zlength. rewrite repeat_length. lia. Qed.

Lemma draw_spines_lengths_count {libm : Libm} thickness closed wireframe u_mode vertices lens :
  forall s b,
  Forall (fun n => 1 < n) lens ->
  zlength (sp_lengths (draw_spines thickness closed wireframe u_mode vertices lens s b)) =
  lengths_written closed lens.
Proof.
  unfold lengths_written.
  induction lens as [|n rest IH]; intros s b Hall; [reflexivity|].
  inversion Hall as [|? ? Hn Hrest]; subst.
  cbn [draw_spines sp_lengths map Zsum].
  rewrite zlength_app, IH by assumption.
  destruct (draw_spine_distances thickness closed wireframe u_mode vertices n s b
              ltac:(lia)) as (E & _).
  cbn zeta in E. rewrite E.
  pose proof (Z.mod_pos_bound (n + (if closed then 1 else 0)) 65536 ltac:(lia)).
  unfold to_uint16, UINT16_MOD. rewrite zlength_repeat by lia. lia.
Qed.

Lemma lengths_written_le closed lens :
  Forall (fun n => 1 < n) lens ->
  lengths_written closed lens <= total_vertices closed lens /\
  (closed = true -> In 65535 lens ->
   lengths_written closed lens < total_vertices closed lens) /\
  (Forall (fun n => n + (if closed then 1 else 0) < 65536) lens ->
   lengths_written closed lens = total_vertices closed lens).
Proof.
  unfold lengths_written, total_vertices.
  induction 1 as [|n rest Hn _ IH]; cbn [map Zsum].
  - split; [lia|]. split; [intros _ Hin; destruct Hin|reflexivity].
  - destruct IH as (Hle & Hlt & Heq).
    assert (Hmod : (n + (if closed then 1 else 0)) mod 65536
                   <= n + (if closed then 1 else 0))
      by (apply Z.mod_le; destruct closed; lia).
    assert (Hsv : spine_vertices closed n = 2 * (n + (if closed then 1 else 0)))
      by (unfold spine_vertices; destruct closed; lia).
    rewrite Hsv. split; [lia|]. split.
    + intros Hc [->|Hin].
      * subst closed. change ((65535 + 1) mod 65536) with 0. lia.
      * specialize (Hlt Hc Hin). lia.
    + intros Hall. inversion Hall as [|? ? Hfit Hrest]; subst.
      rewrite Z.mod_small by (destruct closed; lia).
      rewrite (Heq Hrest). reflexivity.
Qed.

(** Without a closed spine of 65535 points, where the lengths of spine
    [k] are written. *)
Lemma draw_spines_lengths_nth {libm : Libm} thickness (closed : bool) wireframe u_mode
    vertices lens :
  forall k s b j,
  Forall (fun n => 1 < n) lens ->
  Forall (fun n => n + (if closed then 1 else 0) < 65536) lens ->
  (k < length lens)%nat ->
  0 <= j < spine_vertices closed (nth k lens 0) ->
  nth (Z.to_nat (total_vertices closed (firstn k lens) + j))
      (sp_lengths (draw_spines thickness closed wireframe u_mode vertices lens s b))
      S754_nan =
  spine_total vertices closed (s + Zsum (firstn k lens)) (nth k lens 0).
Proof.
  unfold total_vertices.
  induction lens as [|n rest IH]; intros k s b j Hall Hfit Hk Hj;
    [cbn in Hk; lia|].
  inversion Hall as [|? ? Hn Hrest]; subst.
  inversion Hfit as [|? ? Hfn Hfrest]; subst.
  cbn [draw_spines sp_lengths].
  destruct (draw_spine_distances thickness closed wireframe u_mode vertices n s b
              ltac:(lia)) as (E & _).
  destruct (draw_spine_sizes thickness closed wireframe u_mode vertices n s b
              ltac:(lia)) as (Hs & _).
  cbn zeta in E. rewrite E, Hs.
  unfold to_uint16, UINT16_MOD.
  rewrite Z.mod_small by (destruct closed; lia).
  assert (Hsv : (n + (if closed then 1 else 0)) * 2 = spine_vertices closed n)
    by (unfold spine_vertices; destruct closed; lia).
  rewrite Hsv.
  pose proof (spine_vertices_pos closed n Hn) as Hpos.
  destruct k as [|k]; cbn [firstn map Zsum nth] in *.
  - rewrite Z.add_0_r, Z.add_0_l, app_nth1 by (rewrite repeat_length; lia).
    apply nth_repeat_lt. lia.
  - cbn [length] in Hk.
    assert (H0 : 0 <= Zsum (map (spine_vertices closed) (firstn k rest))).
    { pose proof (totals_bounds closed (firstn k rest)
                    (Forall_sublist_firstn _ k _ Hrest)) as Hb.
      unfold total_vertices in Hb. lia. }
    rewrite app_nth2 by (rewrite repeat_length; lia).
    rewrite repeat_length.
    replace (Z.to_nat (spine_vertices closed n +
                       Zsum (map (spine_vertices closed) (firstn k rest)) + j)
             - Z.to_nat (spine_vertices closed n))%nat
      with (Z.to_nat (Zsum (map (spine_vertices closed) (firstn k rest)) + j)) by lia.
    rewrite IH by (assumption || lia).
    f_equal. lia.
Qed.

(** X7. When no closed spine has 65535 points, [vertex_lengths] has one
    entry per vertex of the mesh, and every entry of a spine is what the
    code takes for the length of that spine: the length of the open
    polyline, summed in [float] from the first segment on, plus, when
    the spines are closed, the length of the first segment. *)
Theorem vertex_lengths_per_spine {libm : Libm} context spines mesh k j :
  valid_spine_list spines ->
  par_streamlines_draw_lines context spines = Returned mesh ->
  closed spines = false \/ Forall (fun n => n < 65535) (spine_lengths spines) ->
  (k < length (spine_lengths spines))%nat ->
  let n := spine_length_of spines k in
  let v := first_vertex spines k in
  let open := arc_length (vertices spines) v (Z.to_nat (n - 1)) in
  0 <= j < (if closed spines then 2 * n + 2 else 2 * n) ->
  zlength (vertex_lengths mesh) = num_vertices mesh /\
  length_at mesh (first_output spines k + j) =
    if closed spines
    then F32.add open (seg_length (src (vertices spines) v)
                                  (src (vertices spines) (v + 1)))
    else open.
Proof.
  intros Hvalid Hret Hnowrap Hk; cbn zeta; intros Hj.
  destruct (returned_mesh_sizes context spines mesh Hvalid Hret) as (Hv & _).
  destruct Hvalid as (Hwf & Hall & Hsum).
  destruct (draw_lines_returned context spines Hwf mesh Hret)
    as (Hrange & _ & _ & _ & E).
  assert (Hfit : Forall (fun n => n + (if closed spines then 1 else 0) < 65536)
                        (spine_lengths spines)).
  { destruct Hnowrap as [Hc|Hlt].
    - rewrite Hc. eapply Forall_impl; [|exact Hrange].
      unfold UINT16_MOD; cbn; intros; lia.
    - eapply Forall_impl; [|exact Hlt]. cbn; intros; destruct (closed spines); lia. }
  split.
  - rewrite Hv, E; cbn [vertex_lengths]. unfold written.
    rewrite draw_spines_lengths_count by exact Hall.
    apply lengths_written_le; assumption.
  - unfold length_at. rewrite E; cbn [vertex_lengths]. unfold written, first_output.
    rewrite draw_spines_lengths_nth; try assumption.
    rewrite Z.add_0_l. reflexivity.
Qed.

Lemma closed_triangle_valid : valid_spine_list (one_spine triangle_345 true).
Proof.
  unfold valid_spine_list, well_formed, one_spine, triangle_345, zlength,
    UINT16_MOD, UINT32_MOD; cbn.
  repeat split; try lia; repeat constructor; lia.
Qed.

Lemma vertex_lengths_per_spine_witness :
  let mesh :=
    mesh_of (par_streamlines_draw_lines (libm := ref_libm) header_context
               (one_spine triangle_345 true)) in
  zlength (vertex_lengths mesh) = num_vertices mesh /\
  length_at mesh (0 + 7) = F32.of_Z 10.
Proof.
  intros mesh.
  assert (Hret : par_streamlines_draw_lines (libm := ref_libm) header_context
                   (one_spine triangle_345 true) = Returned mesh)
    by (vm_compute; reflexivity).
  destruct (vertex_lengths_per_spine (libm := ref_libm) header_context
              (one_spine triangle_345 true) mesh 0 7 closed_triangle_valid Hret)
    as (H0 & H1).
  - right. repeat constructor.
  - apply Nat.lt_0_succ.
  - vm_compute. split; [discriminate|reflexivity].
  - split; [exact H0|]. refine (eq_trans H1 _). vm_compute. reflexivity.
Defined.

(** X8. [vertex_lengths] gets two entries per turn of a loop whose bound
    [nverts] is a [uint16_t]: 2 * ((n + 1) mod 65536) entries for a
    closed spine of [n] points, so that a closed spine of 65535 points
    gets none and [vertex_lengths] is shorter than [num_vertices]. *)
Theorem vertex_lengths_count {libm : Libm} context spines mesh :
  valid_spine_list spines ->
  par_streamlines_draw_lines context spines = Returned mesh ->
  zlength (vertex_lengths mesh) =
    Zsum (map (fun n => 2 * ((n + (if closed spines then 1 else 0)) mod 65536))
              (spine_lengths spines)) /\
  zlength (vertex_lengths mesh) <= num_vertices mesh /\
  (closed spines = true -> In 65535 (spine_lengths spines) ->
   zlength (vertex_lengths mesh) < num_vertices mesh).
Proof.
  intros Hvalid Hret.
  destruct (returned_mesh_sizes context spines mesh Hvalid Hret) as (Hv & _).
  destruct Hvalid as (Hwf & Hall & Hsum).
  destruct (draw_lines_returned context spines Hwf mesh Hret)
    as (_ & _ & _ & _ & E).
  assert (Hlen : zlength (vertex_lengths mesh) =
                 lengths_written (closed spines) (spine_lengths spines)).
  { rewrite E; cbn [vertex_lengths]. unfold written.
    apply draw_spines_lengths_count. exact Hall. }
  destruct (lengths_written_le (closed spines) (spine_lengths spines) Hall)
    as (Hle & Hlt & _).
  rewrite Hlen, Hv. split; [reflexivity|]. split; [exact Hle|exact Hlt].
Qed.

Lemma vertex_lengths_count_witness :
  let mesh :=
    mesh_of (par_streamlines_draw_lines (libm := ref_libm) header_context
               (two_spines true)) in
  zlength (vertex_lengths mesh) = 2 * ((3 + 1) mod 65536) + (2 * ((2 + 1) mod 65536) + 0).
Proof.
  intros mesh.
  exact (proj1 (vertex_lengths_count (libm := ref_libm) header_context
                  (two_spines true) mesh (two_spines_valid true)
                  (two_spines_returned true))).
Defined.
(* ================================================================== *)
(** ** What the wireframe flag and the u-mode change *)

Lemma interior_loop_geometry {libm : Libm} thickness w w' vertices b turns :
  forall c c',
  same_geometry c c' ->
  same_geometry (interior_loop thickness w vertices b turns c)
                (interior_loop thickness w' vertices b turns c').
Proof.
  induction turns as [|turns IH]; intros c c' Hc; [exact Hc|].
  cbn [interior_loop]. apply IH.
  destruct Hc as (Hs & Hx & Hy & Hd & Hp & Ha).
  unfold same_geometry, interior_step;
    cbn [src_position pnx pny distance_along_spine dst_positions dst_annotations].
  rewrite Hs, Hx, Hy, Hd, Hp, Ha. repeat split; reflexivity.
Qed.

(** One spine under two settings of the wireframe flag and the u-mode. *)
Lemma draw_spine_geometry {libm : Libm} thickness closed w w' u u' vertices n s b :
  let d := draw_spine thickness closed w u vertices n s b in
  let d' := draw_spine thickness closed w' u' vertices n s b in
  sp_positions d = sp_positions d' /\
  sp_lengths d = sp_lengths d' /\
  sp_src_position d = sp_src_position d' /\
  exists raw nverts invlength invcount,
    sp_annotations d = fix_up_u u nverts invlength invcount raw /\
    sp_annotations d' = fix_up_u u' nverts invlength invcount raw.
Proof.
  cbn zeta. unfold draw_spine.
  match goal with
  | |- context [interior_loop thickness w vertices b ?turns ?c] =>
      destruct (interior_loop_geometry thickness w w' vertices b turns c c)
        as (Hs & Hx & Hy & Hd & Hp & Ha);
      [repeat split|];
      set (c1 := interior_loop thickness w vertices b turns c) in *;
      set (c1' := interior_loop thickness w' vertices b turns c) in *
  end.
  destruct closed;
    cbn [sp_positions sp_lengths sp_src_position sp_annotations src_position
         distance_along_spine dst_positions dst_annotations];
    rewrite Hs, Hx, Hy, Hd, Hp, Ha;
    (split; [reflexivity|]); (split; [reflexivity|]); (split; [reflexivity|]);
    eexists; eexists; eexists; eexists; split; reflexivity.
Qed.

Lemma draw_spines_geometry {libm : Libm} thickness closed w w' u u' vertices lens :
  forall s b,
  let d := draw_spines thickness closed w u vertices lens s b in
  let d' := draw_spines thickness closed w' u' vertices lens s b in
  sp_positions d = sp_positions d' /\
  sp_lengths d = sp_lengths d' /\
  map spine_to_edge (sp_annotations d) = map spine_to_edge (sp_annotations d') /\
  map v_across_curve (sp_annotations d) = map v_across_curve (sp_annotations d') /\
  (u = u' -> sp_annotations d = sp_annotations d').
Proof.
  induction lens as [|n rest IH]; intros s b; cbn zeta.
  - cbn. repeat split; reflexivity.
  - cbn [draw_spines sp_positions sp_lengths sp_annotations].
    destruct (draw_spine_geometry thickness closed w w' u u' vertices n s b)
      as (Hp & Hl & Hs & raw & nverts & il & ic & Ea & Ea').
    cbn zeta in Hp, Hl, Hs. rewrite Hp, Hl, Hs.
    destruct (IH (sp_src_position (draw_spine thickness closed w' u' vertices n s b))
                 (next_base_index closed b n))
      as (Hp' & Hl' & Ho' & Hv' & Hu').
    cbn zeta in Hp', Hl', Ho', Hv'. rewrite Hp', Hl'.
    rewrite !map_app, Ho', Hv', Ea, Ea', !offsets_fix_up_u, !sides_fix_up_u.
    repeat split; try reflexivity.
    intros Hu. subst u'. rewrite (Hu' eq_refl). reflexivity.
Qed.

Lemma strip_spines {libm : Libm} thickness thickness' closed w u u' vertices lens :
  forall s s' b,
  Forall (fun n => 1 < n < UINT16_MOD) lens ->
  sp_indices (draw_spines thickness closed w u vertices lens s b) =
  sp_indices (draw_spines thickness' closed w u' vertices lens s' b).
Proof.
  induction lens as [|n rest IH]; intros s s' b Hall; [reflexivity|].
  inversion Hall as [|? ? Hn Hrest]; subst.
  cbn [draw_spines sp_indices].
  rewrite !draw_spine_strip by lia.
  f_equal. apply IH. exact Hrest.
Qed.

(** X9. For one spine list and two contexts of the same thickness, the
    returned meshes have the same positions, the same [vertex_lengths],
    the same [spine_to_edge] and [v_across_curve] and the same counts,
    whatever the wireframe flags and the u-modes: the u-mode changes
    [u_along_curve] only, and the wireframe flag the index buffer only. *)
Theorem modes_keep_geometry {libm : Libm} context context' spines mesh mesh' :
  valid_spine_list spines ->
  thickness (config context) = thickness (config context') ->
  par_streamlines_draw_lines context spines = Returned mesh ->
  par_streamlines_draw_lines context' spines = Returned mesh' ->
  num_vertices mesh = num_vertices mesh' /\
  num_triangles mesh = num_triangles mesh' /\
  vertex_positions mesh = vertex_positions mesh' /\
  vertex_lengths mesh = vertex_lengths mesh' /\
  map spine_to_edge (vertex_annotations mesh) =
    map spine_to_edge (vertex_annotations mesh') /\
  map v_across_curve (vertex_annotations mesh) =
    map v_across_curve (vertex_annotations mesh') /\
  (u_mode (config context) = u_mode (config context') ->
   vertex_annotations mesh = vertex_annotations mesh') /\
  (wireframe (config context) = wireframe (config context') ->
   triangle_indices mesh = triangle_indices mesh').
Proof.
  intros (Hwf & Hall & Hsum) Ht Hret Hret'.
  destruct (draw_lines_returned context spines Hwf mesh Hret)
    as (Hrange & _ & _ & _ & ->).
  destruct (draw_lines_returned context' spines Hwf mesh' Hret')
    as (_ & _ & _ & _ & ->).
  cbn [num_vertices num_triangles vertex_positions vertex_lengths
       vertex_annotations triangle_indices].
  unfold written. rewrite <- Ht.
  destruct (draw_spines_geometry (thickness (config context)) (closed spines)
              (wireframe (config context)) (wireframe (config context'))
              (u_mode (config context)) (u_mode (config context'))
              (vertices spines) (spine_lengths spines) 0 0)
    as (Hp & Hl & Ho & Hv & Hu).
  cbn zeta in Hp, Hl, Ho, Hv, Hu.
  repeat split; try assumption.
  intros Hw. rewrite <- Hw. apply strip_spines. exact Hrange.
Qed.

Lemma modes_keep_geometry_witness :
  let mesh := mesh_of (par_streamlines_draw_lines (libm := ref_libm)
                         header_context (two_spines true)) in
  let mesh' :=
    mesh_of (par_streamlines_draw_lines (libm := ref_libm)
               (par_streamlines_create_context
                  (simple_config 3 true PAR_U_MODE_SEGMENT_INDEX))
               (two_spines true)) in
  vertex_positions mesh = vertex_positions mesh' /\
  vertex_lengths mesh = vertex_lengths mesh'.
Proof.
  intros mesh mesh'.
  assert (Hret' : par_streamlines_draw_lines (libm := ref_libm)
                    (par_streamlines_create_context
                       (simple_config 3 true PAR_U_MODE_SEGMENT_INDEX))
                    (two_spines true) = Returned mesh')
    by (vm_compute; reflexivity).
  destruct (modes_keep_geometry (libm := ref_libm) header_context
              (par_streamlines_create_context
                 (simple_config 3 true PAR_U_MODE_SEGMENT_INDEX))
              (two_spines true) mesh mesh' (two_spines_valid true) eq_refl
              (two_spines_returned true) Hret')
    as (_ & _ & Hp & Hl & _).
  split; assumption.
Defined.
(* ================================================================== *)
(** ** The seam pair of a closed spine *)

Lemma seam_positions_copy {libm : Libm} context spines mesh k :
  valid_spine_list spines ->
  par_streamlines_draw_lines context spines = Returned mesh ->
  closed spines = true ->
  (k < length (spine_lengths spines))%nat ->
  let n := spine_length_of spines k in
  let o := first_output spines k in
  position_at mesh (o + 2 * n) = position_at mesh (o + 2 * 0) /\
  position_at mesh (o + 2 * n + 1) = position_at mesh (o + 2 * 0 + 1).
Proof.
  intros Hvalid Hret Hclosed Hk; cbn zeta.
  pose proof (spine_length_of_valid spines k Hvalid Hk) as Hn.
  destruct (spine_block_positions context spines mesh k Hvalid Hret Hk)
    as (b & Hblk).
  cbn zeta in Hblk.
  destruct (draw_spine_positions (thickness (config context)) (closed spines)
              (wireframe (config context)) (u_mode (config context))
              (vertices spines) (spine_length_of spines k)
              (first_vertex spines k) b Hn) as (body & E & Lbody).
  cbn zeta in E. rewrite E in Hblk. rewrite Hclosed in Hblk, Lbody.
  cbv beta iota in Hblk, Lbody. unfold edge_pair in Hblk.
  match type of Hblk with
  | context [[?a0; ?a1] ++ body ++ [?l0; ?l1]] =>
      destruct (nth_ends a0 a1 l0 l1 body _ origin Lbody)
        as (L & N0 & N1 & N2 & N3)
  end.
  cbn zeta in L, N0, N1, N2, N3.
  replace (2 * spine_length_of spines k - 2 + 2)
    with (2 * spine_length_of spines k) in N2, N3 by lia.
  pose proof (Hblk 0 ltac:(lia)) as H0.
  pose proof (Hblk 1 ltac:(lia)) as H1.
  pose proof (Hblk (2 * spine_length_of spines k) ltac:(lia)) as H2.
  pose proof (Hblk (2 * spine_length_of spines k + 1) ltac:(lia)) as H3.
  rewrite Z.add_0_r in H0. rewrite Z.add_assoc in H3.
  rewrite Z.mul_0_r, Z.add_0_r.
  rewrite H0, H1, H2, H3, N0, N1, N2, N3. split; reflexivity.
Qed.

(** X10. The seam pair of a closed spine of n points (the pair written
    after the pair of the last point) lies where the first pair lies, at
    the first point plus and minus the joint of the first point, but the
    offset it stores in [spine_to_edge] is the joint of the LAST point
    and its opposite. *)
Theorem seam_pair_joints {libm : Libm} context spines mesh k :
  valid_spine_list spines ->
  par_streamlines_draw_lines context spines = Returned mesh ->
  closed spines = true ->
  (k < length (spine_lengths spines))%nat ->
  let n := spine_length_of spines k in
  let o := first_output spines k in
  let joint := joint_offset (thickness (config context)) true
                 (vertices spines) (first_vertex spines k) n in
  let p := src (vertices spines) (first_vertex spines k) in
  position_at mesh (o + 2 * n) =
    {| x := F32.add (x p) (fst (joint 0)); y := F32.add (y p) (snd (joint 0)) |} /\
  position_at mesh (o + 2 * n + 1) =
    {| x := F32.sub (x p) (fst (joint 0)); y := F32.sub (y p) (snd (joint 0)) |} /\
  spine_to_edge (annotation_at mesh (o + 2 * n)) = joint (n - 1) /\
  spine_to_edge (annotation_at mesh (o + 2 * n + 1)) =
    opposite (joint (n - 1)).
Proof.
  intros Hvalid Hret Hclosed Hk; cbn zeta.
  pose proof (spine_length_of_valid spines k Hvalid Hk) as Hn.
  destruct (seam_positions_copy context spines mesh k Hvalid Hret Hclosed Hk)
    as (P0 & P1).
  destruct (seam_offset_is_last_joint context spines mesh k Hvalid Hret Hclosed Hk)
    as (S0 & S1).
  cbn zeta in P0, P1, S0, S1.
  destruct (returned_spine_blocks context spines mesh k Hvalid Hret Hk)
    as (_ & _ & _ & _ & Hann & _).
  cbn zeta in Hann.
  destruct (draw_spine_sizes (thickness (config context)) (closed spines)
              (wireframe (config context)) (u_mode (config context))
              (vertices spines) (spine_length_of spines k)
              (first_vertex spines k) (first_output spines k) ltac:(lia))
    as (_ & _ & La & _).
  cbn zeta in La.
  assert (Hsv : 2 * spine_length_of spines k
                <= spine_vertices (closed spines) (spine_length_of spines k))
    by (unfold spine_vertices; destruct (closed spines); lia).
  assert (He : forall i, 0 <= i < spine_length_of spines k ->
               spine_to_edge (annotation_at mesh (first_output spines k + 2 * i)) =
               joint_offset (thickness (config context)) true
                 (vertices spines) (first_vertex spines k)
                 (spine_length_of spines k) i).
  { intros i Hi. rewrite Hann by lia. rewrite <- Hclosed. apply draw_spine_joints; lia. }
  destruct (point_pairs_store_their_offset context spines mesh k 0 Hvalid Hret Hk
              ltac:(lia)) as (H0 & H1 & _).
  destruct (point_pairs_store_their_offset context spines mesh k
              (spine_length_of spines k - 1) Hvalid Hret Hk ltac:(lia))
    as (_ & _ & Hopp).
  cbn zeta in H0, H1, Hopp.
  rewrite (He 0) in H0, H1 by lia.
  rewrite (He (spine_length_of spines k - 1)) in Hopp by lia.
  rewrite Z.add_0_r in H0, H1.
  replace (first_vertex spines k + 0) with (first_vertex spines k) in H0, H1 by lia.
  replace (first_output spines k + 2 * 0) with (first_output spines k) in P0, P1 by lia.
  rewrite (He (spine_length_of spines k - 1)) in S0 by lia.
  rewrite Hopp in S1.
  rewrite P0, P1, S0, S1.
  repeat split; assumption || reflexivity.
Qed.

Lemma seam_pair_joints_witness :
  let spines := two_spines true in
  let mesh := mesh_of (par_streamlines_draw_lines (libm := ref_libm)
                         header_context spines) in
  spine_to_edge (annotation_at mesh (0 + 2 * 3)) =
    joint_offset (libm := ref_libm) (thickness (config header_context)) true
      (vertices spines) 0 3 (3 - 1).
Proof.
  intros spines mesh.
  exact (proj1 (proj2 (proj2
           (seam_pair_joints (libm := ref_libm) header_context spines mesh 0
              (two_spines_valid true) (two_spines_returned true) eq_refl
              (Nat.lt_0_succ 1))))).
Defined.
(* ================================================================== *)
(** ** Growable arrays *)

Lemma to_int_small z : 0 <= z <= INT_MAX -> to_int z = z.
Proof.
  intros Hz. unfold to_int.
  rewrite to_uint32_small by (unfold INT_MAX, UINT32_MOD in *; lia).
  destruct (z <=? INT_MAX) eqn:E; [reflexivity|].
  apply Z.leb_gt in E. lia.
Qed.

Lemma int_ok_spec z : int_ok z = true <-> INT_MIN <= z <= INT_MAX.
Proof.
  unfold int_ok. rewrite andb_true_iff, !Z.leb_le. reflexivity.
Qed.

(** The size asked of [realloc] for [m] items of [itemsize] bytes, when
    [itemsize] is a multiple of [sizeof(int)]. *)
Lemma growf_bytes itemsize m :
  itemsize mod sizeof_int = 0 ->
  0 <= itemsize * m <= INT_MAX ->
  to_size_t (sizeof_int *
             to_size_t (to_size_t (itemsize * m) / sizeof_int + 2)) =
  2 * sizeof_int + itemsize * m.
Proof.
  unfold sizeof_int, to_size_t, SIZE_MOD, INT_MAX. intros Hs Hm.
  assert (Hdiv : itemsize * m = 4 * (itemsize * m / 4)).
  { apply Z.div_exact; [lia|].
    rewrite <- Z.mul_mod_idemp_l, Hs by lia. reflexivity. }
  rewrite (Z.mod_small (itemsize * m)) by lia.
  rewrite (Z.mod_small (itemsize * m / 4 + 2)) by lia.
  rewrite Z.mod_small by lia. lia.
Qed.

Lemma pa_room_clear itemsize a :
  pa_room itemsize a -> pa_room itemsize (pa_clear a).
Proof.
  destruct a as [b|]; cbn; [|trivial]. intros (Hn & Hm & Hb).
  repeat split; lia.
Qed.

Lemma pa_capacity_clear a : pa_capacity (pa_clear a) = pa_capacity a.
Proof. destruct a; reflexivity. Qed.

Lemma pa_count_clear a : pa_count (pa_clear a) = 0.
Proof. destruct a; reflexivity. Qed.

(** [pa___growf] on an array with room, for an increment that the count
    can take. *)
Lemma growf_room granted a increment itemsize :
  0 < itemsize ->
  itemsize mod sizeof_int = 0 ->
  pa_room itemsize a ->
  0 <= increment ->
  pa_count a + increment <= INT_MAX ->
  let m := Z.max (2 * pa_capacity a) (pa_count a + increment) in
  pa___growf granted a increment itemsize =
    if INT_MAX <? itemsize * m then pa_signed_overflow
    else if granted
    then pa_done {| pa___m := m; pa___n := pa_count a;
                    allocated := 2 * sizeof_int + itemsize * m |}
    else pa_alloc_failed.
Proof.
  intros Hs Hmod Hroom Hinc Hsum; cbn zeta.
  assert (Hc : 0 <= pa_count a <= pa_capacity a /\ pa_capacity a <= INT_MAX).
  { destruct a as [b|]; cbn [pa_room pa_count pa_capacity pa_allocated] in *; unfold INT_MAX in *; lia. }
  unfold pa___growf.
  replace (match a with Some b => 2 * pa___m b | None => 0 end)
    with (2 * pa_capacity a) by (destruct a; reflexivity).
  replace (match a with Some b => pa___n b | None => 0 end)
    with (pa_count a) by (destruct a; reflexivity).
  set (cap := pa_capacity a) in *. set (cnt := pa_count a) in *.
  replace (if 2 * cap >? cnt + increment then 2 * cap else cnt + increment)
    with (Z.max (2 * cap) (cnt + increment))
    by (destruct (2 * cap >? cnt + increment) eqn:E;
        [apply Z.gtb_lt in E|rewrite Z.gtb_ltb in E; apply Z.ltb_ge in E]; lia).
  set (m := Z.max (2 * cap) (cnt + increment)).
  assert (Hm : 0 <= m) by lia.
  destruct (INT_MAX <? itemsize * m) eqn:Ebig.
  - apply Z.ltb_lt in Ebig.
    destruct (int_ok (2 * cap)); cbn [negb]; [|reflexivity].
    destruct (int_ok (cnt + increment)); cbn [negb]; [|reflexivity].
    destruct (int_ok (itemsize * m)) eqn:E; cbn [negb]; [|reflexivity].
    apply int_ok_spec in E. lia.
  - apply Z.ltb_ge in Ebig.
    assert (H2 : int_ok (2 * cap) = true)
      by (apply int_ok_spec; unfold INT_MIN; nia).
    assert (H3 : int_ok (cnt + increment) = true)
      by (apply int_ok_spec; unfold INT_MIN; lia).
    assert (H4 : int_ok (itemsize * m) = true)
      by (apply int_ok_spec; unfold INT_MIN; nia).
    rewrite H2, H3, H4; cbn [negb].
    rewrite growf_bytes by (try assumption; nia).
    reflexivity.
Qed.

Lemma needgrow_room itemsize b n :
  pa_room itemsize (Some b) ->
  0 <= n ->
  pa___n b + n <= INT_MAX ->
  pa___needgrow (Some b) n = negb (pa___n b + n <? pa___m b).
Proof.
  cbn. intros (Hn & Hm & _) H0 Hsum.
  rewrite !to_uint32_small by (unfold INT_MAX, UINT32_MOD in *; lia).
  rewrite Z.geb_leb, Z.ltb_antisym, negb_involutive. reflexivity.
Qed.

(** [pa_add] on an array with room. *)
Lemma pa_add_cases granted a n itemsize :
  0 < itemsize ->
  itemsize mod sizeof_int = 0 ->
  pa_room itemsize a ->
  0 <= n ->
  pa_count a + n <= INT_MAX ->
  let m := Z.max (2 * pa_capacity a) (pa_count a + n) in
  pa_add granted a n itemsize =
    if pa_count a + n <? pa_capacity a
    then pa_done {| pa___m := pa_capacity a; pa___n := pa_count a + n;
                    allocated := pa_allocated a |}
    else if INT_MAX <? itemsize * m then pa_signed_overflow
    else if granted
    then pa_done {| pa___m := m; pa___n := pa_count a + n;
                    allocated := 2 * sizeof_int + itemsize * m |}
    else pa_alloc_failed.
Proof.
  intros Hs Hmod Hroom Hn Hsum; cbn zeta.
  assert (Hc : 0 <= pa_count a <= pa_capacity a /\ pa_capacity a <= INT_MAX).
  { destruct a as [b|]; cbn [pa_room pa_count pa_capacity pa_allocated] in *; unfold INT_MAX in *; lia. }
  assert (Hback : to_int (to_uint32 (pa_count a + n)) = pa_count a + n).
  { rewrite to_uint32_small by (unfold INT_MAX, UINT32_MOD in *; lia).
    apply to_int_small. lia. }
  assert (Hinc : to_int n = n) by (apply to_int_small; lia).
  pose proof (growf_room granted a n itemsize Hs Hmod Hroom Hn Hsum) as Hgrow.
  cbn zeta in Hgrow.
  unfold pa_add, pa___maybegrow.
  destruct a as [b|].
  - rewrite (needgrow_room itemsize b n Hroom Hn Hsum).
    cbn [pa_count pa_capacity pa_allocated] in *.
    destruct (pa___n b + n <? pa___m b) eqn:E; cbn [negb].
    + cbn [pa_bind pa___m pa___n allocated]. rewrite Hback. reflexivity.
    + rewrite Hinc, Hgrow.
      destruct (INT_MAX <? _); [reflexivity|].
      destruct granted; [|reflexivity].
      cbn [pa_bind pa___m pa___n allocated]. rewrite Hback. reflexivity.
  - cbn [pa_count pa_capacity pa_allocated] in *.
    rewrite Hinc, Hgrow.
    replace (0 + n <? 0) with false by (symmetry; apply Z.ltb_ge; lia).
    destruct (INT_MAX <? _); [reflexivity|].
    destruct granted; [|reflexivity].
    cbn [pa_bind pa___m pa___n allocated]. rewrite Hback. reflexivity.
Qed.

(** X11. [pa_add] on an array with room, for a count that stays an
    [int] and items whose size is a multiple of [sizeof(int)]: when the
    new count is below the capacity the block is kept, whatever
    [realloc] would answer; when [realloc] grants and no size leaves the
    range of [int] the call succeeds; and whenever it succeeds the count
    has grown by [n], the array has room again (the block holds its
    capacity, and the count is within it) and the capacity has not
    shrunk. *)
Theorem pa_add_room granted a n itemsize :
  0 < itemsize ->
  itemsize mod sizeof_int = 0 ->
  pa_room itemsize a ->
  0 <= n ->
  pa_count a + n <= INT_MAX ->
  (pa_count a + n < pa_capacity a ->
   pa_add granted a n itemsize =
     pa_done {| pa___m := pa_capacity a; pa___n := pa_count a + n;
                allocated := pa_allocated a |}) /\
  (granted = true -> pa_fits itemsize a (pa_count a + n) ->
   exists b', pa_add granted a n itemsize = pa_done b') /\
  (forall b', pa_add granted a n itemsize = pa_done b' ->
   pa___n b' = pa_count a + n /\
   pa_room itemsize (Some b') /\
   pa_capacity a <= pa___m b').
Proof.
  intros Hs Hmod Hroom Hn Hsum.
  pose proof (pa_add_cases granted a n itemsize Hs Hmod Hroom Hn Hsum) as E.
  cbn zeta in E.
  assert (Hc : 0 <= pa_count a <= pa_capacity a /\ pa_capacity a <= INT_MAX /\
               (pa_count a + n < pa_capacity a ->
                2 * sizeof_int + itemsize * pa_capacity a <= pa_allocated a)).
  { destruct a as [b|]; cbn [pa_room pa_count pa_capacity pa_allocated] in *; unfold INT_MAX in *; lia. }
  split; [|split].
  - intros Hlt. rewrite E.
    replace (pa_count a + n <? pa_capacity a) with true
      by (symmetry; apply Z.ltb_lt; exact Hlt).
    reflexivity.
  - intros -> Hfit. rewrite E. unfold pa_fits in Hfit.
    destruct (pa_count a + n <? pa_capacity a); [eexists; reflexivity|].
    replace (INT_MAX <? _) with false by (symmetry; apply Z.ltb_ge; exact Hfit).
    eexists; reflexivity.
  - intros b' Hdone. rewrite E in Hdone.
    destruct (pa_count a + n <? pa_capacity a) eqn:Elt.
    + apply Z.ltb_lt in Elt. apply (f_equal (fun r => match r with pa_done x => x | _ => b' end)) in Hdone.
      cbv beta iota in Hdone. subst b'.
      lazy beta iota delta [pa_room pa___n pa___m allocated].
      repeat split; lia.
    + apply Z.ltb_ge in Elt.
      destruct (INT_MAX <? _) eqn:Ebig; [discriminate|].
      apply Z.ltb_ge in Ebig.
      destruct granted; [|discriminate].
      apply (f_equal (fun r => match r with pa_done x => x | _ => b' end)) in Hdone.
      cbv beta iota in Hdone. subst b'.
      lazy beta iota delta [pa_room pa___n pa___m allocated].
      set (m := Z.max _ _) in *.
      assert (Hm : 0 <= m <= itemsize * m) by nia.
      repeat split; lia.
Qed.

Lemma pa_add_room_witness :
  pa_add true (Some {| pa___m := 4; pa___n := 3; allocated := 72 |}) 5 16 =
    pa_done {| pa___m := 8; pa___n := 8; allocated := 136 |} /\
  pa___n {| pa___m := 8; pa___n := 8; allocated := 136 |} = 3 + 5.
Proof.
  split; [vm_compute; reflexivity|].
  refine (proj1 (proj2 (proj2
            (pa_add_room true (Some {| pa___m := 4; pa___n := 3; allocated := 72 |})
               5 16 _ _ _ _ _)) _ _)).
  - reflexivity.
  - reflexivity.
  - vm_compute. repeat split; discriminate.
  - discriminate.
  - vm_compute. discriminate.
  - vm_compute. reflexivity.
Defined.

(** [pa_clear] then [pa_add] of [n] items, when [realloc] grants. *)
Lemma pa_clear_add a n itemsize :
  0 < itemsize ->
  itemsize mod sizeof_int = 0 ->
  pa_room itemsize a ->
  0 <= n ->
  pa_fits itemsize a n ->
  exists b',
    pa_add true (pa_clear a) n itemsize = pa_done b' /\
    pa___n b' = n /\
    pa_room itemsize (Some b') /\
    pa_capacity a <= pa___m b'.
Proof.
  intros Hs Hmod Hroom Hn Hfit. unfold pa_fits in Hfit.
  assert (Hc : 0 <= pa_capacity a <= INT_MAX /\
               (n < pa_capacity a ->
                2 * sizeof_int + itemsize * pa_capacity a <= pa_allocated a)).
  { destruct a as [b|]; cbn [pa_room pa_count pa_capacity pa_allocated] in *;
      unfold INT_MAX in *; lia. }
  assert (Hmax : 0 <= Z.max (2 * pa_capacity a) n
                 <= itemsize * Z.max (2 * pa_capacity a) n) by nia.
  assert (Hal : pa_allocated (pa_clear a) = pa_allocated a)
    by (destruct a; reflexivity).
  pose proof (pa_add_cases true (pa_clear a) n itemsize Hs Hmod
                (pa_room_clear _ _ Hroom) Hn) as E.
  rewrite pa_count_clear, pa_capacity_clear, Hal in E.
  specialize (E ltac:(lia)). cbn zeta in E.
  rewrite Z.add_0_l in E. rewrite E.
  destruct (n <? pa_capacity a) eqn:Elt.
  - apply Z.ltb_lt in Elt.
    eexists; split; [reflexivity|].
    lazy beta iota delta [pa_room pa___n pa___m allocated].
    repeat split; lia.
  - apply Z.ltb_ge in Elt.
    replace (INT_MAX <? _) with false by (symmetry; apply Z.ltb_ge; exact Hfit).
    eexists; split; [reflexivity|].
    lazy beta iota delta [pa_room pa___n pa___m allocated].
    repeat split; lia.
Qed.

Lemma returned_lengths_le {libm : Libm} context spines mesh :
  valid_spine_list spines ->
  par_streamlines_draw_lines context spines = Returned mesh ->
  zlength (vertex_lengths mesh) <= num_vertices mesh.
Proof.
  intros Hvalid Hret.
  destruct (returned_mesh_sizes context spines mesh Hvalid Hret) as (Hv & _).
  destruct Hvalid as (Hwf & Hall & Hsum).
  destruct (draw_lines_returned context spines Hwf mesh Hret)
    as (_ & _ & _ & _ & E).
  assert (Hlen : zlength (vertex_lengths mesh) =
                 lengths_written (closed spines) (spine_lengths spines)).
  { rewrite E; cbn [vertex_lengths]. unfold written.
    apply draw_spines_lengths_count. exact Hall. }
  destruct (lengths_written_le (closed spines) (spine_lengths spines) Hall)
    as (Hle & _).
  rewrite Hlen, Hv. exact Hle.
Qed.

(** X12. Before it draws, [par_streamlines_draw_lines] clears the four
    arrays of the context and adds the counts of the mesh to them.  When
    the arrays have room, [realloc] grants what it is asked, and no size
    in bytes leaves the range of [int], this succeeds; the arrays then
    count [num_vertices] positions, annotations and lengths and
    [ind_per_tri * num_triangles] indices, have room again, and each
    block holds everything that the drawing writes to it. *)
Theorem buffers_hold_the_mesh {libm : Libm} context spines mesh b :
  valid_spine_list spines ->
  par_streamlines_draw_lines context spines = Returned mesh ->
  buffers_room b ->
  let num_indices := ind_per_tri (wireframe (config context)) * num_triangles mesh in
  buffers_fit b (num_vertices mesh) num_indices ->
  exists b',
    size_buffers true true true true b (wireframe (config context))
      (num_vertices mesh) (num_triangles mesh) = pa_done b' /\
    pa_count (vertex_positions_buffer b') = num_vertices mesh /\
    pa_count (vertex_annotations_buffer b') = num_vertices mesh /\
    pa_count (vertex_lengths_buffer b') = num_vertices mesh /\
    pa_count (triangle_indices_buffer b') = num_indices /\
    buffers_room b' /\
    2 * sizeof_int + sizeof_position * zlength (vertex_positions mesh)
      <= pa_allocated (vertex_positions_buffer b') /\
    2 * sizeof_int + sizeof_annotation * zlength (vertex_annotations mesh)
      <= pa_allocated (vertex_annotations_buffer b') /\
    2 * sizeof_int + sizeof_float * zlength (vertex_lengths mesh)
      <= pa_allocated (vertex_lengths_buffer b') /\
    2 * sizeof_int + sizeof_uint32 * zlength (triangle_indices mesh)
      <= pa_allocated (triangle_indices_buffer b').
Proof.
  intros Hvalid Hret (Rp & Ra & Rl & Ri); cbn zeta; intros (Fp & Fa & Fl & Fi).
  destruct (returned_mesh_sizes context spines mesh Hvalid Hret)
    as (Hv & Ht & Lp & La & Li).
  cbn zeta in Hv, Ht, Lp, La, Li.
  pose proof (returned_lengths_le context spines mesh Hvalid Hret) as Ll.
  destruct Hvalid as (Hwf & Hall & Hsum).
  destruct (draw_lines_returned context spines Hwf mesh Hret)
    as (_ & _ & Hnv & Hni & _).
  pose proof (totals_bounds (closed spines) (spine_lengths spines) Hall) as Hb.
  rewrite <- Hv in Lp, La, Hnv. rewrite <- Ht in Li, Hni.
  assert (Hv0 : 0 <= num_vertices mesh) by lia.
  assert (Ht0 : 0 <= num_triangles mesh) by lia.
  set (nv := num_vertices mesh) in *. set (nt := num_triangles mesh) in *.
  set (w := wireframe (config context)) in *.
  assert (Hi0 : 0 <= ind_per_tri w * nt) by (unfold ind_per_tri; destruct w; lia).
  destruct (pa_clear_add (vertex_lengths_buffer b) nv sizeof_float
              eq_refl eq_refl Rl Hv0 Fl) as (l & El & Nl & Rl' & _).
  destruct (pa_clear_add (vertex_annotations_buffer b) nv sizeof_annotation
              eq_refl eq_refl Ra Hv0 Fa) as (a & Ea & Na & Ra' & _).
  destruct (pa_clear_add (vertex_positions_buffer b) nv sizeof_position
              eq_refl eq_refl Rp Hv0 Fp) as (p & Ep & Np & Rp' & _).
  destruct (pa_clear_add (triangle_indices_buffer b) (ind_per_tri w * nt)
              sizeof_uint32 eq_refl eq_refl Ri Hi0 Fi) as (i & Ei & Ni & Ri' & _).
  exists {| vertex_positions_buffer := Some p;
            vertex_annotations_buffer := Some a;
            vertex_lengths_buffer := Some l;
            triangle_indices_buffer := Some i |}.
  split.
  { unfold size_buffers.
    rewrite (to_uint32_small (ind_per_tri w * nt)) by lia.
    rewrite El; cbn [pa_bind]. rewrite Ea; cbn [pa_bind].
    rewrite Ep; cbn [pa_bind]. rewrite Ei; cbn [pa_bind]. reflexivity. }
  cbn [vertex_positions_buffer vertex_annotations_buffer vertex_lengths_buffer
       triangle_indices_buffer pa_count pa_allocated].
  unfold buffers_room;
    cbn [vertex_positions_buffer vertex_annotations_buffer vertex_lengths_buffer
         triangle_indices_buffer].
  assert (Bl := Rl'). assert (Ba := Ra'). assert (Bp := Rp'). assert (Bi := Ri').
  lazy beta iota delta [pa_room] in Bl, Ba, Bp, Bi.
  unfold sizeof_position, sizeof_annotation, sizeof_float, sizeof_uint32 in *.
  repeat split; try assumption; try lia.
Qed.

Lemma buffers_hold_the_mesh_witness :
  let mesh := mesh_of (par_streamlines_draw_lines (libm := ref_libm)
                         header_context (two_spines true)) in
  exists b',
    size_buffers true true true true created_buffers
      (wireframe (config header_context)) (num_vertices mesh) (num_triangles mesh)
      = pa_done b' /\
    pa_count (vertex_positions_buffer b') = num_vertices mesh.
Proof.
  intros mesh.
  destruct (buffers_hold_the_mesh (libm := ref_libm) header_context
              (two_spines true) mesh created_buffers
              (two_spines_valid true) (two_spines_returned true))
    as (b' & E & Hp & _).
  - repeat split.
  - vm_compute. repeat split; discriminate.
  - exists b'. split; assumption.
Defined.

(** X13. On the arrays of a new context, sizing a mesh of 2^27 vertices
    or more (up to [INT_MAX]) never succeeds: [pa___growf] computes the
    size in bytes of the annotations, 16 bytes each, as an [int], and the
    product leaves the range of [int] even when [realloc] would grant
    every block. *)
Theorem sizing_overflows g_lengths g_annotations g_positions g_indices
    wireframe num_vertices num_triangles :
  134217728 <= num_vertices <= INT_MAX ->
  (forall b', size_buffers g_lengths g_annotations g_positions g_indices
                created_buffers wireframe num_vertices num_triangles
              <> pa_done b') /\
  size_buffers true true true true created_buffers wireframe
    num_vertices num_triangles = pa_signed_overflow.
Proof.
  intros Hnv.
  assert (Hl : forall g, pa_add g None num_vertices sizeof_float =
                 if INT_MAX <? sizeof_float * num_vertices then pa_signed_overflow
                 else if g
                 then pa_done {| pa___m := num_vertices; pa___n := num_vertices;
                                 allocated := 2 * sizeof_int +
                                              sizeof_float * num_vertices |}
                 else pa_alloc_failed).
  { intros g.
    rewrite (pa_add_cases g None num_vertices sizeof_float eq_refl eq_refl I)
      by (cbn [pa_count]; unfold INT_MAX in *; lia).
    cbn [pa_count pa_capacity].
    replace (0 + num_vertices <? 0) with false by (symmetry; apply Z.ltb_ge; lia).
    rewrite Z.mul_0_r, Z.add_0_l, Z.max_r by lia. reflexivity. }
  assert (Ha : forall g, pa_add g None num_vertices sizeof_annotation =
                 pa_signed_overflow).
  { intros g.
    rewrite (pa_add_cases g None num_vertices sizeof_annotation eq_refl eq_refl I)
      by (cbn [pa_count]; unfold INT_MAX in *; lia).
    cbn [pa_count pa_capacity].
    replace (0 + num_vertices <? 0) with false by (symmetry; apply Z.ltb_ge; lia).
    rewrite Z.mul_0_r, Z.add_0_l, Z.max_r by lia.
    replace (INT_MAX <? sizeof_annotation * num_vertices) with true
      by (symmetry; apply Z.ltb_lt; unfold INT_MAX, sizeof_annotation; lia).
    reflexivity. }
  unfold size_buffers, created_buffers;
    cbn [vertex_lengths_buffer vertex_annotations_buffer vertex_positions_buffer
         triangle_indices_buffer pa_clear].
  split.
  - intros b'. rewrite Hl, Ha.
    destruct (INT_MAX <? sizeof_float * num_vertices); [discriminate|].
    destruct g_lengths; discriminate.
  - rewrite Hl, Ha.
    destruct (INT_MAX <? sizeof_float * num_vertices); reflexivity.
Qed.

Lemma sizing_overflows_witness :
  size_buffers true true true true created_buffers false 134217728 134217726
  = pa_signed_overflow.
Proof.
  refine (proj2 (sizing_overflows true true true true false 134217728 134217726 _)).
  vm_compute. split; discriminate.
Defined.

(** X14. [par_streamlines_destroy_context] gives back the blocks of the
    positions, the annotations and the lengths, but not the block of
    [triangle_indices]: after any sizing that succeeded, that block is
    still allocated when the context is gone. *)
Theorem destroy_keeps_index_block g_lengths g_annotations g_positions g_indices
    b wireframe num_vertices num_triangles b' :
  size_buffers g_lengths g_annotations g_positions g_indices b wireframe
    num_vertices num_triangles = pa_done b' ->
  let after := par_streamlines_destroy_context b' in
  vertex_positions_buffer after = None /\
  vertex_annotations_buffer after = None /\
  vertex_lengths_buffer after = None /\
  exists block,
    triangle_indices_buffer b' = Some block /\
    triangle_indices_buffer after = Some block.
Proof.
  unfold size_buffers. intros Hdone; cbn zeta.
  destruct (pa_add g_lengths _ _ _) as [l| |]; cbn [pa_bind] in Hdone;
    try discriminate.
  destruct (pa_add g_annotations _ _ _) as [a| |]; cbn [pa_bind] in Hdone;
    try discriminate.
  destruct (pa_add g_positions _ _ _) as [p| |]; cbn [pa_bind] in Hdone;
    try discriminate.
  destruct (pa_add g_indices _ _ _) as [i| |] eqn:Ei; cbn [pa_bind] in Hdone;
    try discriminate.
  apply (f_equal (fun r => match r with pa_done x => x | _ => b' end)) in Hdone.
  cbv beta iota in Hdone. subst b'.
  cbn [par_streamlines_destroy_context vertex_positions_buffer
       vertex_annotations_buffer vertex_lengths_buffer triangle_indices_buffer
       pa_free].
  repeat split. exists i. split; reflexivity.
Qed.

Lemma destroy_keeps_index_block_witness :
  let sized :=
    {| vertex_positions_buffer :=
         Some {| pa___m := 4; pa___n := 4; allocated := 40 |};
       vertex_annotations_buffer :=
         Some {| pa___m := 4; pa___n := 4; allocated := 72 |};
       vertex_lengths_buffer :=
         Some {| pa___m := 4; pa___n := 4; allocated := 24 |};
       triangle_indices_buffer :=
         Some {| pa___m := 6; pa___n := 6; allocated := 32 |} |} in
  size_buffers true true true true created_buffers false 4 2 = pa_done sized /\
  triangle_indices_buffer (par_streamlines_destroy_context sized)
  = Some {| pa___m := 6; pa___n := 6; allocated := 32 |}.
Proof.
  intros sized.
  assert (H : size_buffers true true true true created_buffers false 4 2
              = pa_done sized) by (vm_compute; reflexivity).
  split; [exact H|].
  destruct (destroy_keeps_index_block true true true true created_buffers false
              4 2 sized H) as (_ & _ & _ & block & E & E').
  rewrite E'. rewrite <- E. reflexivity.
Defined.
(* ================================================================== *)
(** ** A point that is repeated *)

Lemma sub_self x : finite_float x = true -> F32.sub x x = S754_zero false.
Proof.
  destruct x as [s| | |s m e]; cbn [finite_float]; try discriminate; intros _.
  - destruct s; reflexivity.
  - unfold F32.sub, SFsub. rewrite Z.min_id.
    unfold shl_align. rewrite !Z.sub_diag. reflexivity.
Qed.

Lemma add_nan_r x : F32.add x S754_nan = S754_nan.
Proof. destruct x; reflexivity. Qed.

Lemma sub_nan_r x : F32.sub x S754_nan = S754_nan.
Proof. destruct x; reflexivity. Qed.

Lemma mul_nan_r x : F32.mul x S754_nan = S754_nan.
Proof. destruct x; reflexivity. Qed.

(** The normal of a segment between two equal points is 0 / 0. *)
Lemma seg_normal_self (p q : Position) :
  finite_float (x p) = true -> finite_float (y p) = true ->
  x q = x p -> y q = y p ->
  seg_length p q = F32.zero /\
  seg_nx p q = S754_nan /\ seg_ny p q = S754_nan.
Proof.
  intros Hx Hy Ex Ey. unfold seg_nx, seg_ny, seg_length.
  rewrite Ex, Ey, !sub_self by assumption.
  repeat split; reflexivity.
Qed.

Lemma butt_nan thickness : butt thickness S754_nan = S754_nan.
Proof. reflexivity. Qed.

Lemma miter_nan_r {libm : Libm} thickness pnx pny :
  miter thickness pnx pny S754_nan S754_nan = (S754_nan, S754_nan).
Proof.
  unfold miter. rewrite !add_nan_r. reflexivity.
Qed.

Lemma miter_nan_l {libm : Libm} thickness nx ny :
  miter thickness S754_nan S754_nan nx ny = (S754_nan, S754_nan).
Proof. reflexivity. Qed.

(** The joints at the two ends of a segment between two equal points. *)
Lemma joint_offset_repeated {libm : Libm} thickness closed vertices v n i :
  1 < n ->
  0 <= i < n - 1 ->
  let p := src vertices (v + i) in
  let q := src vertices (v + (i + 1)) in
  finite_float (x p) = true -> finite_float (y p) = true ->
  x q = x p -> y q = y p ->
  joint_offset thickness closed vertices v n i = (S754_nan, S754_nan) /\
  joint_offset thickness closed vertices v n (i + 1) = (S754_nan, S754_nan).
Proof.
  intros Hn Hi; cbn zeta; intros Hx Hy Ex Ey.
  destruct (seg_normal_self _ _ Hx Hy Ex Ey) as (_ & Nx & Ny).
  unfold joint_offset; cbv zeta beta. split.
  - destruct (i =? 0) eqn:E0.
    + apply Z.eqb_eq in E0; subst i.
      change (0 + 1) with 1 in Nx, Ny.
      rewrite Nx, Ny. destruct closed.
      * apply miter_nan_r.
      * reflexivity.
    + replace (i =? n - 1) with false by (symmetry; apply Z.eqb_neq; lia).
      rewrite Nx, Ny. apply miter_nan_r.
  - replace (i + 1 =? 0) with false by (symmetry; apply Z.eqb_neq; lia).
    replace (v + (i + 1 - 1)) with (v + i) by lia.
    destruct (i + 1 =? n - 1) eqn:E1.
    + apply Z.eqb_eq in E1.
      replace (v + (n - 2)) with (v + i) by lia.
      replace (v + (n - 1)) with (v + (i + 1)) by lia.
      rewrite Nx, Ny. destruct closed.
      * apply miter_nan_l.
      * reflexivity.
    + rewrite Nx, Ny. apply miter_nan_l.
Qed.

(** X15. A spine point that is repeated (two consecutive points of a
    spine with the same finite coordinates) makes the normal of the
    segment between them 0 / 0: the four boundary vertices of the two
    points are NaN in both coordinates, and so are their offsets,
    whatever the thickness, the u-mode and the libm. *)
Theorem repeated_point_is_nan {libm : Libm} context spines mesh k i :
  valid_spine_list spines ->
  par_streamlines_draw_lines context spines = Returned mesh ->
  (k < length (spine_lengths spines))%nat ->
  0 <= i < spine_length_of spines k - 1 ->
  let p := src (vertices spines) (first_vertex spines k + i) in
  let q := src (vertices spines) (first_vertex spines k + (i + 1)) in
  finite_float (x p) = true -> finite_float (y p) = true ->
  x q = x p -> y q = y p ->
  let o := first_output spines k + 2 * i in
  let nowhere := {| x := S754_nan; y := S754_nan |} in
  position_at mesh o = nowhere /\
  position_at mesh (o + 1) = nowhere /\
  position_at mesh (o + 2) = nowhere /\
  position_at mesh (o + 3) = nowhere /\
  spine_to_edge (annotation_at mesh o) = (S754_nan, S754_nan) /\
  spine_to_edge (annotation_at mesh (o + 2)) = (S754_nan, S754_nan).
Proof.
  intros Hvalid Hret Hk Hi; cbn zeta; intros Hx Hy Ex Ey.
  pose proof (spine_length_of_valid spines k Hvalid Hk) as Hn.
  destruct (joint_offset_repeated (thickness (config context)) (closed spines)
              (vertices spines) (first_vertex spines k) (spine_length_of spines k)
              i ltac:(lia) Hi Hx Hy Ex Ey) as (J0 & J1).
  destruct (returned_joints context spines mesh k i Hvalid Hret Hk ltac:(lia))
    as (E0 & P0 & P1).
  destruct (returned_joints context spines mesh k (i + 1) Hvalid Hret Hk ltac:(lia))
    as (E1 & P2 & P3).
  cbn zeta in E0, P0, P1, E1, P2, P3.
  rewrite J0 in E0, P0, P1. rewrite J1 in E1, P2, P3.
  cbn [fst snd] in P0, P1, P2, P3.
  rewrite !add_nan_r in P0, P2. rewrite !sub_nan_r in P1, P3.
  replace (first_output spines k + 2 * (i + 1))
    with (first_output spines k + 2 * i + 2) in E1, P2, P3 by lia.
  replace (first_output spines k + 2 * i + 2 + 1)
    with (first_output spines k + 2 * i + 3) in P3 by lia.
  repeat split; assumption.
Qed.

Lemma stutter_valid : valid_spine_list (one_spine stutter false).
Proof.
  unfold valid_spine_list, well_formed, one_spine, stutter, zlength,
    UINT16_MOD, UINT32_MOD; cbn.
  repeat split; try lia; repeat constructor; lia.
Qed.

Lemma stutter_returned :
  par_streamlines_draw_lines (libm := ref_libm) header_context
    (one_spine stutter false)
  = Returned (mesh_of (par_streamlines_draw_lines (libm := ref_libm)
                         header_context (one_spine stutter false))).
Proof. vm_compute; reflexivity. Qed.

Lemma repeated_point_is_nan_witness :
  let mesh := mesh_of (par_streamlines_draw_lines (libm := ref_libm)
                         header_context (one_spine stutter false)) in
  position_at mesh (0 + 2 * 0) = {| x := S754_nan; y := S754_nan |}.
Proof.
  intros mesh.
  refine (proj1 (repeated_point_is_nan (libm := ref_libm) header_context
                   (one_spine stutter false) mesh 0 0 stutter_valid
                   stutter_returned (Nat.lt_0_succ 0) _
                   eq_refl eq_refl eq_refl eq_refl)).
  vm_compute. split; [discriminate|reflexivity].
Defined.
(* ================================================================== *)
(** ** Each spine is drawn from its own points *)

Lemma src_slice vertices s n j :
  0 <= s -> 0 <= j < n ->
  src (slice vertices s n) j = src vertices (s + j).
Proof.
  intros Hs Hj. unfold src, slice.
  rewrite nth_firstn.
  replace (Z.to_nat j <? Z.to_nat n)%nat with true
    by (symmetry; apply Nat.ltb_lt; lia).
  rewrite nth_skipn. f_equal. lia.
Qed.

Lemma interior_loop_shift {libm : Libm} thickness w vertices vertices' s n b b' turns :
  (forall j, 0 <= j < n -> src vertices' j = src vertices (s + j)) ->
  forall c c',
  shifted s c c' ->
  0 <= src_position c' ->
  src_position c' + Z.of_nat turns < n ->
  shifted s (interior_loop thickness w vertices b turns c)
            (interior_loop thickness w vertices' b' turns c').
Proof.
  intros Hsrc. induction turns as [|turns IH]; intros c c' Hc H0 Hfit; [exact Hc|].
  cbn [interior_loop]. apply IH.
  - destruct Hc as (Hs & Hx & Hy & Hd & Hi & Hp & Ha).
    unfold shifted, interior_step;
      cbn [src_position pnx pny distance_along_spine segment_index
           dst_positions dst_annotations].
    rewrite Hs, Hx, Hy, Hd, Hi, Hp, Ha.
    rewrite <- Z.add_assoc.
    rewrite !Hsrc by lia.
    repeat split; reflexivity || lia.
  - unfold interior_step; cbn [src_position]. lia.
  - unfold interior_step; cbn [src_position]. lia.
Qed.

(** One spine drawn from the whole vertex array and from its own points
    only. *)
Lemma draw_spine_shift {libm : Libm} thickness closed w u vertices vertices' s n b b' :
  2 <= n ->
  (forall j, 0 <= j < n -> src vertices' j = src vertices (s + j)) ->
  let d := draw_spine thickness closed w u vertices n s b in
  let d' := draw_spine thickness closed w u vertices' n 0 b' in
  sp_positions d = sp_positions d' /\
  sp_annotations d = sp_annotations d' /\
  sp_lengths d = sp_lengths d'.
Proof.
  intros Hn Hsrc; cbn zeta. unfold draw_spine.
  rewrite !Z.add_0_l.
  rewrite (Hsrc 0), (Hsrc 1), (Hsrc (n - 1)) by lia.
  rewrite Z.add_0_r.
  match goal with
  | |- context [interior_loop thickness w vertices b ?turns ?c] =>
      match goal with
      | |- context [interior_loop thickness w vertices' b' turns ?c'] =>
          pose proof (interior_loop_shift thickness w vertices vertices' s n b b'
                        turns Hsrc c c') as Hshift;
          destruct (interior_loop_sizes thickness w vertices' b' turns c')
            as (Hpos & _);
          set (c1 := interior_loop thickness w vertices b turns c) in *;
          set (c1' := interior_loop thickness w vertices' b' turns c') in *
      end
  end.
  cbn [src_position] in Hpos, Hshift.
  destruct Hshift as (Hs & Hx & Hy & Hd & Hi & Hp & Ha);
    [repeat split; lia | lia | lia |].
  assert (Hlast : src vertices' (src_position c1') = src vertices (src_position c1)).
  { rewrite Hs. apply Hsrc. lia. }
  rewrite Hlast.
  destruct closed;
    cbn [sp_positions sp_annotations sp_lengths src_position pnx pny
         distance_along_spine segment_index dst_positions dst_annotations];
    rewrite Hx, Hy, Hd, Hp, Ha; repeat split; reflexivity.
Qed.

Lemma Zsum_nonneg lens : Forall (fun n => 1 < n) lens -> 0 <= Zsum lens.
Proof. induction 1; cbn [Zsum]; lia. Qed.

Lemma Zsum_split k : forall lens,
  (k < length lens)%nat ->
  Zsum lens = Zsum (firstn k lens) + nth k lens 0 + Zsum (skipn (S k) lens).
Proof.
  induction k as [|k IH]; intros [|n rest] Hk; cbn [length] in Hk; try lia.
  - cbn [firstn skipn nth Zsum]. lia.
  - change (skipn (S (S k)) (n :: rest)) with (skipn (S k) rest).
    cbn [firstn nth Zsum]. rewrite (IH rest) by lia. lia.
Qed.

Lemma slice_all {A} (l : list A) : slice l 0 (zlength l) = l.
Proof.
  unfold slice, zlength. cbn [Z.to_nat skipn].
  rewrite Nat2Z.id. apply firstn_all.
Qed.

Lemma slice_whole_block {A} (pre blk post : list A) (o : Z) :
  zlength pre = o ->
  slice (pre ++ blk ++ post) o (zlength blk) = blk.
Proof.
  intros Ho.
  pose proof (slice_block pre blk post o 0 (zlength blk) Ho) as E.
  rewrite Z.add_0_r in E. rewrite E by (unfold zlength; lia).
  apply slice_all.
Qed.

(** X16. Each spine is drawn from its own points only: the positions and
    the annotations that a mesh holds for spine k are those of the mesh
    drawn, with the same context, for the spine list that has this one
    spine. *)
Theorem spines_are_independent {libm : Libm} context spines mesh k :
  valid_spine_list spines ->
  par_streamlines_draw_lines context spines = Returned mesh ->
  (k < length (spine_lengths spines))%nat ->
  let n := spine_length_of spines k in
  let alone :=
    one_spine (slice (vertices spines) (first_vertex spines k) n) (closed spines) in
  exists mesh_k,
    par_streamlines_draw_lines context alone = Returned mesh_k /\
    num_vertices mesh_k = spine_vertices (closed spines) n /\
    slice (vertex_positions mesh) (first_output spines k) (num_vertices mesh_k) =
      vertex_positions mesh_k /\
    slice (vertex_annotations mesh) (first_output spines k) (num_vertices mesh_k) =
      vertex_annotations mesh_k.
Proof.
  intros (Hwf & Hall & Hsum) Hret Hk; cbn zeta.
  destruct (draw_lines_returned context spines Hwf mesh Hret)
    as (Hrange & _ & Htv & _ & ->).
  assert (Hnk : 1 < spine_length_of spines k < UINT16_MOD).
  { unfold spine_length_of. rewrite Forall_forall in Hrange.
    apply Hrange. apply nth_In. exact Hk. }
  set (n := spine_length_of spines k) in *.
  set (s := first_vertex spines k).
  assert (Hs : 0 <= s).
  { apply Zsum_nonneg. apply Forall_sublist_firstn. exact Hall. }
  assert (Hlen : zlength (slice (vertices spines) s n) = n).
  { destruct Hwf as (_ & _ & _ & _ & Hv).
    pose proof (Zsum_split k (spine_lengths spines) Hk) as Hsplit.
    assert (0 <= Zsum (skipn (S k) (spine_lengths spines))).
    { apply Zsum_nonneg. apply Forall_sublist_skipn. exact Hall. }
    change (Zsum (firstn k (spine_lengths spines))) with s in Hsplit.
    change (nth k (spine_lengths spines) 0) with n in Hsplit.
    unfold slice, zlength in *. rewrite length_firstn, length_skipn. lia. }
  set (alone := one_spine (slice (vertices spines) s n) (closed spines)).
  assert (Hwf' : well_formed alone).
  { unfold well_formed, alone, one_spine;
      cbn [num_spines spines_num_vertices spine_lengths vertices].
    rewrite Hlen. unfold UINT16_MOD, UINT32_MOD in *.
    repeat split; try lia; try reflexivity; repeat constructor; lia. }
  pose proof (spine_vertices_pos (closed spines) n ltac:(lia)) as Hsv.
  pose proof (spine_triangles_bounds (closed spines) n ltac:(lia)) as Hst.
  assert (Htot : total_vertices (closed spines) [n] = spine_vertices (closed spines) n)
    by (unfold total_vertices; cbn [map Zsum]; lia).
  assert (Htot' : total_triangles (closed spines) [n] =
                  spine_triangles (closed spines) n)
    by (unfold total_triangles; cbn [map Zsum]; lia).
  assert (Hsmall : spine_vertices (closed spines) n < 200000)
    by (unfold spine_vertices, UINT16_MOD in *; destruct (closed spines); lia).
  eexists. split.
  { apply (draw_lines_returns context alone Hwf');
      unfold alone, one_spine; cbn [spine_lengths spines_num_vertices closed];
      rewrite ?Hlen, ?Htot, ?Htot'.
    - repeat constructor; lia.
    - cbn [Zsum]; lia.
    - unfold UINT32_MOD; lia.
    - unfold UINT32_MOD, ind_per_tri; destruct (wireframe (config context)); lia. }
  cbn [num_vertices vertex_positions vertex_annotations].
  assert (Hcl : closed alone = closed spines) by reflexivity.
  assert (Hvs : vertices alone = slice (vertices spines) s n) by reflexivity.
  assert (Hsl : spine_lengths alone = [n])
    by (unfold alone, one_spine; cbn [spine_lengths]; rewrite Hlen; reflexivity).
  unfold written. rewrite Hcl, Hvs, Hsl, Htot.
  split; [reflexivity|].
  cbn [draw_spines sp_positions sp_annotations]. rewrite !app_nil_r.
  destruct (draw_spines_blocks (thickness (config context)) (closed spines)
              (wireframe (config context)) (u_mode (config context))
              (vertices spines) (spine_lengths spines) k 0 0 Hrange
              ltac:(lia) ltac:(lia) Hk)
    as (pre_p & post_p & pre_a & post_a & _ & _ & Ep & Lp & Ea & La & _).
  cbn zeta in Ep, Ea. rewrite !Z.add_0_l in Ep, Ea.
  fold (spine_length_of spines k) in Ep, Ea. fold n in Ep, Ea.
  fold (first_vertex spines k) in Ep, Ea. fold s in Ep, Ea.
  fold (first_output spines k) in Ep, Ea, Lp, La.
  destruct (draw_spine_shift (thickness (config context)) (closed spines)
              (wireframe (config context)) (u_mode (config context))
              (vertices spines) (slice (vertices spines) s n) s n
              (first_output spines k) 0 ltac:(lia)
              (fun j Hj => src_slice (vertices spines) s n j Hs Hj))
    as (Sp & Sa & _).
  cbn zeta in Sp, Sa.
  destruct (draw_spine_sizes (thickness (config context)) (closed spines)
              (wireframe (config context)) (u_mode (config context))
              (vertices spines) n s (first_output spines k) ltac:(lia))
    as (_ & Zp & Za & _).
  cbn zeta in Zp, Za.
  rewrite Ep, Ea.
  rewrite <- Zp at 1. rewrite <- Za.
  rewrite !slice_whole_block by assumption.
  split; assumption.
Qed.

Lemma spines_are_independent_witness :
  let mesh := mesh_of (par_streamlines_draw_lines (libm := ref_libm)
                         header_context (two_spines false)) in
  exists mesh_k,
    par_streamlines_draw_lines (libm := ref_libm) header_context
      (one_spine (slice (vertices (two_spines false)) 3 2) false)
    = Returned mesh_k /\
    slice (vertex_positions mesh) 6 (num_vertices mesh_k) = vertex_positions mesh_k.
Proof.
  intros mesh.
  destruct (spines_are_independent (libm := ref_libm) header_context
              (two_spines false) mesh 1 (two_spines_valid false)
              (two_spines_returned false) (Nat.lt_succ_diag_r 1))
    as (mesh_k & E & _ & Hp & _).
  exists mesh_k. split; [exact E|exact Hp].
Defined.

(* ================================================================== *)
(** ** The whole call *)













